(** * CryptoAnalysis: the Elliott-wave heuristic of [cryptoapp.py]

    A shallow embedding of [cryptoapp.py]: the requests and the candle
    frame of [get_crypto_candles], the indicator columns and the highlight
    loop of [detect_elliot_waves], the scan of [identify_wave_pattern], the
    recommendation of [interpret_elliot_waves] and one pass of the loop of
    [main].

    The program computes on numpy [float64] values.  The embedding is written
    once, over an interface [FloatOps] of the float operations the program
    uses, and the interface has two instances:
    - [binary64]: the kernel's IEEE 754 binary64 numbers, bit for bit what
      numpy computes with;
    - [exact]: the extended rationals (NaN, the two infinities and the
      rationals with exact arithmetic), the idealised reading of the same
      operations, used where a statement is about numeric ranges.

    The pandas operations are embedded as pandas computes them: the
    rolling maximum and minimum return the latest of equal values, the
    rolling mean keeps a running sum with Kahan compensation across the
    rows, every rolling aggregation takes an infinite value for a missing
    one, and [pd.to_datetime] fails outside the range of
    [datetime64[ns]].

    The network is a parameter of the retrieval: the reply to each
    request, given the requests made before it.  The figure is a parameter
    of the analysis: whether its drawing raises.  What the figure shows,
    the formatting of the explanation text and the console input of [main]
    are not modelled. *)

From Stdlib Require Import ZArith QArith Qreduction Bool List Lia Lqa.
From Stdlib Require Import Strings.String Strings.Ascii DecimalString.
From Stdlib Require Import Floats Uint63.
Import ListNotations.

Set Implicit Arguments.
Close Scope Q_scope.
Open Scope nat_scope.

(** ** The float interface *)

Class FloatOps (F : Type) : Type := {
  f_nan    : F;
  f_of_Z   : Z -> F;
  f_add    : F -> F -> F;
  f_sub    : F -> F -> F;
  f_mul    : F -> F -> F;
  f_div    : F -> F -> F;
  f_opp    : F -> F;
  f_abs    : F -> F;
  f_ltb    : F -> F -> bool;
  f_leb    : F -> F -> bool;
  f_eqb    : F -> F -> bool;
  f_is_nan : F -> bool;
  f_is_inf : F -> bool;
  f_signbit : F -> bool;
  (** The laws the statements below rely on: the missing value is a NaN,
      [x == y] entails [x <= y], and [x <= y] excludes [y < x]. *)
  f_nan_is_nan : f_is_nan f_nan = true;
  f_eqb_leb : forall x y, f_eqb x y = true -> f_leb x y = true;
  f_leb_not_ltb : forall x y, f_leb x y = true -> f_ltb y x = false
}.

Declare Scope fl_scope.
Delimit Scope fl_scope with fl.
Infix "+" := f_add : fl_scope.
Infix "-" := f_sub : fl_scope.
Infix "*" := f_mul : fl_scope.
Infix "/" := f_div : fl_scope.
Notation "- x" := (f_opp x) : fl_scope.
Notation "x <? y" := (f_ltb x y) : fl_scope.
Notation "x >? y" := (f_ltb y x) : fl_scope.
Notation "x <=? y" := (f_leb x y) : fl_scope.
Notation "x =? y" := (f_eqb x y) : fl_scope.

(** A decimal literal of the source, such as [0.02]: the quotient of two
    integers, which IEEE division rounds to the nearest float just as the
    Python parser does. *)
Definition lit {F} `{FloatOps F} (q : Q) : F :=
  (f_of_Z (Qnum q) / f_of_Z (Zpos (Qden q)))%fl.

(** *** binary64 *)

Module Binary64.

Definition of_Z (z : Z) : float :=
  match z with
  | Z0 => PrimFloat.zero
  | Zpos _ => PrimFloat.of_uint63 (Uint63.of_Z z)
  | Zneg p => PrimFloat.opp (PrimFloat.of_uint63 (Uint63.of_Z (Zpos p)))
  end.

Lemma SFcompare_antisym (x y : spec_float) :
  SFcompare y x = option_map CompOpp (SFcompare x y).
Proof.
  destruct x as [sx|sx| |sx mx ex], y as [sy|sy| |sy my ey];
    try reflexivity;
    try (destruct sx; reflexivity);
    try (destruct sy; reflexivity);
    try (destruct sx, sy; reflexivity).
  simpl. destruct sx, sy; try reflexivity;
    rewrite (Z.compare_antisym ex ey);
    destruct (ex ?= ey)%Z; simpl; try reflexivity;
    rewrite (Pos.compare_cont_antisym mx my Eq); simpl;
    try rewrite CompOpp_involutive; reflexivity.
Qed.

Lemma binary64_eqb_leb (x y : float) :
  PrimFloat.eqb x y = true -> PrimFloat.leb x y = true.
Proof.
  rewrite FloatAxioms.eqb_spec, FloatAxioms.leb_spec. unfold SFeqb, SFleb.
  destruct (SFcompare (Prim2SF x) (Prim2SF y)) as [[ | | ]|];
    simpl; congruence.
Qed.

Lemma binary64_leb_not_ltb (x y : float) :
  PrimFloat.leb x y = true -> PrimFloat.ltb y x = false.
Proof.
  rewrite FloatAxioms.leb_spec, FloatAxioms.ltb_spec. unfold SFleb, SFltb.
  rewrite (SFcompare_antisym (Prim2SF x) (Prim2SF y)).
  destruct (SFcompare (Prim2SF x) (Prim2SF y)) as [[ | | ]|];
    simpl; congruence.
Qed.

End Binary64.

#[export] Instance binary64 : FloatOps float := {|
  f_nan    := PrimFloat.nan;
  f_of_Z   := Binary64.of_Z;
  f_add    := PrimFloat.add;
  f_sub    := PrimFloat.sub;
  f_mul    := PrimFloat.mul;
  f_div    := PrimFloat.div;
  f_opp    := PrimFloat.opp;
  f_abs    := PrimFloat.abs;
  f_ltb    := PrimFloat.ltb;
  f_leb    := PrimFloat.leb;
  f_eqb    := PrimFloat.eqb;
  f_is_nan := PrimFloat.is_nan;
  f_is_inf := PrimFloat.is_infinity;
  f_signbit := PrimFloat.get_sign;
  f_nan_is_nan := eq_refl;
  f_eqb_leb := Binary64.binary64_eqb_leb;
  f_leb_not_ltb := Binary64.binary64_leb_not_ltb
|}.

(** *** Extended rationals with exact arithmetic *)

Module Exact.

Inductive num : Type :=
| NaN
| Inf (neg : bool)
| Fin (q : Q).

Definition is_neg (q : Q) : bool := negb (Qle_bool 0 q).
Definition is_zero (q : Q) : bool := Qeq_bool q 0.

Definition add (x y : num) : num :=
  match x, y with
  | NaN, _ | _, NaN => NaN
  | Inf s, Inf t => if Bool.eqb s t then Inf s else NaN
  | Inf s, Fin _ => Inf s
  | Fin _, Inf t => Inf t
  | Fin a, Fin b => Fin (Qred (a + b))
  end.

Definition opp (x : num) : num :=
  match x with
  | NaN => NaN
  | Inf s => Inf (negb s)
  | Fin a => Fin (Qred (- a))
  end.

Definition sub (x y : num) : num := add x (opp y).

Definition mul (x y : num) : num :=
  match x, y with
  | NaN, _ | _, NaN => NaN
  | Inf s, Inf t => Inf (xorb s t)
  | Inf s, Fin b | Fin b, Inf s =>
      if is_zero b then NaN else Inf (xorb s (is_neg b))
  | Fin a, Fin b => Fin (Qred (a * b))
  end.

(** Division by zero does not fail: it yields an infinity of the sign of
    the dividend, and NaN for [0 / 0], as numpy arrays do. *)
Definition div (x y : num) : num :=
  match x, y with
  | NaN, _ | _, NaN => NaN
  | Inf _, Inf _ => NaN
  | Inf s, Fin b => Inf (xorb s (is_neg b))
  | Fin _, Inf _ => Fin 0
  | Fin a, Fin b =>
      if is_zero b
      then (if is_zero a then NaN else Inf (is_neg a))
      else Fin (Qred (a / b))
  end.

Definition abs (x : num) : num :=
  match x with
  | NaN => NaN
  | Inf _ => Inf false
  | Fin a => Fin (if is_neg a then Qred (- a) else a)
  end.

Definition ltb (x y : num) : bool :=
  match x, y with
  | NaN, _ | _, NaN => false
  | Inf s, Inf t => s && negb t
  | Inf s, Fin _ => s
  | Fin _, Inf t => negb t
  | Fin a, Fin b => negb (Qle_bool b a)
  end.

Definition leb (x y : num) : bool :=
  match x, y with
  | NaN, _ | _, NaN => false
  | Inf s, Inf t => s || negb t
  | Inf s, Fin _ => s
  | Fin _, Inf t => negb t
  | Fin a, Fin b => Qle_bool a b
  end.

Definition eqb (x y : num) : bool :=
  match x, y with
  | Inf s, Inf t => Bool.eqb s t
  | Fin a, Fin b => Qeq_bool a b
  | _, _ => false
  end.

Definition is_nan (x : num) : bool :=
  match x with NaN => true | _ => false end.

Definition is_inf (x : num) : bool :=
  match x with Inf _ => true | _ => false end.

(** There is one zero, and its sign bit is clear. *)
Definition signbit (x : num) : bool :=
  match x with
  | NaN => false
  | Inf s => s
  | Fin a => is_neg a
  end.

Lemma exact_eqb_leb (x y : num) : eqb x y = true -> leb x y = true.
Proof.
  destruct x as [|s|a], y as [|t|b]; simpl; try congruence.
  - destruct s, t; simpl; congruence.
  - unfold Qeq_bool, Qle_bool. intros E. apply Z.eqb_eq in E.
    rewrite E. apply Z.leb_refl.
Qed.

Lemma exact_leb_not_ltb (x y : num) : leb x y = true -> ltb y x = false.
Proof.
  destruct x as [|s|a], y as [|t|b]; simpl; try congruence.
  - destruct s, t; simpl; congruence.
  - destruct s; simpl; congruence.
  - destruct t; simpl; congruence.
  - intros ->; reflexivity.
Qed.

End Exact.

#[export] Instance exact : FloatOps Exact.num := {|
  f_nan    := Exact.NaN;
  f_of_Z   := fun z => Exact.Fin (inject_Z z);
  f_add    := Exact.add;
  f_sub    := Exact.sub;
  f_mul    := Exact.mul;
  f_div    := Exact.div;
  f_opp    := Exact.opp;
  f_abs    := Exact.abs;
  f_ltb    := Exact.ltb;
  f_leb    := Exact.leb;
  f_eqb    := Exact.eqb;
  f_is_nan := Exact.is_nan;
  f_is_inf := Exact.is_inf;
  f_signbit := Exact.signbit;
  f_nan_is_nan := eq_refl;
  f_eqb_leb := Exact.exact_eqb_leb;
  f_leb_not_ltb := Exact.exact_leb_not_ltb
|}.

(** ** Python built-ins used by the program *)

(** [str(n)] for an [int], as the f-string [f'Impulse {wave_count}'] prints it. *)
Definition str (n : Z) : string := NilZero.string_of_int (Z.to_int n).

(** [chr(n)], for the code points [0 <= n < 256] where a Python character is
    one byte; the program only calls it with [65], [66] and [67]. *)
Definition chr (n : Z) : string := String (ascii_of_N (Z.to_N n)) EmptyString.

(** ** The wave data model *)

(** The strings ['impulse'] and ['corrective'] of the ['type'] key. *)
Inductive WaveType : Type := impulse | corrective.

(** The strings ['minor'], ['significant'] and ['major']: the values of the
    ['magnitude'] key and the keys of the [thresholds] dictionary. *)
Inductive Magnitude : Type := minor | significant | major.

(** The strings ['bullish'] and ['bearish'] of [price_trend]. *)
Inductive Trend : Type := bullish | bearish.

Definition WaveType_eqb (a b : WaveType) : bool :=
  match a, b with
  | impulse, impulse | corrective, corrective => true
  | _, _ => false
  end.

(** [current_wave_type != t], where [current_wave_type] may be [None]. *)
Definition differs (current : option WaveType) (t : WaveType) : bool :=
  match current with
  | Some c => negb (WaveType_eqb c t)
  | None => true
  end.

Section Engine.

Context {F : Type} `{FloatOps F}.

(** The dictionary [wave_details] built at each emitting iteration. *)
Record WaveDetails : Type := {
  type : WaveType;
  magnitude : Magnitude;
  start_index : Z;
  end_index : Z;
  percentage_change : F;
  label : string
}.

(** The dictionary [waves]: four lists, appended to in scan order. *)
Record Waves : Type := {
  impulse_waves : list WaveDetails;
  corrective_waves : list WaveDetails;
  wave_details : list WaveDetails;
  wave_labels : list string
}.

Definition thresholds (key : Magnitude) : F :=
  match key with
  | minor => lit 0.02
  | significant => lit 0.05
  | major => lit 0.10
  end.

(** The local variables of [identify_wave_pattern] that live across
    iterations of its loop. *)
Record Scan : Type := {
  waves : Waves;
  current_wave_type : option WaveType;
  wave_count : Z
}.

Definition initial : Scan := {|
  waves := {| impulse_waves := []; corrective_waves := [];
              wave_details := []; wave_labels := [] |};
  current_wave_type := None;
  wave_count := 0
|}.

(** One iteration of [for i in range(1, len(series))], with
    [change = series[i]]: the body of the loop, statement by statement. *)
Definition loop_body (st : Scan) (i : Z) (change : F) : Scan :=
  if (f_abs change >? thresholds minor)%fl then
    let wave_type :=
      if (change >? f_of_Z 0)%fl then impulse else corrective in
    let wave_magnitude := minor in
    let wave_magnitude :=
      if (f_abs change >? thresholds significant)%fl
      then significant else wave_magnitude in
    let wave_magnitude :=
      if (f_abs change >? thresholds major)%fl
      then major else wave_magnitude in
    let '(current, count, wave_label) :=
      match wave_type with
      | impulse =>
          let '(count, current) :=
            if differs (current_wave_type st) impulse
            then (1%Z, Some impulse)
            else ((wave_count st + 1)%Z, current_wave_type st) in
          (current, count,
           if (count <=? 5)%Z
           then ("Impulse " ++ str count)%string
           else "Impulse Ext"%string)
      | corrective =>
          let '(count, current) :=
            if differs (current_wave_type st) corrective
            then (1%Z, Some corrective)
            else ((wave_count st + 1)%Z, current_wave_type st) in
          (current, count,
           if (count <=? 3)%Z
           then ("Correction " ++ chr (64 + count))%string
           else "Correction Ext"%string)
      end in
    let details :=
      {| type := wave_type;
         magnitude := wave_magnitude;
         start_index := i - 1;
         end_index := i;
         percentage_change := (change * f_of_Z 100)%fl;
         label := wave_label |} in
    {| waves :=
         {| impulse_waves :=
              match wave_type with
              | impulse => impulse_waves (waves st) ++ [details]
              | corrective => impulse_waves (waves st)
              end;
            corrective_waves :=
              match wave_type with
              | impulse => corrective_waves (waves st)
              | corrective => corrective_waves (waves st) ++ [details]
              end;
            wave_details := wave_details (waves st) ++ [details];
            wave_labels := wave_labels (waves st) ++ [wave_label] |};
       current_wave_type := current;
       wave_count := count |}
  else st.

Fixpoint scan (st : Scan) (i : Z) (changes : list F) : Scan :=
  match changes with
  | [] => st
  | change :: rest => scan (loop_body st i change) (i + 1) rest
  end.

(** The loop starts at index 1: [series[0]] is never read. *)
Definition identify_wave_pattern (series : list F) : Waves :=
  waves (scan initial 1 (tl series)).

End Engine.

Arguments WaveDetails F : clear implicits.
Arguments Waves F : clear implicits.
Arguments Scan F : clear implicits.

(** ** pandas column operations used by the program *)

Section Columns.

Context {F : Type} `{FloatOps F}.

(** [s.shift(1)]: every value moves one row down, the first row is NaN. *)
Definition shift1 (s : list F) : list F :=
  match s with
  | [] => []
  | _ :: _ => f_nan :: removelast s
  end.

(** The rows a window of size [window] ending at row [i] covers. *)
Definition window_at (window i : nat) (s : list F) : list F :=
  firstn (i + 1 - (i + 1 - window)) (skipn (i + 1 - window) s).

(** What pandas does to a column before any rolling aggregation
    ([_prep_values]: "Convert inf to nan for C funcs"): the infinite values
    count as missing. *)
Definition prep_values (s : list F) : list F :=
  map (fun x => if f_is_inf x then f_nan else x) s.

(** [s.rolling(window, min_periods).max()] and [.min()]: at each row the
    aggregate of the observations (the values of the window that are
    neither NaN nor infinite), and NaN where the window holds fewer than
    [min_periods] of them. *)
Definition rolling (window min_periods : nat) (agg : list F -> F)
    (s : list F) : list F :=
  let values := prep_values s in
  map (fun i =>
         let obs :=
           filter (fun x => negb (f_is_nan x)) (window_at window i values) in
         if (List.length obs <? min_periods)%nat then f_nan else agg obs)
      (seq 0 (List.length s)).

(** One step of the maximum and of the minimum over the observations of a
    window, oldest first: pandas keeps the candidates in a queue and a new
    value displaces the ones it is not below ([ai >= values[Q.back()]]) or
    not above, so among equal values (the two zeros) the latest is
    returned. *)
Definition fmax (a b : F) : F := if (a <=? b)%fl then b else a.
Definition fmin (a b : F) : F := if (b <=? a)%fl then b else a.

Definition agg_max (obs : list F) : F :=
  match obs with
  | [] => f_nan
  | x :: rest => fold_left fmax rest x
  end.

Definition agg_min (obs : list F) : F :=
  match obs with
  | [] => f_nan
  | x :: rest => fold_left fmin rest x
  end.

(** *** [s.rolling(window).mean()]

    pandas' [roll_mean] does not sum each window afresh: it keeps a running
    sum across the rows, adding the value that enters the window and
    removing the one that leaves it, each with its own Kahan
    compensation. *)

(** The variables of [roll_mean] that live across its rows. *)
Record Mean : Type := {
  nobs : nat;
  sum_x : F;
  neg_ct : nat;
  compensation_add : F;
  compensation_remove : F;
  num_consecutive_same_value : nat;
  prev_value : F
}.

(** The setup of the first row, before its values are added. *)
Definition setup (first : F) : Mean :=
  {| nobs := 0; sum_x := f_of_Z 0; neg_ct := 0;
     compensation_add := f_of_Z 0; compensation_remove := f_of_Z 0;
     num_consecutive_same_value := 0; prev_value := first |}.

(** [add_mean]: a NaN ([val != val]) is passed over. *)
Definition add_mean (val : F) (st : Mean) : Mean :=
  if (val =? val)%fl then
    let y := (val - compensation_add st)%fl in
    let t := (sum_x st + y)%fl in
    {| nobs := nobs st + 1;
       sum_x := t;
       neg_ct := if f_signbit val then neg_ct st + 1 else neg_ct st;
       compensation_add := (t - sum_x st - y)%fl;
       compensation_remove := compensation_remove st;
       num_consecutive_same_value :=
         if (val =? prev_value st)%fl
         then num_consecutive_same_value st + 1 else 1;
       prev_value := val |}
  else st.

(** [remove_mean] *)
Definition remove_mean (val : F) (st : Mean) : Mean :=
  if (val =? val)%fl then
    let y := (- val - compensation_remove st)%fl in
    let t := (sum_x st + y)%fl in
    {| nobs := nobs st - 1;
       sum_x := t;
       neg_ct := if f_signbit val then neg_ct st - 1 else neg_ct st;
       compensation_add := compensation_add st;
       compensation_remove := (t - sum_x st - y)%fl;
       num_consecutive_same_value := num_consecutive_same_value st;
       prev_value := prev_value st |}
  else st.

(** [calc_mean] *)
Definition calc_mean (minp : nat) (st : Mean) : F :=
  if (minp <=? nobs st)%nat && (0 <? nobs st)%nat then
    let result := (sum_x st / f_of_Z (Z.of_nat (nobs st)))%fl in
    if (nobs st <=? num_consecutive_same_value st)%nat then prev_value st
    else if (neg_ct st =? 0)%nat && (result <? f_of_Z 0)%fl then f_of_Z 0
    else if (neg_ct st =? nobs st)%nat && (result >? f_of_Z 0)%fl
         then f_of_Z 0
    else result
  else f_nan.

(** The rows of [roll_mean], for the bounds of a fixed window:
    [start[i] = max(0, i + 1 - window)] and [end[i] = i + 1]. *)
Fixpoint roll_mean_rows (window minp : nat) (values : list F)
    (rows : list nat) (st : Mean) : list F :=
  match rows with
  | [] => []
  | i :: rest =>
      let s := i + 1 - window in
      let e := i + 1 in
      let s_prev := i - window in
      let e_prev := i in
      let st :=
        if (i =? 0)%nat || (e_prev <=? s)%nat then
          fold_left (fun st j => add_mean (nth j values f_nan) st)
                    (seq s (e - s)) (setup (nth s values f_nan))
        else
          let st :=
            fold_left (fun st j => remove_mean (nth j values f_nan) st)
                      (seq s_prev (s - s_prev)) st in
          fold_left (fun st j => add_mean (nth j values f_nan) st)
                    (seq e_prev (e - e_prev)) st in
      calc_mean minp st :: roll_mean_rows window minp values rest st
  end.

(** [s.rolling(window).mean()]; [min_periods] is the size of the window. *)
Definition roll_mean (window : nat) (s : list F) : list F :=
  let values := prep_values s in
  roll_mean_rows window window values (seq 0 (List.length s)) (setup f_nan).

(** [s.diff()]: the difference with the previous row, NaN on the first. *)
Definition diff (s : list F) : list F :=
  map (fun p => (fst p - snd p)%fl) (combine s (shift1 s)).

(** [s.pct_change()]: [s / s.shift(1) - 1] (on a column without NaN, where
    the forward fill pandas applies first changes nothing). *)
Definition pct_change_of (s : list F) : list F :=
  map (fun p => (fst p / snd p - f_of_Z 1)%fl) (combine s (shift1 s)).

(** [s.where(cond, 0)]: the value where [cond] holds, [0] elsewhere. *)
Definition where_ (cond : F -> bool) (s : list F) : list F :=
  map (fun x => if cond x then x else f_of_Z 0) s.

End Columns.

Arguments Mean F : clear implicits.

(** ** [get_crypto_candles]: the candle frame *)

(** The exceptions raised inside the function: its own, by the [raise]
    that builds them, and pandas' [OutOfBoundsDatetime], which
    [pd.to_datetime] raises.  Each is raised inside the [try] whose handler
    catches [Exception] and raises [CryptoAnalysisError] again, with the
    first message appended to "Error fetching data for ...". *)
Inductive CryptoAnalysisError : Type :=
| Unable_to_fetch_data
| Insufficient_data_points
| Insufficient_processed_data_points
| Out_of_bounds_datetime
| Error_fetching_data (e : CryptoAnalysisError).

(** The errors the data model calls InsufficientData: one of the two
    "Insufficient ..." messages, as the handler re-raises it. *)
Definition InsufficientData (e : CryptoAnalysisError) : Prop :=
  e = Error_fetching_data Insufficient_data_points \/
  e = Error_fetching_data Insufficient_processed_data_points.

Section Candles.

Context {F : Type} `{FloatOps F}.

(** A row of the frame returned by [get_crypto_candles]. *)
Record Candle : Type := {
  timestamp : Z;
  close : F;
  open : F;
  high : F;
  low : F
}.

(** The frame after the columns [open], [high] and [low] are added to the
    [(timestamp, close)] pairs of [data['prices']]. *)
Definition with_columns (prices : list (Z * F)) : list Candle :=
  let closes := map snd prices in
  let opens := shift1 closes in
  let highs := rolling 4 1 agg_max closes in
  let lows := rolling 4 1 agg_min closes in
  map (fun r =>
         match r with
         | (((p, o), h), l) =>
             {| timestamp := fst p; close := snd p;
                open := o; high := h; low := l |}
         end)
      (combine (combine (combine prices opens) highs) lows).

(** The timestamps of [data['prices']] are integers, the milliseconds
    since the epoch, read into an [int64] column; a timestamp beyond
    [int64] is outside this model.  A datetime is given here by its
    milliseconds, and the missing datetime [NaT] by the least [int64], as
    pandas has it. *)
Definition NaT : Z := (-9223372036854775808)%Z.

(** The milliseconds that fit in the nanoseconds of a [datetime64[ns]]. *)
Definition in_bounds (ms : Z) : bool :=
  (ms =? NaT)%Z ||
  ((-9223372036854 <=? ms)%Z && (ms <=? 9223372036854)%Z).

(** [pd.to_datetime(column, unit='ms')]: [None] stands for the
    [OutOfBoundsDatetime] it raises. *)
Definition to_datetime (column : list Z) : option (list Z) :=
  if forallb in_bounds column then Some column else None.

Definition has_nan (r : Candle) : bool :=
  (timestamp r =? NaT)%Z ||
  f_is_nan (close r) || f_is_nan (open r) ||
  f_is_nan (high r) || f_is_nan (low r).

(** [df.dropna()]: the rows without a missing value. *)
Definition dropna (df : list Candle) : list Candle :=
  filter (fun r => negb (has_nan r)) df.

(** The body of the [try] block from the point where [data['prices']] is
    known ([prices] here), under the [except Exception] handler. *)
Definition get_crypto_candles (prices : list (Z * F))
  : CryptoAnalysisError + list Candle :=
  let attempt : CryptoAnalysisError + list Candle :=
    if (List.length prices =? 0)%nat then inl Unable_to_fetch_data
    else if (List.length prices <? 2)%nat then inl Insufficient_data_points
    else
      match to_datetime (map fst prices) with
      | None => inl Out_of_bounds_datetime
      | Some timestamps =>
          let df :=
            dropna (with_columns (combine timestamps (map snd prices))) in
          if (List.length df <? 2)%nat
          then inl Insufficient_processed_data_points
          else inr df
      end in
  match attempt with
  | inl e => inl (Error_fetching_data e)
  | inr df => inr df
  end.

End Candles.

Arguments Candle F : clear implicits.

(** ** [detect_elliot_waves]: the indicator columns and the scan *)

Section Indicators.

Context {F : Type} `{FloatOps F}.

(** [gain]: the rolling mean of the positive part of [delta]. *)
Definition gain_of (closes : list F) : list F :=
  let delta := diff closes in
  roll_mean 14 (where_ (fun d => (d >? f_of_Z 0)%fl) delta).

(** [loss]: the rolling mean of the negated negative part of [delta]. *)
Definition loss_of (closes : list F) : list F :=
  let delta := diff closes in
  roll_mean 14 (map f_opp (where_ (fun d => (d <? f_of_Z 0)%fl) delta)).

(** [100 - (100 / (1 + rs))] *)
Definition rsi_formula (rs : F) : F :=
  (f_of_Z 100 - f_of_Z 100 / (f_of_Z 1 + rs))%fl.

(** The column [df['rsi']]. *)
Definition rsi_of (closes : list F) : list F :=
  let gain := gain_of closes in
  let loss := loss_of closes in
  let rs := map (fun p => (fst p / snd p)%fl) (combine gain loss) in
  map rsi_formula rs.

(** A row of the frame once [detect_elliot_waves] has added its columns. *)
Record IndicatorRow : Type := {
  candle : Candle F;
  price_change : F;
  pct_change : F;
  rsi : F
}.

Definition indicator_rows (df : list (Candle F)) : list IndicatorRow :=
  let closes := map (@close F) df in
  map (fun r =>
         match r with
         | (((c, d), p), x) =>
             {| candle := c; price_change := d; pct_change := p; rsi := x |}
         end)
      (combine (combine (combine df (diff closes)) (pct_change_of closes))
               (rsi_of closes)).

(** The waves and the extended frame the function returns.  The figure it
    draws between the scan and the [return] is the matter of [highlights]
    and of the canvas of [analyse]. *)
Definition detect_elliot_waves (df : list (Candle F))
  : Waves F * list IndicatorRow :=
  let rows := indicator_rows df in
  (identify_wave_pattern (map pct_change rows), rows).

End Indicators.

Arguments IndicatorRow F : clear implicits.

(** ** [interpret_elliot_waves]: trend and recommendation *)

Section Interpretation.

Context {F : Type} `{FloatOps F}.

(** ['bullish' if impulse_waves and impulse_waves[-1]['type'] == 'impulse'
    else 'bearish'] *)
Definition price_trend_of (impulse_waves : list (WaveDetails F)) : Trend :=
  match impulse_waves with
  | [] => bearish
  | first :: _ =>
      if WaveType_eqb (type (last impulse_waves first)) impulse
      then bullish else bearish
  end.

Definition Trend_eqb (a b : Trend) : bool :=
  match a, b with
  | bullish, bullish | bearish, bearish => true
  | _, _ => false
  end.

(** The nested function; the lists and the trend it reads from the
    enclosing scope are its parameters here. *)
Definition get_investment_recommendation
    (impulse_waves corrective_waves : list (WaveDetails F))
    (price_trend : Trend) : string * string :=
  if (List.length corrective_waves <? List.length impulse_waves)%nat
     && Trend_eqb price_trend bullish then
    ("STRONG BUY"%string,
     "The current wave pattern suggests a strong upward momentum."%string)
  else if (List.length corrective_waves <? List.length impulse_waves)%nat then
    ("MODERATE BUY"%string,
     "The wave pattern indicates potential growth."%string)
  else if (List.length impulse_waves <? List.length corrective_waves)%nat then
    ("HOLD/CAUTION"%string,
     "The market shows more corrective patterns, suggesting potential volatility."%string)
  else
    ("NEUTRAL"%string,
     "The wave patterns are relatively balanced."%string).

(** What the explanation text is built from. *)
Record Interpretation : Type := {
  total_waves : nat;
  impulse_waves_count : nat;
  corrective_waves_count : nat;
  dominant_trend : Trend;
  current_price : F;
  recommendation : string;
  reason : string
}.

(** [None] stands for the [IndexError] of [df['close'].iloc[-1]] on a frame
    without rows.  The formatting of the explanation text is not
    modelled: the record holds the values it prints. *)
Definition interpret_elliot_waves (waves : Waves F)
    (df : list (IndicatorRow F)) : option Interpretation :=
  match df with
  | [] => None
  | first :: _ =>
      let price_trend := price_trend_of (impulse_waves waves) in
      let rec_ :=
        get_investment_recommendation
          (impulse_waves waves) (corrective_waves waves) price_trend in
      Some {| total_waves := List.length (wave_details waves);
              impulse_waves_count := List.length (impulse_waves waves);
              corrective_waves_count := List.length (corrective_waves waves);
              dominant_trend := price_trend;
              current_price := close (candle (last df first));
              recommendation := fst rec_;
              reason := snd rec_ |}
  end.

End Interpretation.

Arguments Interpretation F : clear implicits.

(** ** The highlights drawn by [detect_elliot_waves] *)

Section Highlights.

Context {F : Type} `{FloatOps F}.

(** [column.iloc[index]] on a column of [len(l)] rows: a negative position
    counts from the end, and [None] stands for the [IndexError] of a
    position outside the column. *)
Definition iloc {A : Type} (l : list A) (index : Z) : option A :=
  let n := Z.of_nat (List.length l) in
  if (0 <=? index)%Z then nth_error l (Z.to_nat index)
  else if (- n <=? index)%Z then nth_error l (Z.to_nat (n + index))
  else None.

(** What one iteration of the loop "Highlight waves" hands to [plt.axvspan]
    and [plt.text]. *)
Record Highlight : Type := {
  span_from : Z;
  span_to : Z;
  color : string;
  alpha : F;
  text_x : Z;
  text_y : F;
  text : string
}.

(** One iteration of [for wave in waves['wave_details']]; the frame [df]
    is the one the indicator columns were added to. *)
Definition highlight (df : list (IndicatorRow F)) (wave : WaveDetails F)
  : option Highlight :=
  let len_df := Z.of_nat (List.length df) in
  let start_row := Z.max 0 (Z.min (start_index wave) (len_df - 1)) in
  let end_row := Z.max 0 (Z.min (end_index wave) (len_df - 1)) in
  let color :=
    match type wave with
    | impulse => "green"%string
    | corrective => "red"%string
    end in
  let alpha :=
    match magnitude wave with
    | minor => lit 0.1
    | significant => lit 0.3
    | major => lit 0.5
    end in
  match iloc df start_row, iloc df end_row with
  | Some first_row, Some last_row =>
      let mid_row := ((start_row + end_row) / 2)%Z in
      match iloc df mid_row with
      | Some row =>
          Some {| span_from := timestamp (candle first_row);
                  span_to := timestamp (candle last_row);
                  color := color;
                  alpha := alpha;
                  text_x := timestamp (candle row);
                  text_y := close (candle row);
                  text := label wave |}
      | None => None
      end
  | _, _ => None
  end.

(** The whole loop: the first [IndexError] ends it. *)
Fixpoint highlights (df : list (IndicatorRow F))
    (wave_details : list (WaveDetails F)) : option (list Highlight) :=
  match wave_details with
  | [] => Some []
  | wave :: rest =>
      match highlight df wave with
      | Some h =>
          match highlights df rest with
          | Some hs => Some (h :: hs)
          | None => None
          end
      | None => None
      end
  end.

End Highlights.

Arguments Highlight F : clear implicits.

(** ** The analysis of one price history *)

Section Analysis.

Context {F : Type} `{FloatOps F}.

(** The figure of [detect_elliot_waves]: the calls to matplotlib between
    the scan and the [return], from [plt.figure] to [plt.close].  What they
    draw is not modelled, only that they can fail: a canvas tells, for the
    frame and the highlights to draw, the exception that one of the calls
    raises, given by [str(e)], or [None] when the figure is drawn and
    saved. *)
Definition Canvas : Type :=
  list (IndicatorRow F) -> list (Highlight F) -> option string.

(** The exceptions that reach the handler [except Exception] of [main]. *)
Inductive Unexpected : Type :=
| IndexError
| Drawing (e : string).

(** What a pass of the loop of [main] prints: ["Error: ..."] for a
    [CryptoAnalysisError], ["Unexpected error occurred: ..."] for any other
    exception, the analysis otherwise. *)
Inductive Printed : Type :=
| Error (e : CryptoAnalysisError)
| Unexpected_error (e : Unexpected)
| Analysis (a : Interpretation F).

(** The three calls in the loop of [main], from the point where
    [data['prices']] is known.  The highlights are computed before the
    canvas is asked; their [.iloc] are the only other source of an exception
    in [detect_elliot_waves]. *)
Definition analyse (canvas : Canvas) (prices : list (Z * F)) : Printed :=
  match get_crypto_candles prices with
  | inl e => Error e
  | inr df =>
      let result := detect_elliot_waves df in
      match highlights (snd result) (wave_details (fst result)) with
      | None => Unexpected_error IndexError
      | Some drawn =>
          match canvas (snd result) drawn with
          | Some e => Unexpected_error (Drawing e)
          | None =>
              match interpret_elliot_waves (fst result) (snd result) with
              | None => Unexpected_error IndexError
              | Some analysis => Analysis analysis
              end
          end
      end
  end.

End Analysis.

Arguments Canvas F : clear implicits.
Arguments Printed F : clear implicits.

(** ** Retrieval: the requests of [get_crypto_candles] *)

Section Retrieval.

Context {F : Type} `{FloatOps F}.

(** What the function reads of a JSON reply: the list under ['prices'],
    when the key is there, and, under ['coins'], the ['id'] of each
    entry. *)
Record Data : Type := {
  data_prices : option (list (Z * F));
  data_coins : option (list string)
}.

(** [requests.get(url).json()]: it raises an exception [e], given by
    [str(e)], or returns the reply. *)
Inductive Response : Type :=
| raises (e : string)
| json (data : Data).

(** The network: the reply to a request, given the requests made before
    it. *)
Definition Network : Type := list string -> string -> Response.

Definition coin_mapping : list (string * string) :=
  [("velodrome", "velodrome-finance");
   ("velo", "velodrome-finance");
   ("velero", "velodrome-finance")]%string.

(** [d.get(key, default)] *)
Fixpoint dict_get (d : list (string * string)) (key default : string)
  : string :=
  match d with
  | [] => default
  | (k, v) :: d' =>
      if String.eqb k key then v else dict_get d' key default
  end.

Definition market_chart_url (coin base_currency : string) (days : Z)
  : string :=
  ("https://api.coingecko.com/api/v3/coins/" ++ coin ++
   "/market_chart?vs_currency=" ++ base_currency ++
   "&days=" ++ str days)%string.

Definition search_url (original_coin : string) : string :=
  ("https://api.coingecko.com/api/v3/search?query=" ++ original_coin)%string.

(** ['prices' not in data or len(data['prices']) == 0] *)
Definition no_prices (data : Data) : bool :=
  match data_prices data with
  | None => true
  | Some l => (List.length l =? 0)%nat
  end.

(** [data['prices']] as the rest of the [try] block reads it: no price
    when the key is missing, which the check before it reports like an
    empty list. *)
Definition prices_of (data : Data) : list (Z * F) :=
  match data_prices data with Some l => l | None => [] end.

(** The message of the handler's exception, around [str(e)]. *)
Definition error_fetching (original_coin e : string) : string :=
  ("Error fetching data for " ++ original_coin ++ ": " ++ e)%string.

(** [str(e)] of the [OutOfBoundsDatetime] that [pd.to_datetime] raises:
    pandas' own wording, which its versions do not share. *)
Variable out_of_bounds_text : string.

(** [str(e)] for the exceptions of the function. *)
Fixpoint message (original_coin : string) (e : CryptoAnalysisError)
  : string :=
  match e with
  | Unable_to_fetch_data =>
      ("Unable to fetch data for " ++ original_coin ++
       ". Check the cryptocurrency name.")%string
  | Insufficient_data_points =>
      ("Insufficient data points for " ++ original_coin ++
       ". Need at least 2 data points.")%string
  | Insufficient_processed_data_points =>
      ("Insufficient processed data points for " ++ original_coin ++
       ".")%string
  | Out_of_bounds_datetime => out_of_bounds_text
  | Error_fetching_data e' =>
      error_fetching original_coin (message original_coin e')
  end.

(** The function from its first line: the requests it makes, in order, and
    the frame it returns or the message of the [CryptoAnalysisError] it
    raises.  After the requests, [data] holds the reply that counts and the
    rest of the [try] block is [get_crypto_candles] on its prices (none when
    the key is missing or the list is empty). *)
Definition get_crypto_candles_from (network : Network)
    (coin base_currency : string) (days : Z)
  : (string + list (Candle F)) * list string :=
  let original_coin := coin in
  let coin := dict_get coin_mapping coin coin in
  let url := market_chart_url coin base_currency days in
  let rest (data : Data) (requests : list string) :=
    match get_crypto_candles (prices_of data) with
    | inl e => (inl (message original_coin e), requests)
    | inr df => (inr df, requests)
    end in
  match network [] url with
  | raises e => (inl (error_fetching original_coin e), [url])
  | json data =>
      if no_prices data then
        let search_url := search_url original_coin in
        match network [url] search_url with
        | raises e =>
            (inl (error_fetching original_coin e), [url; search_url])
        | json search_data =>
            match data_coins search_data with
            | Some (id :: _) =>
                let retry := market_chart_url id base_currency days in
                match network [url; search_url] retry with
                | raises e =>
                    (inl (error_fetching original_coin e),
                     [url; search_url; retry])
                | json data => rest data [url; search_url; retry]
                end
            | _ => rest data [url; search_url]
            end
        end
      else rest data [url]
  end.

End Retrieval.

Arguments Data F : clear implicits.
Arguments Response F : clear implicits.
Arguments Network F : clear implicits.

(** * Vocabulary of the statements *)

(** The order of the tiers: Minor below Significant below Major. *)
Definition tier_rank (m : Magnitude) : nat :=
  match m with
  | minor => 0
  | significant => 1
  | major => 2
  end.

(** The label of the [k]-th wave of a run of same-type waves, as the
    specification lists them: "Impulse 1" to "Impulse 5" and then
    "Impulse Ext"; "Correction A" to "Correction C" and then
    "Correction Ext". *)
Definition run_label (t : WaveType) (k : nat) : string :=
  match t, k with
  | impulse, 1 => "Impulse 1"
  | impulse, 2 => "Impulse 2"
  | impulse, 3 => "Impulse 3"
  | impulse, 4 => "Impulse 4"
  | impulse, 5 => "Impulse 5"
  | impulse, _ => "Impulse Ext"
  | corrective, 1 => "Correction A"
  | corrective, 2 => "Correction B"
  | corrective, 3 => "Correction C"
  | corrective, _ => "Correction Ext"
  end.

(** *** The parts of an emitting iteration *)

Section Iteration.

Context {F : Type} `{FloatOps F}.

(** [wave_type = 'impulse' if change > 0 else 'corrective'] *)
Definition wave_type_of (change : F) : WaveType :=
  if (change >? f_of_Z 0)%fl then impulse else corrective.

(** The two sequential, independent upgrades of [wave_magnitude]. *)
Definition wave_magnitude_of (change : F) : Magnitude :=
  let wave_magnitude := minor in
  let wave_magnitude :=
    if (f_abs change >? thresholds significant)%fl
    then significant else wave_magnitude in
  let wave_magnitude :=
    if (f_abs change >? thresholds major)%fl
    then major else wave_magnitude in
  wave_magnitude.

(** The counter update of either branch: reset on a change of type,
    increment otherwise. *)
Definition next_count (st : Scan F) (wave_type : WaveType) : Z :=
  if differs (current_wave_type st) wave_type
  then 1
  else (wave_count st + 1)%Z.

(** The label of either branch, from the type and the updated counter. *)
Definition wave_label_of (wave_type : WaveType) (wave_count : Z) : string :=
  match wave_type with
  | impulse =>
      if (wave_count <=? 5)%Z
      then ("Impulse " ++ str wave_count)%string
      else "Impulse Ext"%string
  | corrective =>
      if (wave_count <=? 3)%Z
      then ("Correction " ++ chr (64 + wave_count))%string
      else "Correction Ext"%string
  end.

(** The appends at the end of an emitting iteration. *)
Definition record_wave (w : Waves F) (d : WaveDetails F) : Waves F := {|
  impulse_waves :=
    match type d with
    | impulse => impulse_waves w ++ [d]
    | corrective => impulse_waves w
    end;
  corrective_waves :=
    match type d with
    | impulse => corrective_waves w
    | corrective => corrective_waves w ++ [d]
    end;
  wave_details := wave_details w ++ [d];
  wave_labels := wave_labels w ++ [label d]
|}.

(** The segment an iteration builds when [abs(change)] exceeds the minor
    threshold. *)
Definition segment (st : Scan F) (i : Z) (change : F) : WaveDetails F :=
  let wave_type := wave_type_of change in
  {| type := wave_type;
     magnitude := wave_magnitude_of change;
     start_index := i - 1;
     end_index := i;
     percentage_change := (change * f_of_Z 100)%fl;
     label := wave_label_of wave_type (next_count st wave_type) |}.

End Iteration.

(** [abs(change) > thresholds['minor']]: the iteration emits a segment. *)
Definition emits {F} `{FloatOps F} (change : F) : bool :=
  (f_abs change >? thresholds minor)%fl.

(** [abs(change) <= thresholds['minor']]: the point is below the threshold. *)
Definition below_minor {F} `{FloatOps F} (change : F) : Prop :=
  (f_abs change <=? thresholds minor)%fl = true.

Section Vocabulary.

Context {F : Type} `{FloatOps F}.

(** A run: every point that emits a segment emits one of type [t]. *)
Definition run_of (t : WaveType) (run : list F) : Prop :=
  Forall (fun x => emits x = true -> wave_type_of x = t) run.

(** Every element of the impulse list is an impulse wave. *)
Definition impulse_only (w : Waves F) : Prop :=
  Forall (fun d => type d = impulse) (impulse_waves w).

(** The values that are numbers. *)
Definition not_nan (x : F) : bool := negb (f_is_nan x).

(** A price point with a datetime and a close that is not infinite. *)
Definition plain (q : Z * F) : bool :=
  negb (fst q =? NaT)%Z && negb (f_is_inf (snd q)).

(** A price point with a datetime and a finite close. *)
Definition numeric (q : Z * F) : bool :=
  plain q && negb (f_is_nan (snd q)).

(** The pairs of an open and a close that are both numbers. *)
Definition both_numbers (oc : F * F) : bool :=
  not_nan (fst oc) && not_nan (snd oc).

(** The rows of the frame below the first one. *)
Definition later_rows (p : Z * F) (ps : list (Z * F)) : list (Candle F) :=
  let closes := map snd (p :: ps) in
  map (fun r =>
         match r with
         | (((q, o), h), l) =>
             {| timestamp := fst q; close := snd q;
                open := o; high := h; low := l |}
         end)
      (combine
         (combine (combine ps (removelast closes))
                  (tl (rolling 4 1 agg_max closes)))
         (tl (rolling 4 1 agg_min closes))).

End Vocabulary.

(** The values from [0] to [+infinity]. *)
Definition nonneg (x : Exact.num) : Prop :=
  match x with
  | Exact.Inf false => True
  | Exact.Fin q => (0 <= q)%Q
  | _ => False
  end.

(** ** Vocabulary of the statements about whole scans *)

Section ScanVocabulary.

Context {F : Type} `{FloatOps F}.

(** The values of a column paired with their positions, from position [i]. *)
Fixpoint indexed (i : Z) (l : list F) : list (Z * F) :=
  match l with
  | [] => []
  | c :: rest => (i, c) :: indexed (i + 1) rest
  end.

(** A wave without its label. *)
Definition unlabelled (d : WaveDetails F)
  : WaveType * Magnitude * Z * Z * F :=
  (type d, magnitude d, start_index d, end_index d, percentage_change d).

(** The wave, without its label, that the change [snd p] at position
    [fst p] stands for. *)
Definition wave_at (p : Z * F) : WaveType * Magnitude * Z * Z * F :=
  (wave_type_of (snd p), wave_magnitude_of (snd p),
   (fst p - 1)%Z, fst p, (snd p * f_of_Z 100)%fl).

Definition has_type (t : WaveType) (d : WaveDetails F) : bool :=
  WaveType_eqb (type d) t.

(** The labels a wave of a given type can carry. *)
Definition labels_of (t : WaveType) : list string :=
  match t with
  | impulse =>
      ["Impulse 1"; "Impulse 2"; "Impulse 3"; "Impulse 4"; "Impulse 5";
       "Impulse Ext"]%string
  | corrective =>
      ["Correction A"; "Correction B"; "Correction C";
       "Correction Ext"]%string
  end.

End ScanVocabulary.

(** The position of each wave within its run of same-type waves, read off
    the sequence of wave types alone: [prev] is the type before the
    sequence and [k] the position reached in its run. *)
Fixpoint run_positions (prev : option WaveType) (k : nat)
    (types : list WaveType) : list (WaveType * nat) :=
  match types with
  | [] => []
  | t :: rest =>
      let k' := if differs prev t then 1 else S k in
      (t, k') :: run_positions (Some t) k' rest
  end.

(** ** The order of the floats *)

(** What the statements about maxima and minima need of [<] and [<=]: [<]
    is a strict order, of two numbers the one that is not below the other
    is at least as large, and [<=] is transitive. *)
Class FloatOrder (F : Type) `{FloatOps F} : Prop := {
  f_ltb_irrefl : forall x : F, f_ltb x x = false;
  f_ltb_trans : forall x y z : F,
    f_ltb x y = true -> f_ltb y z = true -> f_ltb x z = true;
  f_leb_total : forall x y : F,
    f_is_nan x = false -> f_is_nan y = false ->
    f_ltb y x = false -> f_leb x y = true;
  f_leb_trans : forall x y z : F,
    f_leb x y = true -> f_leb y z = true -> f_leb x z = true
}.

Arguments FloatOrder F {_}.

(** ** Sample data, on binary64 *)

#[local] Set Warnings "-inexact-float".

(** Five daily closes, as [data['prices']] holds them. *)
Definition five_prices : list (Z * float) :=
  [(0%Z, 100%float); (86400000%Z, 102%float); (172800000%Z, 108%float);
   (259200000%Z, 99%float); (345600000%Z, 95%float)].

(** Sixteen daily closes, each one unit above the one before. *)
Definition rising_prices : list (Z * float) :=
  map (fun n => ((Z.of_nat n * 86400000)%Z,
                 Binary64.of_Z (Z.of_nat (100 + n))))
      (seq 0 16).

(** The candle frame of [five_prices]. *)
Definition five_candles : list (Candle float) :=
  dropna (with_columns five_prices).

(** A column of changes: an impulse wave followed by two corrective ones. *)
Definition three_waves : list float :=
  [nan; 0.0588; -0.0833; -0.0404]%float.

(** The candle frame of [rising_prices]. *)
Definition rising_candles : list (Candle float) :=
  dropna (with_columns rising_prices).

(** Sixteen daily closes, each one unit below the one before. *)
Definition falling_prices : list (Z * float) :=
  map (fun n => ((Z.of_nat n * 86400000)%Z,
                 Binary64.of_Z (Z.of_nat (200 - n))))
      (seq 0 16).

(** The candle frame of [falling_prices]. *)
Definition falling_candles : list (Candle float) :=
  dropna (with_columns falling_prices).

(** Six daily closes, the third of them missing. *)
Definition gapped_prices : list (Z * float) :=
  [(0%Z, 100%float); (86400000%Z, 102%float); (172800000%Z, nan);
   (259200000%Z, 99%float); (345600000%Z, 95%float);
   (432000000%Z, 97%float)].

(** Nineteen daily closes: three falls over many orders of magnitude, then
    the closes 3, 2 and 4 five times over. *)
Definition wide_prices : list (Z * float) :=
  map (fun p => ((Z.of_nat (fst p) * 86400000)%Z, snd p))
      (combine (seq 0 19)
               ([1e50; 1e50; 1e20; 1e6; 3; 2; 4; 3; 2; 4; 3; 2; 4; 3; 2; 4;
                 3; 2; 4]%float)).

(** Four daily closes, the second of them zero. *)
Definition zero_prices : list (Z * float) :=
  [(0%Z, 5%float); (86400000%Z, 0%float); (172800000%Z, 3%float);
   (259200000%Z, 4%float)].

(** The candle frame of [zero_prices]. *)
Definition zero_candles : list (Candle float) :=
  dropna (with_columns zero_prices).

(** * Properties *)

(** ** The scan of [identify_wave_pattern] *)

Section ScanFacts.

Context {F : Type} `{FloatOps F}.

Lemma differs_false (cur : option WaveType) (t : WaveType) :
  differs cur t = false <-> cur = Some t.
Proof.
  destruct cur as [[ | ]|], t; simpl; split;
    congruence || discriminate || reflexivity.
Qed.

Lemma differs_true (cur : option WaveType) (t : WaveType) :
  differs cur t = true <-> cur <> Some t.
Proof.
  destruct cur as [[ | ]|], t; simpl; split;
    congruence || discriminate || reflexivity.
Qed.

(** An emitting iteration appends [segment] and moves the counter to
    [next_count]. *)
Lemma loop_body_emits (st : Scan F) (i : Z) (c : F) :
  emits c = true ->
  loop_body st i c =
    {| waves := record_wave (waves st) (segment st i c);
       current_wave_type := Some (wave_type_of c);
       wave_count := next_count st (wave_type_of c) |}.
Proof.
  unfold emits, loop_body. intros ->.
  unfold segment, record_wave, next_count, wave_label_of, wave_type_of,
    wave_magnitude_of.
  destruct (f_ltb (f_of_Z 0) c);
    destruct (differs (current_wave_type st) _) eqn:Ed; cbn;
    try reflexivity;
    apply differs_false in Ed; rewrite Ed; reflexivity.
Qed.

Lemma loop_body_skips (st : Scan F) (i : Z) (c : F) :
  emits c = false -> loop_body st i c = st.
Proof. unfold emits, loop_body. intros ->. reflexivity. Qed.

Lemma below_minor_skips (c : F) : below_minor c -> emits c = false.
Proof. unfold below_minor, emits. apply f_leb_not_ltb. Qed.

Lemma scan_app (st : Scan F) (i : Z) (l1 l2 : list F) :
  scan st i (l1 ++ l2) =
    scan (scan st i l1) (i + Z.of_nat (List.length l1)) l2.
Proof.
  revert st i. induction l1 as [|c l1 IH]; intros st i.
  - simpl. now rewrite Z.add_0_r.
  - cbn [app scan List.length]. rewrite IH. f_equal. lia.
Qed.

Lemma scan_skips (st : Scan F) (i : Z) (l : list F) :
  Forall (fun c => emits c = false) l -> scan st i l = st.
Proof.
  intros Hl. revert i. induction Hl as [|c l Hc _ IH]; intros i.
  - reflexivity.
  - cbn [scan]. rewrite (loop_body_skips _ _ _ Hc). apply IH.
Qed.

(** The magnitude of an emitted segment, for any float arithmetic: its
    threshold is exceeded, no tier of a higher rank has its threshold
    exceeded, and a tier whose threshold [abs(c)] only equals, or stays
    below, is not the magnitude. *)
Lemma magnitude_highest (st : Scan F) (i : Z) (c : F) :
  (f_abs c >? thresholds minor)%fl = true ->
  let d := segment st i c in
  wave_details (waves (loop_body st i c)) = wave_details (waves st) ++ [d] /\
  (f_abs c >? thresholds (magnitude d))%fl = true /\
  (forall t, (f_abs c >? thresholds t)%fl = true ->
             (tier_rank t <= tier_rank (magnitude d))%nat) /\
  (forall t, (f_abs c =? thresholds t)%fl = true -> magnitude d <> t) /\
  (forall t, (f_abs c <=? thresholds t)%fl = true -> magnitude d <> t).
Proof.
  intros Hc d.
  assert (Hex : (f_abs c >? thresholds (magnitude d))%fl = true).
  { subst d. cbn [segment magnitude]. unfold wave_magnitude_of.
    destruct (f_ltb (thresholds major) (f_abs c)) eqn:E3; [exact E3|].
    destruct (f_ltb (thresholds significant) (f_abs c)) eqn:E2;
      [exact E2|exact Hc]. }
  assert (Hle : forall t, (f_abs c <=? thresholds t)%fl = true ->
                          magnitude d <> t).
  { intros t Ht E. rewrite E in Hex.
    rewrite (f_leb_not_ltb _ _ Ht) in Hex. discriminate. }
  repeat split.
  - rewrite (loop_body_emits st i c Hc). reflexivity.
  - exact Hex.
  - intros t Ht. subst d. cbn [segment magnitude]. unfold wave_magnitude_of.
    destruct t; cbn [tier_rank].
    + lia.
    + rewrite Ht.
      destruct (f_ltb (thresholds major) (f_abs c)); cbn [tier_rank]; lia.
    + rewrite Ht. cbn [tier_rank]. lia.
  - intros t Ht. apply Hle, f_eqb_leb, Ht.
  - exact Hle.
Qed.

(** C5. A scanned point whose change satisfies [abs(change) <= 0.02]
    emits no segment and leaves the scan state ([waves],
    [current_wave_type], [wave_count]) as it was; so does any number of
    such points in a row; the state changes only at an emitting point,
    where the counter is reset to 1 only if the type differs and otherwise
    grows by one, so a same-type run continues its counter across the
    skipped points. *)
Theorem skipped_point_keeps_state (st : Scan F) (i : Z) (c : F) :
  below_minor c ->
  loop_body st i c = st /\
  (forall (skipped : list F) (j : Z),
      Forall below_minor skipped -> scan st j skipped = st) /\
  (forall (skipped : list F) (j : Z) (c' : F),
      Forall below_minor skipped ->
      emits c' = true ->
      let st' := scan st j (skipped ++ [c']) in
      current_wave_type st' = Some (wave_type_of c') /\
      (current_wave_type st = Some (wave_type_of c') ->
       wave_count st' = (wave_count st + 1)%Z) /\
      (current_wave_type st <> Some (wave_type_of c') ->
       wave_count st' = 1%Z)) /\
  (forall (j : Z) (x : F),
      let st' := loop_body st j x in
      st' = st \/
      (emits x = true /\
       current_wave_type st = Some (wave_type_of x) /\
       wave_count st' = (wave_count st + 1)%Z) \/
      (emits x = true /\
       current_wave_type st <> Some (wave_type_of x) /\
       wave_count st' = 1%Z)).
Proof.
  intros Hc.
  assert (Hskip : forall l j, Forall below_minor l -> scan st j l = st).
  { intros l j Hl. apply scan_skips.
    eapply Forall_impl; [|exact Hl]. exact below_minor_skips. }
  split; [apply loop_body_skips, below_minor_skips, Hc|].
  split; [exact Hskip|].
  split.
  - intros skipped j c' Hs Hc' st'. subst st'.
    rewrite scan_app, (Hskip _ _ Hs). cbn [scan].
    rewrite (loop_body_emits _ _ _ Hc').
    cbn [current_wave_type wave_count]. unfold next_count.
    split; [reflexivity|]. split.
    + intros Hsame. apply differs_false in Hsame. now rewrite Hsame.
    + intros Hdiff. apply differs_true in Hdiff. now rewrite Hdiff.
  - intros j x st'. subst st'.
    destruct (emits x) eqn:Ex.
    + right. rewrite (loop_body_emits _ _ _ Ex). cbn [wave_count].
      unfold next_count.
      destruct (differs (current_wave_type st) (wave_type_of x)) eqn:Ed.
      * right. repeat split. now apply differs_true.
      * left. repeat split. now apply differs_false.
    + left. apply loop_body_skips, Ex.
Qed.

Lemma wave_label_of_run (t : WaveType) (k : nat) :
  1 <= k -> wave_label_of t (Z.of_nat k) = run_label t k.
Proof.
  intros Hk. destruct t.
  - do 6 (destruct k as [|k]; [try lia; try reflexivity|]).
    unfold wave_label_of.
    destruct (Z.leb_spec (Z.of_nat (S (S (S (S (S (S k))))))) 5); [lia|].
    reflexivity.
  - do 4 (destruct k as [|k]; [try lia; try reflexivity|]).
    unfold wave_label_of.
    destruct (Z.leb_spec (Z.of_nat (S (S (S (S k))))) 3); [lia|].
    reflexivity.
Qed.


Lemma scan_run (t : WaveType) (run : list F) :
  run_of t run ->
  forall (st : Scan F) (i : Z) (n : nat),
    current_wave_type st = Some t ->
    wave_count st = Z.of_nat n ->
    1 <= n ->
    let st' := scan st i run in
    let k := List.length (filter emits run) in
    wave_labels (waves st') =
      wave_labels (waves st) ++ map (run_label t) (seq (S n) k) /\
    wave_count st' = Z.of_nat (n + k) /\
    current_wave_type st' = Some t.
Proof.
  intros Hrun. induction Hrun as [|c run Hc _ IH]; intros st i n Hcur Hcnt Hn.
  - cbn. rewrite app_nil_r, Nat.add_0_r. auto.
  - cbn [scan filter]. destruct (emits c) eqn:Ec.
    + specialize (Hc eq_refl).
      assert (Hnext : next_count st t = Z.of_nat (S n)).
      { unfold next_count. apply differs_false in Hcur. rewrite Hcur. lia. }
      rewrite (loop_body_emits _ _ _ Ec), Hc.
      edestruct (IH {| waves := record_wave (waves st) (segment st i c);
                       current_wave_type := Some t;
                       wave_count := next_count st t |} (i + 1)%Z (S n))
        as (Hl & Hk & Ht); [reflexivity|exact Hnext|lia|].
      cbn zeta in Hl, Hk, Ht. rewrite Hl, Hk, Ht.
      cbn [waves wave_labels record_wave segment label List.length seq map].
      rewrite Hc, Hnext, (wave_label_of_run t (k:=S n)) by lia.
      rewrite <- app_assoc. cbn [app].
      repeat split. f_equal. lia.
    + rewrite (loop_body_skips _ _ _ Ec). apply IH; assumption.
Qed.

(** C4. When an emitted wave's type differs from [current_wave_type], the
    counter is reset to 1 and the wave gets the first label of its type;
    over the run that follows (waves of the same type, with any number of
    skipped points between them) the labels are, in order, "Impulse 1" to
    "Impulse 5" and then "Impulse Ext" for an impulse run, "Correction A"
    to "Correction C" and then "Correction Ext" for a corrective run,
    while the counter keeps counting every wave of the run. *)
Theorem run_labels (st : Scan F) (i : Z) (c : F) (run : list F)
    (t : WaveType) :
  emits c = true ->
  wave_type_of c = t ->
  current_wave_type st <> Some t ->
  run_of t run ->
  let st1 := loop_body st i c in
  let st2 := scan st1 (i + 1) run in
  let k := List.length (filter emits run) in
  wave_count st1 = 1%Z /\
  current_wave_type st1 = Some t /\
  label (segment st i c) = run_label t 1 /\
  wave_labels (waves st2) =
    wave_labels (waves st) ++ map (run_label t) (seq 1 (S k)) /\
  wave_count st2 = Z.of_nat (S k) /\
  current_wave_type st2 = Some t.
Proof.
  intros Hc Ht Hcur Hrun st1 st2 k.
  assert (Hnext : next_count st t = 1%Z).
  { unfold next_count. apply differs_true in Hcur. now rewrite Hcur. }
  assert (H1 : wave_count st1 = 1%Z /\ current_wave_type st1 = Some t /\
               wave_labels (waves st1) =
                 wave_labels (waves st) ++ [run_label t 1]).
  { subst st1. rewrite (loop_body_emits _ _ _ Hc), Ht.
    cbn [wave_count current_wave_type waves wave_labels record_wave
         segment label].
    rewrite Ht, Hnext. repeat split; try (destruct t; reflexivity). }
  destruct H1 as (Hcnt1 & Hcur1 & Hl1).
  destruct (scan_run Hrun st1 (i + 1)%Z (n:=1) Hcur1 Hcnt1 (le_n 1))
    as (Hl & Hk & Hcur2).
  cbn zeta in Hl, Hk, Hcur2. fold st2 in Hl, Hk, Hcur2. fold k in Hl, Hk.
  repeat split; try assumption.
  - cbn [segment label]. rewrite Ht, Hnext. destruct t; reflexivity.
  - rewrite Hl, Hl1, <- app_assoc. reflexivity.
Qed.

(** C9 (as the code has it). An emitted corrective wave whose run counter
    is at most 3 is labelled "Correction " followed by the letter
    [chr(64 + counter)]: "Correction A", "Correction B", "Correction C"
    for the counters 1, 2, 3.  The label is never the bare letter. *)
Theorem corrective_label_has_prefix (st : Scan F) (i : Z) (c : F) :
  emits c = true ->
  wave_type_of c = corrective ->
  (next_count st corrective <= 3)%Z ->
  let d := segment st i c in
  let n := next_count st corrective in
  wave_details (waves (loop_body st i c)) = wave_details (waves st) ++ [d] /\
  wave_count (loop_body st i c) = n /\
  type d = corrective /\
  label d = ("Correction " ++ chr (64 + n))%string /\
  (n = 1%Z -> label d = "Correction A"%string) /\
  (n = 2%Z -> label d = "Correction B"%string) /\
  (n = 3%Z -> label d = "Correction C"%string) /\
  label d <> chr (64 + n).
Proof.
  intros Hc Ht Hn d n.
  assert (Hlab : label d = ("Correction " ++ chr (64 + n))%string).
  { subst d n. cbn [segment label]. rewrite Ht. unfold wave_label_of.
    destruct (Z.leb_spec (next_count st corrective) 3); [reflexivity|lia]. }
  split; [rewrite (loop_body_emits _ _ _ Hc); reflexivity|].
  split; [rewrite (loop_body_emits _ _ _ Hc), Ht; reflexivity|].
  split; [subst d; cbn [segment type]; exact Ht|].
  split; [exact Hlab|].
  split; [intros E; rewrite Hlab, E; reflexivity|].
  split; [intros E; rewrite Hlab, E; reflexivity|].
  split; [intros E; rewrite Hlab, E; reflexivity|].
  rewrite Hlab. unfold chr. cbn [append]. discriminate.
Qed.

End ScanFacts.

(** *** The ties, on binary64 *)

Module Binary64Scan.

(** [x == y] for a finite non-zero [y] holds of [y] alone. *)
Lemma eqb_finite (x y : float) (s : bool) (m : positive) (e : Z) :
  Prim2SF y = S754_finite s m e ->
  PrimFloat.eqb x y = true -> x = y.
Proof.
  intros Ey. rewrite FloatAxioms.eqb_spec, Ey. intros E.
  apply Prim2SF_inj. rewrite Ey. unfold SFeqb in E.
  destruct (Prim2SF x) as [sx|sx| |sx mx ex]; cbn in E.
  - destruct s; discriminate.
  - destruct sx; discriminate.
  - discriminate.
  - destruct sx, s; try discriminate;
      destruct (ex ?= e)%Z eqn:Ez; try discriminate;
      destruct (Pos.compare_cont Eq mx m) eqn:Em; try discriminate;
      apply Z.compare_eq in Ez; apply Pos.compare_eq in Em;
      subst; reflexivity.
Qed.

(** The magnitudes at the two upper thresholds. *)
Lemma magnitude_at_threshold (st : Scan float) (i : Z) (c : float) :
  ((f_abs c =? thresholds significant)%fl = true ->
   emits c = true /\ magnitude (segment st i c) = minor) /\
  ((f_abs c =? thresholds major)%fl = true ->
   emits c = true /\ magnitude (segment st i c) = significant).
Proof.
  unfold emits. cbn [segment magnitude]. unfold wave_magnitude_of. split.
  - intros E.
    apply (@eqb_finite _ _ false 7205759403792794 (-57)%Z) in E;
      [|vm_compute; reflexivity].
    change (@f_abs float binary64 c) with (PrimFloat.abs c) in E |- *.
    rewrite E. split; vm_compute; reflexivity.
  - intros E.
    apply (@eqb_finite _ _ false 7205759403792794 (-56)%Z) in E;
      [|vm_compute; reflexivity].
    change (@f_abs float binary64 c) with (PrimFloat.abs c) in E |- *.
    rewrite E. split; vm_compute; reflexivity.
Qed.

End Binary64Scan.

(** C1. For every percentage change [c] the scan examines with
    [abs(c) > 0.02], the segment it emits carries the highest tier among
    Minor (0.02), Significant (0.05) and Major (0.10) whose threshold
    [abs(c)] strictly exceeds: the threshold of its magnitude is exceeded,
    and no tier of a higher rank has its threshold exceeded.  The
    comparisons are strict: when [abs(c)] equals the threshold of a tier
    (or stays below it), the magnitude is not that tier; on binary64, with
    [abs(c)] exactly 0.05 the magnitude is Minor, and with [abs(c)] exactly
    0.10 it is Significant. *)
Theorem magnitude_is_highest_tier_exceeded :
  (forall (F : Type) (ops : FloatOps F) (st : Scan F) (i : Z) (c : F),
      (f_abs c >? thresholds minor)%fl = true ->
      let d := segment st i c in
      wave_details (waves (loop_body st i c)) =
        wave_details (waves st) ++ [d] /\
      (f_abs c >? thresholds (magnitude d))%fl = true /\
      (forall t, (f_abs c >? thresholds t)%fl = true ->
                 (tier_rank t <= tier_rank (magnitude d))%nat) /\
      (forall t, (f_abs c =? thresholds t)%fl = true -> magnitude d <> t) /\
      (forall t, (f_abs c <=? thresholds t)%fl = true -> magnitude d <> t)) /\
  (forall (st : Scan float) (i : Z) (c : float),
      ((f_abs c =? thresholds significant)%fl = true ->
       emits c = true /\ magnitude (segment st i c) = minor) /\
      ((f_abs c =? thresholds major)%fl = true ->
       emits c = true /\ magnitude (segment st i c) = significant)).
Proof.
  split.
  - intros F ops st i c. apply magnitude_highest.
  - exact Binary64Scan.magnitude_at_threshold.
Qed.

(** ** The trend and the recommendation *)

Section InterpretationFacts.

Context {F : Type} `{FloatOps F}.


Lemma record_wave_impulse_only (w : Waves F) (d : WaveDetails F) :
  impulse_only w -> impulse_only (record_wave w d).
Proof.
  unfold impulse_only, record_wave. cbn [impulse_waves]. intros Hw.
  destruct (type d) eqn:Ed; [|exact Hw].
  apply Forall_app. split; [exact Hw|]. constructor; [exact Ed|constructor].
Qed.

Lemma scan_impulse_only (l : list F) (st : Scan F) (i : Z) :
  impulse_only (waves st) -> impulse_only (waves (scan st i l)).
Proof.
  revert st i. induction l as [|c l IH]; intros st i Hst; [exact Hst|].
  cbn [scan]. apply IH. destruct (emits c) eqn:Ec.
  - rewrite (loop_body_emits _ _ _ Ec). cbn [waves].
    apply record_wave_impulse_only, Hst.
  - now rewrite (loop_body_skips _ _ _ Ec).
Qed.

Lemma identify_wave_pattern_impulse_only (series : list F) :
  impulse_only (identify_wave_pattern series).
Proof. apply scan_impulse_only. constructor. Qed.

Lemma Forall_last (A : Type) (P : A -> Prop) (l : list A) (a d : A) :
  Forall P (a :: l) -> P (last (a :: l) d).
Proof.
  revert a. induction l as [|b l IH]; intros a Hl.
  - now inversion Hl.
  - inversion Hl; subst. change (P (last (b :: l) d)). now apply IH.
Qed.

Lemma price_trend_of_impulse_only (l : list (WaveDetails F)) :
  Forall (fun d => type d = impulse) l ->
  price_trend_of l = match l with [] => bearish | _ :: _ => bullish end.
Proof.
  destruct l as [|a l]; [reflexivity|]. intros Hl.
  unfold price_trend_of.
  now rewrite (@Forall_last _ (fun d => type d = impulse) l a a Hl).
Qed.

Lemma interpret_elliot_waves_total (w : Waves F)
    (df : list (IndicatorRow F)) :
  df <> [] ->
  exists r, interpret_elliot_waves w df = Some r /\
    total_waves r = List.length (wave_details w) /\
    impulse_waves_count r = List.length (impulse_waves w) /\
    corrective_waves_count r = List.length (corrective_waves w) /\
    dominant_trend r = price_trend_of (impulse_waves w) /\
    recommendation r =
      fst (get_investment_recommendation
             (impulse_waves w) (corrective_waves w) (dominant_trend r)).
Proof.
  destruct df as [|row df]; [congruence|]. intros _.
  eexists. split; [reflexivity|]. cbn. repeat split.
Qed.

(** C2. For the waves the scan produces, the trend of the interpretation
    is bullish exactly when the impulse list is non-empty, and bearish
    exactly when no impulse wave was detected; the wave detected last, of
    whatever type, plays no part. *)
Theorem trend_bullish_iff_impulse_detected (series : list F)
    (df : list (IndicatorRow F)) :
  df <> [] ->
  let w := identify_wave_pattern series in
  exists r, interpret_elliot_waves w df = Some r /\
    (dominant_trend r = bullish <-> impulse_waves w <> []) /\
    (dominant_trend r = bearish <-> List.length (impulse_waves w) = 0) /\
    impulse_waves_count r = List.length (impulse_waves w).
Proof.
  intros Hdf w.
  destruct (interpret_elliot_waves_total w Hdf)
    as (r & Hr & _ & Hic & _ & Htrend & _).
  exists r. split; [exact Hr|].
  pose proof (price_trend_of_impulse_only
                (identify_wave_pattern_impulse_only series)) as Hp.
  fold w in Hp. rewrite Htrend, Hp.
  destruct (impulse_waves w) as [|d l]; cbn [List.length].
  - split; [split; [discriminate|intros E; now elim E]|].
    split; [split; reflexivity|exact Hic].
  - split; [split; [discriminate|reflexivity]|].
    split; [split; discriminate|exact Hic].
Qed.

(** C3. The recommendation is a function of the two counts and the trend
    alone, given by the table read top to bottom: more impulse than
    corrective waves and a bullish trend give STRONG BUY; more impulse
    than corrective waves otherwise give MODERATE BUY; more corrective
    than impulse waves give HOLD/CAUTION; equal counts give NEUTRAL. *)
Theorem recommendation_table (iw cw : list (WaveDetails F))
    (trend : Trend) :
  let r := fst (get_investment_recommendation iw cw trend) in
  let ic := List.length iw in
  let cc := List.length cw in
  (ic > cc -> trend = bullish -> r = "STRONG BUY"%string) /\
  (ic > cc -> trend <> bullish -> r = "MODERATE BUY"%string) /\
  (cc > ic -> r = "HOLD/CAUTION"%string) /\
  (ic = cc -> r = "NEUTRAL"%string) /\
  (forall iw' cw' : list (WaveDetails F),
      List.length iw' = ic -> List.length cw' = cc ->
      get_investment_recommendation iw' cw' trend =
        get_investment_recommendation iw cw trend) /\
  (forall (w : Waves F) (df : list (IndicatorRow F)) (x : Interpretation F),
      interpret_elliot_waves w df = Some x ->
      recommendation x =
        fst (get_investment_recommendation
               (impulse_waves w) (corrective_waves w) (dominant_trend x))).
Proof.
  intros r ic cc.
  assert (Htab : r =
            if cc <? ic
            then (if Trend_eqb trend bullish
                  then "STRONG BUY" else "MODERATE BUY")%string
            else if ic <? cc then "HOLD/CAUTION"%string
            else "NEUTRAL"%string).
  { subst r ic cc. unfold get_investment_recommendation.
    destruct (List.length cw <? List.length iw), trend,
             (List.length iw <? List.length cw); reflexivity. }
  split.
  { intros Hgt ->. rewrite Htab, (proj2 (Nat.ltb_lt cc ic) Hgt).
    reflexivity. }
  split.
  { intros Hgt Hne. rewrite Htab, (proj2 (Nat.ltb_lt cc ic) Hgt).
    destruct trend; [congruence|reflexivity]. }
  split.
  { intros Hlt. rewrite Htab.
    rewrite (proj2 (Nat.ltb_ge cc ic)) by lia.
    rewrite (proj2 (Nat.ltb_lt ic cc)) by lia. reflexivity. }
  split.
  { intros E. rewrite Htab.
    rewrite (proj2 (Nat.ltb_ge cc ic)) by lia.
    rewrite (proj2 (Nat.ltb_ge ic cc)) by lia. reflexivity. }
  split.
  { intros iw' cw' E1 E2. unfold get_investment_recommendation.
    subst ic cc. rewrite E1, E2. reflexivity. }
  intros w [|row df] x Hx; [discriminate|].
  injection Hx as <-. reflexivity.
Qed.

(** C10. For the waves the scan produces, MODERATE BUY is never
    recommended: when the impulse waves outnumber the corrective ones the
    impulse list is non-empty and its last element is an impulse wave, so
    the trend is bullish and STRONG BUY is returned; the recommendation is
    one of STRONG BUY, HOLD/CAUTION and NEUTRAL. *)
Theorem moderate_buy_unreachable (series : list F)
    (df : list (IndicatorRow F)) :
  df <> [] ->
  let w := identify_wave_pattern series in
  exists r, interpret_elliot_waves w df = Some r /\
    recommendation r <> "MODERATE BUY"%string /\
    (recommendation r = "STRONG BUY"%string \/
     recommendation r = "HOLD/CAUTION"%string \/
     recommendation r = "NEUTRAL"%string) /\
    (List.length (impulse_waves w) > List.length (corrective_waves w) ->
     impulse_waves w <> [] /\
     (forall d0, type (last (impulse_waves w) d0) = impulse) /\
     dominant_trend r = bullish /\
     recommendation r = "STRONG BUY"%string).
Proof.
  intros Hdf w.
  destruct (interpret_elliot_waves_total w Hdf)
    as (r & Hr & _ & _ & _ & Htrend & Hrec).
  exists r. split; [exact Hr|].
  pose proof (identify_wave_pattern_impulse_only series) as Hinv.
  fold w in Hinv.
  rewrite (price_trend_of_impulse_only Hinv) in Htrend.
  unfold impulse_only in Hinv.
  rewrite Hrec, Htrend. unfold get_investment_recommendation.
  destruct (impulse_waves w) as [|d l] eqn:Ei.
  - cbn [List.length].
    rewrite (proj2 (Nat.ltb_ge (List.length (corrective_waves w)) 0))
      by lia.
    cbn [andb].
    destruct (0 <? List.length (corrective_waves w)); cbn [fst];
      (split; [discriminate|]); (split; [auto|]); intros Hgt; lia.
  - destruct (Nat.ltb_spec (List.length (corrective_waves w))
                           (List.length (d :: l))) as [Hgt|Hle].
    + cbn [andb Trend_eqb fst].
      split; [discriminate|]. split; [auto|]. intros _.
      split; [discriminate|]. split; [|split; reflexivity].
      intros d0.
      apply (@Forall_last _ (fun x => type x = impulse) l d d0 Hinv).
    + cbn [andb].
      destruct (List.length (d :: l) <? List.length (corrective_waves w));
        cbn [fst]; (split; [discriminate|]); (split; [auto|]);
        intros Hgt; lia.
Qed.

End InterpretationFacts.

(** ** The candle frame *)

Section CandleFacts.

Context {F : Type} `{FloatOps F}.


Lemma In_firstn (A : Type) (n : nat) (l : list A) (x : A) :
  In x (firstn n l) -> In x l.
Proof.
  intros Hx. rewrite <- (firstn_skipn n l). apply in_or_app. now left.
Qed.

Lemma In_skipn (A : Type) (n : nat) (l : list A) (x : A) :
  In x (skipn n l) -> In x l.
Proof.
  intros Hx. rewrite <- (firstn_skipn n l). apply in_or_app. now right.
Qed.

Lemma In_removelast (A : Type) (l : list A) (x : A) :
  In x (removelast l) -> In x l.
Proof. rewrite removelast_firstn_len. apply In_firstn. Qed.

Lemma In_window_at (w i : nat) (s : list F) (x : F) :
  In x (window_at w i s) -> In x s.
Proof. unfold window_at. intros Hx. eapply In_skipn, In_firstn, Hx. Qed.

Lemma length_window_at (w i : nat) (s : list F) :
  List.length (window_at w i s) =
    Nat.min (i + 1 - (i + 1 - w)) (List.length s - (i + 1 - w)).
Proof. unfold window_at. now rewrite length_firstn, length_skipn. Qed.

Lemma filter_all (A : Type) (f : A -> bool) (l : list A) :
  (forall x, In x l -> f x = true) -> filter f l = l.
Proof. intros Hl. apply forallb_filter_id, forallb_forall, Hl. Qed.

(** The maximum and the minimum of a window are values of the window. *)
Lemma fold_fmax_In (rest : list F) (x : F) :
  In (fold_left fmax rest x) (x :: rest).
Proof.
  revert x. induction rest as [|y rest IH]; intros x; [now left|].
  cbn [fold_left]. specialize (IH (fmax x y)).
  destruct IH as [E|Hin]; [|now right; right].
  rewrite <- E. unfold fmax. destruct (f_leb x y); [right|]; now left.
Qed.

Lemma fold_fmin_In (rest : list F) (x : F) :
  In (fold_left fmin rest x) (x :: rest).
Proof.
  revert x. induction rest as [|y rest IH]; intros x; [now left|].
  cbn [fold_left]. specialize (IH (fmin x y)).
  destruct IH as [E|Hin]; [|now right; right].
  rewrite <- E. unfold fmin. destruct (f_leb y x); [right|]; now left.
Qed.

Lemma length_prep_values (s : list F) :
  List.length (prep_values s) = List.length s.
Proof. apply length_map. Qed.

(** A column without infinite values is rolled as it is. *)
Lemma prep_values_plain (s : list F) :
  (forall x, In x s -> f_is_inf x = false) -> prep_values s = s.
Proof.
  intros Hs. unfold prep_values. rewrite <- (map_id s) at 2.
  apply map_ext_in. intros x Hx. now rewrite (Hs x Hx).
Qed.

(** On a column of finite values, a rolling maximum or minimum with one
    required observation has no NaN. *)
Lemma rolling_select_not_nan (w : nat) (agg : list F -> F) (s : list F) :
  1 <= w ->
  (forall obs, obs <> [] -> In (agg obs) obs) ->
  (forall x, In x s -> f_is_inf x = false) ->
  (forall x, In x s -> not_nan x = true) ->
  forall h, In h (rolling w 1 agg s) -> not_nan h = true.
Proof.
  intros Hw Hagg Hinf Hs h Hh. unfold rolling in Hh.
  rewrite (prep_values_plain s Hinf) in Hh. cbv zeta in Hh.
  apply in_map_iff in Hh. destruct Hh as (i & <- & Hi).
  apply in_seq in Hi.
  assert (Hobs : filter (fun x => negb (f_is_nan x)) (window_at w i s) =
                 window_at w i s).
  { apply filter_all. intros x Hx. apply (Hs x), (In_window_at _ _ _ _ Hx). }
  rewrite Hobs.
  assert (Hlen : 1 <= List.length (window_at w i s)).
  { rewrite length_window_at. lia. }
  destruct (Nat.ltb_spec (List.length (window_at w i s)) 1); [lia|].
  apply Hs, (In_window_at w i), Hagg.
  intros E. rewrite E in Hlen. cbn in Hlen. lia.
Qed.

Lemma agg_max_In (obs : list F) : obs <> [] -> In (agg_max obs) obs.
Proof.
  destruct obs as [|x rest]; [congruence|]. intros _. apply fold_fmax_In.
Qed.

Lemma agg_min_In (obs : list F) : obs <> [] -> In (agg_min obs) obs.
Proof.
  destruct obs as [|x rest]; [congruence|]. intros _. apply fold_fmin_In.
Qed.


Lemma with_columns_cons (p : Z * F) (ps : list (Z * F)) :
  exists row0,
    with_columns (p :: ps) = row0 :: later_rows p ps /\
    open row0 = f_nan.
Proof.
  unfold with_columns, later_rows, rolling.
  cbn [map shift1 List.length seq combine tl].
  eexists. split; reflexivity.
Qed.

Lemma dropna_first_row (p : Z * F) (ps : list (Z * F)) :
  dropna (with_columns (p :: ps)) = dropna (later_rows p ps).
Proof.
  destruct (with_columns_cons p ps) as (row0 & -> & Ho).
  unfold dropna at 1. cbn [filter]. unfold has_nan.
  rewrite Ho, f_nan_is_nan, !orb_true_r. reflexivity.
Qed.

Lemma length_later_rows (p : Z * F) (ps : list (Z * F)) :
  List.length (later_rows p ps) = List.length ps.
Proof.
  unfold later_rows, rolling.
  cbn [map List.length seq tl].
  rewrite length_map, !length_combine, !length_map, length_seq.
  rewrite removelast_firstn_len, length_firstn.
  cbn [List.length]. rewrite length_map. cbn [Nat.pred]. lia.
Qed.

Lemma numeric_spec (q : Z * F) :
  numeric q = true ->
  (fst q =? NaT)%Z = false /\ f_is_inf (snd q) = false /\
  f_is_nan (snd q) = false.
Proof.
  unfold numeric, plain. intros E.
  apply andb_true_iff in E. destruct E as (E & En).
  apply andb_true_iff in E. destruct E as (Et & Ei).
  apply negb_true_iff in En, Et, Ei. auto.
Qed.

Lemma later_rows_no_nan (p : Z * F) (ps : list (Z * F)) :
  Forall (fun q => numeric q = true) (p :: ps) ->
  forall r, In r (later_rows p ps) -> has_nan r = false.
Proof.
  intros Hp r Hr. rewrite Forall_forall in Hp.
  assert (Hs : forall x, In x (map snd (p :: ps)) -> not_nan x = true).
  { intros x Hx. apply in_map_iff in Hx. destruct Hx as (q & <- & Hq).
    unfold not_nan. now rewrite (proj2 (proj2 (numeric_spec q (Hp q Hq)))). }
  assert (Hinf : forall x, In x (map snd (p :: ps)) -> f_is_inf x = false).
  { intros x Hx. apply in_map_iff in Hx. destruct Hx as (q & <- & Hq).
    exact (proj1 (proj2 (numeric_spec q (Hp q Hq)))). }
  unfold later_rows in Hr. apply in_map_iff in Hr.
  destruct Hr as ([[[q o] h] l] & <- & Hr).
  pose proof (in_combine_r _ _ _ _ Hr) as Hl.
  apply in_combine_l in Hr.
  pose proof (in_combine_r _ _ _ _ Hr) as Hh.
  apply in_combine_l in Hr.
  pose proof (in_combine_r _ _ _ _ Hr) as Ho.
  apply in_combine_l in Hr.
  assert (Htl : forall (x : F) (s : list F), In x (tl s) -> In x s).
  { intros x [|y s] Hx; [exact Hx|now right]. }
  assert (Eq : not_nan (snd q) = true).
  { apply Hs, in_map, in_cons, Hr. }
  assert (Eo : not_nan o = true).
  { apply Hs, In_removelast, Ho. }
  assert (Eh : not_nan h = true).
  { eapply rolling_select_not_nan; [| | | |apply Htl, Hh];
      [lia|exact agg_max_In|exact Hinf|exact Hs]. }
  assert (El : not_nan l = true).
  { eapply rolling_select_not_nan; [| | | |apply Htl, Hl];
      [lia|exact agg_min_In|exact Hinf|exact Hs]. }
  assert (Et : (fst q =? NaT)%Z = false).
  { exact (proj1 (numeric_spec q (Hp q (in_cons p q ps Hr)))). }
  unfold not_nan in Eq, Eo, Eh, El. unfold has_nan.
  cbn [timestamp close open high low].
  apply negb_true_iff in Eq, Eo, Eh, El. now rewrite Et, Eq, Eo, Eh, El.
Qed.

Lemma combine_fst_snd (A B : Type) (l : list (A * B)) :
  combine (map fst l) (map snd l) = l.
Proof.
  induction l as [|[a b] l IH]; [reflexivity|]. cbn. now rewrite IH.
Qed.

(** The candle stage on two points or more, by its conversion of the
    timestamps. *)
Lemma get_crypto_candles_stage (prices : list (Z * F)) :
  2 <= List.length prices ->
  get_crypto_candles prices =
    match to_datetime (map fst prices) with
    | None => inl (Error_fetching_data Out_of_bounds_datetime)
    | Some _ =>
        let df := dropna (with_columns prices) in
        if List.length df <? 2
        then inl (Error_fetching_data Insufficient_processed_data_points)
        else inr df
    end.
Proof.
  intros Hn. unfold get_crypto_candles.
  destruct (Nat.eqb_spec (List.length prices) 0); [lia|].
  destruct (Nat.ltb_spec (List.length prices) 2); [lia|].
  unfold to_datetime.
  destruct (forallb in_bounds (map fst prices)); [|reflexivity].
  rewrite combine_fst_snd. cbv zeta.
  destruct (List.length (dropna (with_columns prices)) <? 2); reflexivity.
Qed.

(** C7 (as the code has it). The candle stage drops the first point, whose
    [open] is missing, and with it every row that has a missing value, so
    at most [n-1] candles remain.  When the timestamps can be converted it
    fails with the InsufficientData error exactly when fewer than 2 candles
    remain, and returns the remaining candles otherwise; when they cannot,
    two points or more fail with the error of the conversion.  The candles
    are the [n-1] rows below the first when every point has a datetime and
    a finite close. *)
Theorem candles_or_insufficient_data (prices : list (Z * F)) :
  prices <> [] ->
  let rows := with_columns prices in
  let df := dropna rows in
  (exists row0, hd_error rows = Some row0 /\ f_is_nan (open row0) = true) /\
  df = dropna (tl rows) /\
  List.length df <= List.length prices - 1 /\
  (to_datetime (map fst prices) = Some (map fst prices) ->
   (List.length df < 2 ->
    exists e, get_crypto_candles prices = inl e /\ InsufficientData e) /\
   (2 <= List.length df -> get_crypto_candles prices = inr df)) /\
  (to_datetime (map fst prices) = None ->
   2 <= List.length prices ->
   get_crypto_candles prices =
     inl (Error_fetching_data Out_of_bounds_datetime)) /\
  (Forall (fun q => numeric q = true) prices ->
   df = tl rows /\ List.length df = List.length prices - 1).
Proof.
  destruct prices as [|p ps]; [congruence|]. intros _ rows df.
  destruct (with_columns_cons p ps) as (row0 & Hrows & Ho).
  assert (Hdf : df = dropna (later_rows p ps)).
  { subst df rows. apply dropna_first_row. }
  assert (Hlen : List.length df <= List.length ps).
  { rewrite Hdf, <- (length_later_rows p ps). apply filter_length_le. }
  split.
  { exists row0. subst rows. rewrite Hrows. split; [reflexivity|].
    rewrite Ho. apply f_nan_is_nan. }
  split.
  { subst rows. rewrite Hrows. exact Hdf. }
  split.
  { cbn [List.length]. lia. }
  split.
  { intros Hts. split.
    - intros Hlt. destruct ps as [|p' ps].
      + eexists. split; [reflexivity|]. now left.
      + rewrite get_crypto_candles_stage by (cbn [List.length]; lia).
        rewrite Hts. cbv zeta. fold rows. fold df.
        rewrite (proj2 (Nat.ltb_lt _ _) Hlt).
        eexists. split; [reflexivity|]. now right.
    - intros Hge.
      destruct ps as [|p' ps]; [cbn [List.length] in Hlen; lia|].
      rewrite get_crypto_candles_stage by (cbn [List.length]; lia).
      rewrite Hts. cbv zeta. fold rows. fold df.
      rewrite (proj2 (Nat.ltb_ge _ _) Hge). reflexivity. }
  split.
  { intros Hts Hn. rewrite get_crypto_candles_stage by exact Hn.
    now rewrite Hts. }
  intros Hnum.
  assert (Hall : df = later_rows p ps).
  { rewrite Hdf. apply filter_all. intros r Hr.
    now rewrite (later_rows_no_nan Hnum r Hr). }
  split.
  - subst rows. rewrite Hrows. exact Hall.
  - rewrite Hall, length_later_rows. cbn [List.length]. lia.
Qed.

End CandleFacts.

(** ** The indicator columns *)

Section ColumnFacts.

Context {F : Type} `{FloatOps F}.

Lemma length_shift1 (s : list F) : List.length (shift1 s) = List.length s.
Proof.
  destruct s as [|x s]; [reflexivity|]. unfold shift1.
  cbn [List.length]. rewrite removelast_firstn_len, length_firstn.
  cbn [List.length Nat.pred]. lia.
Qed.

Lemma length_diff (s : list F) : List.length (diff s) = List.length s.
Proof.
  unfold diff. rewrite length_map, length_combine, length_shift1. lia.
Qed.

Lemma length_pct_change_of (s : list F) :
  List.length (pct_change_of s) = List.length s.
Proof.
  unfold pct_change_of.
  rewrite length_map, length_combine, length_shift1. lia.
Qed.

Lemma length_rolling (w m : nat) (agg : list F -> F) (s : list F) :
  List.length (rolling w m agg s) = List.length s.
Proof. unfold rolling. now rewrite length_map, length_seq. Qed.

Lemma length_roll_mean_rows (w m : nat) (values : list F) (rows : list nat)
    (st : Mean F) :
  List.length (roll_mean_rows w m values rows st) = List.length rows.
Proof.
  revert st. induction rows as [|i rows IH]; intros st; [reflexivity|].
  cbn [roll_mean_rows List.length]. now rewrite IH.
Qed.

Lemma length_roll_mean (w : nat) (s : list F) :
  List.length (roll_mean w s) = List.length s.
Proof. unfold roll_mean. now rewrite length_roll_mean_rows, length_seq. Qed.

Lemma length_gain_of (s : list F) : List.length (gain_of s) = List.length s.
Proof.
  unfold gain_of, where_.
  now rewrite length_roll_mean, length_map, length_diff.
Qed.

Lemma length_loss_of (s : list F) : List.length (loss_of s) = List.length s.
Proof.
  unfold loss_of, where_.
  now rewrite length_roll_mean, !length_map, length_diff.
Qed.

Lemma length_rsi_of (s : list F) : List.length (rsi_of s) = List.length s.
Proof.
  unfold rsi_of.
  rewrite !length_map, length_combine, length_gain_of, length_loss_of. lia.
Qed.

Lemma map_snd_combine (A B : Type) (l : list A) (l' : list B) :
  List.length l = List.length l' -> map snd (combine l l') = l'.
Proof.
  revert l'. induction l as [|a l IH]; intros [|b l'] E;
    try discriminate; [reflexivity|].
  cbn. f_equal. apply IH. now injection E.
Qed.

Lemma nth_error_combine (A B : Type) (l : list A) (l' : list B) (i : nat)
    (a : A) (b : B) :
  nth_error (combine l l') i = Some (a, b) ->
  nth_error l i = Some a /\ nth_error l' i = Some b.
Proof.
  revert l' i. induction l as [|x l IH]; intros [|y l'] [|i] E;
    try discriminate.
  - cbn in E. injection E as -> ->. now split.
  - cbn in E |- *. now apply IH.
Qed.

Lemma nth_error_rolling (w m : nat) (agg : list F -> F) (s : list F)
    (i : nat) (x : F) :
  nth_error (rolling w m agg s) i = Some x ->
  x = let obs := filter (fun y => negb (f_is_nan y))
                        (window_at w i (prep_values s)) in
      if List.length obs <? m then f_nan else agg obs.
Proof.
  unfold rolling. cbv zeta. rewrite nth_error_map, nth_error_seq.
  destruct (i <? List.length s); [|discriminate].
  cbn. intros E. now injection E.
Qed.

(** The [rsi] column of the frame is [rsi_of] its closes. *)
Lemma rsi_column (df : list (Candle F)) :
  map (fun r => rsi r) (indicator_rows df) = rsi_of (map (@close F) df).
Proof.
  unfold indicator_rows. rewrite map_map.
  rewrite <- (map_snd_combine
                (combine (combine df (diff (map (@close F) df)))
                         (pct_change_of (map (@close F) df)))
                (rsi_of (map (@close F) df))) at 2.
  - apply map_ext. intros [[[c d] p] x]. reflexivity.
  - rewrite !length_combine, length_diff, length_pct_change_of,
      length_rsi_of, length_map. lia.
Qed.

Lemma nth_error_rsi (df : list (Candle F)) (i : nat) (r : IndicatorRow F) :
  nth_error (snd (detect_elliot_waves df)) i = Some r ->
  exists g l,
    nth_error (gain_of (map (@close F) df)) i = Some g /\
    nth_error (loss_of (map (@close F) df)) i = Some l /\
    rsi r = rsi_formula (g / l)%fl.
Proof.
  cbn [detect_elliot_waves snd]. intros Hr.
  apply (map_nth_error (fun r => rsi r)) in Hr.
  rewrite rsi_column in Hr. unfold rsi_of in Hr.
  rewrite !nth_error_map in Hr.
  destruct (nth_error (combine (gain_of (map (@close F) df))
                               (loss_of (map (@close F) df))) i)
    as [[g l]|] eqn:E; [|discriminate].
  apply nth_error_combine in E. destruct E as (Eg & El).
  exists g, l. cbn in Hr. injection Hr as <-. auto.
Qed.

(** The running count of observations grows by one a row at most. *)
Lemma nobs_add_mean (v : F) (st : Mean F) :
  nobs (add_mean v st) <= nobs st + 1.
Proof. unfold add_mean. destruct (f_eqb v v); cbn [nobs]; lia. Qed.

Lemma nobs_remove_mean (v : F) (st : Mean F) :
  nobs (remove_mean v st) <= nobs st.
Proof. unfold remove_mean. destruct (f_eqb v v); cbn [nobs]; lia. Qed.

Lemma nobs_fold_add (values : list F) (js : list nat) (st : Mean F) :
  nobs (fold_left (fun st j => add_mean (nth j values f_nan) st) js st) <=
    nobs st + List.length js.
Proof.
  revert st. induction js as [|j js IH]; intros st; cbn [fold_left List.length];
    [lia|].
  etransitivity; [apply IH|].
  pose proof (nobs_add_mean (nth j values f_nan) st). lia.
Qed.

Lemma nobs_fold_remove (values : list F) (js : list nat) (st : Mean F) :
  nobs (fold_left (fun st j => remove_mean (nth j values f_nan) st) js st) <=
    nobs st.
Proof.
  revert st. induction js as [|j js IH]; intros st; cbn [fold_left]; [lia|].
  etransitivity; [apply IH|]. apply nobs_remove_mean.
Qed.

Lemma calc_mean_few (minp : nat) (st : Mean F) :
  nobs st < minp -> calc_mean minp st = f_nan.
Proof.
  intros Hlt. unfold calc_mean.
  now rewrite (proj2 (Nat.leb_gt minp (nobs st)) Hlt).
Qed.

Lemma roll_mean_rows_warmup (w minp : nat) (values : list F) (m k : nat)
    (st : Mean F) (j : nat) (x : F) :
  nobs st <= k ->
  nth_error (roll_mean_rows w minp values (seq k m) st) j = Some x ->
  k + j + 1 < minp -> x = f_nan.
Proof.
  revert k st j. induction m as [|m IH]; intros k st j Hst Hx Hlt;
    [destruct j; discriminate|].
  cbn [seq roll_mean_rows] in Hx.
  set (st' := if (k =? 0) || (k <=? k + 1 - w) then _ else _) in Hx.
  assert (Hst' : nobs st' <= S k).
  { subst st'. destruct ((k =? 0) || (k <=? k + 1 - w)).
    - etransitivity; [apply nobs_fold_add|].
      rewrite length_seq. cbn [setup nobs]. lia.
    - etransitivity; [apply nobs_fold_add|].
      rewrite length_seq.
      pose proof (nobs_fold_remove values
                    (seq (k - w) (k + 1 - w - (k - w))) st). lia. }
  destruct j as [|j]; cbn [nth_error] in Hx.
  - injection Hx as <-. apply calc_mean_few. lia.
  - apply (IH (S k) st' j Hst' Hx). lia.
Qed.

(** The first [window - 1] rows of a rolling mean are missing. *)
Lemma roll_mean_warmup (w : nat) (s : list F) (i : nat) (x : F) :
  i + 1 < w -> nth_error (roll_mean w s) i = Some x -> x = f_nan.
Proof.
  intros Hi Hx. unfold roll_mean in Hx.
  eapply roll_mean_rows_warmup; [|exact Hx|]; cbn [setup nobs]; lia.
Qed.

End ColumnFacts.

(** ** The RSI column, in exact arithmetic *)

Module RsiFacts.

Import Exact.

#[local] Arguments Qred : simpl never.
#[local] Arguments Qplus : simpl never.
#[local] Arguments Qopp : simpl never.
#[local] Arguments Qmult : simpl never.
#[local] Arguments Qdiv : simpl never.
#[local] Arguments Qinv : simpl never.
#[local] Arguments Qle_bool : simpl never.
#[local] Arguments Qeq_bool : simpl never.
#[local] Arguments inject_Z : simpl never.


Lemma is_neg_nonneg (q : Q) : (0 <= q)%Q -> is_neg q = false.
Proof.
  intros Hq. unfold is_neg. apply Qle_bool_iff in Hq. now rewrite Hq.
Qed.

Lemma add_nonneg (x y : num) : nonneg x -> nonneg y -> nonneg (add x y).
Proof.
  destruct x as [|[|]|a], y as [|[|]|b]; simpl; try tauto.
  intros Ha Hb. rewrite Qred_correct. lra.
Qed.

Lemma fold_add_nonneg (l : list num) (acc : num) :
  nonneg acc -> Forall nonneg l -> nonneg (fold_left add l acc).
Proof.
  intros Hacc Hl. revert acc Hacc.
  induction Hl as [|x l Hx _ IH]; intros acc Hacc; [exact Hacc|].
  cbn [fold_left]. apply IH, add_nonneg; assumption.
Qed.

Lemma div_nonneg (x y : num) :
  nonneg x -> nonneg y -> div x y = NaN \/ nonneg (div x y).
Proof.
  destruct x as [|[|]|a], y as [|[|]|b]; simpl; try tauto.
  - intros _ Hb. rewrite (is_neg_nonneg Hb). now right.
  - intros _ _. right. lra.
  - intros Ha Hb. destruct (is_zero b).
    + destruct (is_zero a); [now left|right].
      now rewrite (is_neg_nonneg Ha).
    + right. simpl. rewrite Qred_correct. unfold Qdiv.
      apply Qmult_le_0_compat; [exact Ha|apply Qinv_le_0_compat, Hb].
Qed.

Lemma div_nan_l (y : num) : div NaN y = NaN.
Proof. reflexivity. Qed.

Lemma div_nan_r (x : num) : div x NaN = NaN.
Proof. destruct x; reflexivity. Qed.

(** *** The rolling mean of a column without negative values

    In exact arithmetic the two compensations stay zero and the running sum
    is the sum of the window. *)

Definition val (x : num) : Q := match x with Fin q => q | _ => 0 end.

(** The prepared values of a column without negative values. *)
Definition clean (x : num) : Prop :=
  match x with
  | NaN => True
  | Inf _ => False
  | Fin q => (0 <= q)%Q
  end.

Fixpoint total (values : list num) (js : list nat) : Q :=
  match js with
  | [] => 0
  | j :: js' => (val (nth j values NaN) + total values js')%Q
  end.

(** The state of [roll_mean] when the window sums to [t]. *)
Definition tracks (st : Mean num) (t : Q) : Prop :=
  (exists sx, sum_x st = Fin sx /\ (sx == t)%Q) /\
  (exists c, compensation_add st = Fin c /\ (c == 0)%Q) /\
  (exists c, compensation_remove st = Fin c /\ (c == 0)%Q) /\
  (nobs st = 0 \/ nonneg (prev_value st)).

Lemma tracks_eq (st : Mean num) (t t' : Q) :
  (t == t')%Q -> tracks st t -> tracks st t'.
Proof.
  intros E ((sx & Es & Hs) & Ha & Hr & Hp).
  split; [|tauto]. exists sx. split; [exact Es|]. lra.
Qed.

Lemma clean_nonneg (x : num) : clean x -> x = NaN \/ nonneg x.
Proof. destruct x as [|s|q]; simpl; tauto. Qed.

Lemma add_mean_tracks (v : num) (st : Mean num) (t : Q) :
  clean v -> tracks st t -> tracks (add_mean v st) (t + val v).
Proof.
  intros Hv Ht. destruct v as [|s|q]; [|destruct Hv|].
  - apply (tracks_eq (t := t)); [simpl; lra|exact Ht].
  - destruct Ht as ((sx & Es & Hs) & (ca & Ea & Ha) & Hr & Hp).
    unfold add_mean. simpl f_eqb.
    rewrite (Qeq_bool_refl q). cbv zeta.
    split; [|split; [|split]]; cbn [sum_x compensation_add
      compensation_remove nobs prev_value].
    + rewrite Es, Ea. simpl. eexists. split; [reflexivity|].
      rewrite !Qred_correct. lra.
    + rewrite Es, Ea. simpl. eexists. split; [reflexivity|].
      rewrite !Qred_correct. lra.
    + exact Hr.
    + right. exact Hv.
Qed.

Lemma remove_mean_tracks (v : num) (st : Mean num) (t : Q) :
  clean v -> tracks st t -> tracks (remove_mean v st) (t - val v).
Proof.
  intros Hv Ht. destruct v as [|s|q]; [|destruct Hv|].
  - apply (tracks_eq (t := t)); [simpl; lra|exact Ht].
  - destruct Ht as ((sx & Es & Hs) & Ha & (cr & Er & Hr) & Hp).
    unfold remove_mean. simpl f_eqb.
    rewrite (Qeq_bool_refl q). cbv zeta.
    split; [|split; [|split]]; cbn [sum_x compensation_add
      compensation_remove nobs prev_value].
    + rewrite Es, Er. simpl. eexists. split; [reflexivity|].
      rewrite !Qred_correct. lra.
    + exact Ha.
    + rewrite Es, Er. simpl. eexists. split; [reflexivity|].
      rewrite !Qred_correct. lra.
    + destruct Hp as [Hp|Hp]; [left; lia|right; exact Hp].
Qed.

Lemma fold_add_tracks (values : list num) (js : list nat) (st : Mean num)
    (t : Q) :
  (forall j, clean (nth j values NaN)) -> tracks st t ->
  tracks (fold_left (fun st j => add_mean (nth j values f_nan) st) js st)
         (t + total values js).
Proof.
  intros Hv. revert st t. induction js as [|j js IH]; intros st t Ht.
  - apply (tracks_eq (t := t)); [simpl; lra|exact Ht].
  - cbn [fold_left]. eapply tracks_eq; [|apply IH, add_mean_tracks, Ht].
    + simpl. change f_nan with NaN. lra.
    + apply Hv.
Qed.

Lemma fold_remove_tracks (values : list num) (js : list nat) (st : Mean num)
    (t : Q) :
  (forall j, clean (nth j values NaN)) -> tracks st t ->
  tracks (fold_left (fun st j => remove_mean (nth j values f_nan) st) js st)
         (t - total values js).
Proof.
  intros Hv. revert st t. induction js as [|j js IH]; intros st t Ht.
  - apply (tracks_eq (t := t)); [simpl; lra|exact Ht].
  - cbn [fold_left]. eapply tracks_eq; [|apply IH, remove_mean_tracks, Ht].
    + simpl. change f_nan with NaN. lra.
    + apply Hv.
Qed.

Lemma total_nonneg (values : list num) (js : list nat) :
  (forall j, clean (nth j values NaN)) -> (0 <= total values js)%Q.
Proof.
  intros Hv. induction js as [|j js IH]; simpl; [lra|].
  specialize (Hv j). destruct (nth j values NaN) as [|s|q]; simpl in *; lra.
Qed.

Lemma total_app (values : list num) (js ks : list nat) :
  (total values (js ++ ks) == total values js + total values ks)%Q.
Proof. induction js as [|j js IH]; simpl; [lra|]. rewrite IH. lra. Qed.

Lemma calc_mean_nonneg (minp : nat) (st : Mean num) (t : Q) :
  tracks st t -> (0 <= t)%Q ->
  calc_mean minp st = NaN \/ nonneg (calc_mean minp st).
Proof.
  intros ((sx & Es & Hs) & _ & _ & Hp) Ht. unfold calc_mean.
  destruct (Nat.ltb_spec 0 (nobs st)) as [Hn|Hn];
    [|rewrite andb_false_r; now left].
  destruct (minp <=? nobs st); [|now left]. cbn [andb]. cbv zeta.
  destruct (nobs st <=? num_consecutive_same_value st).
  { right. destruct Hp as [Hp|Hp]; [lia|exact Hp]. }
  destruct (_ && _); [right; simpl; unfold inject_Z; lra|].
  destruct (_ && _); [right; simpl; unfold inject_Z; lra|].
  right. rewrite Es. simpl.
  assert (Hpos : (0 < inject_Z (Z.of_nat (nobs st)))%Q).
  { unfold inject_Z, Qlt. simpl. lia. }
  assert (Hz : is_zero (inject_Z (Z.of_nat (nobs st))) = false).
  { unfold is_zero. destruct (Qeq_bool _ 0) eqn:E; [|reflexivity].
    apply Qeq_bool_iff in E. lra. }
  rewrite Hz. simpl. rewrite Qred_correct.
  apply Qle_shift_div_l; [exact Hpos|]. lra.
Qed.

Lemma roll_mean_rows_nonneg (w minp : nat) (values : list num) (m k : nat)
    (st : Mean num) :
  2 <= w -> 1 <= k ->
  (forall j, clean (nth j values NaN)) ->
  tracks st (total values (seq (k - w) (k - (k - w)))) ->
  Forall (fun x => x = NaN \/ nonneg x)
         (roll_mean_rows w minp values (seq k m) st).
Proof.
  intros Hw Hk Hv. revert k st Hk.
  induction m as [|m IH]; intros k st Hk Ht; [constructor|].
  cbn [seq roll_mean_rows].
  assert (Hcond : (k =? 0) || (k <=? k + 1 - w) = false).
  { destruct (Nat.eqb_spec k 0); [lia|].
    destruct (Nat.leb_spec k (k + 1 - w)); [lia|reflexivity]. }
  rewrite Hcond.
  set (st' := fold_left (fun st j => add_mean (nth j values f_nan) st) _ _).
  assert (Ht' : tracks st'
                  (total values (seq (S k - w) (S k - (S k - w))))).
  { subst st'.
    eapply tracks_eq;
      [|apply fold_add_tracks; [exact Hv|];
        apply fold_remove_tracks; [exact Hv|exact Ht]].
    replace (k + 1 - k) with 1 by lia. cbn [seq total].
    destruct (Nat.le_gt_cases w k) as [Hle|Hgt].
    - replace (k + 1 - w - (k - w)) with 1 by lia. cbn [seq total].
      replace (k - (k - w)) with (S (w - 1)) by lia.
      replace (S k - (S k - w)) with ((w - 1) + 1) by lia.
      replace (S k - w) with (S (k - w)) by lia.
      cbn [seq total]. rewrite seq_app, total_app. cbn [seq total].
      replace (S (k - w) + (w - 1)) with k by lia. lra.
    - replace (k + 1 - w - (k - w)) with 0 by lia. cbn [seq total].
      replace (k - w) with 0 by lia. replace (S k - w) with 0 by lia.
      rewrite !Nat.sub_0_r. replace (S k) with (k + 1) by lia.
      rewrite seq_app, total_app. cbn [seq total Nat.add]. lra. }
  constructor.
  - apply (calc_mean_nonneg minp Ht'), total_nonneg, Hv.
  - replace (k + 1) with (S k) in * by lia. apply IH; [lia|exact Ht'].
Qed.

Lemma prep_values_clean (s : list num) (j : nat) :
  Forall nonneg s -> clean (nth j (prep_values s) NaN).
Proof.
  intros Hs. destruct (nth_error (prep_values s) j) as [x|] eqn:E.
  - rewrite (nth_error_nth _ _ _ E). unfold prep_values in E.
    rewrite nth_error_map in E.
    destruct (nth_error s j) as [y|] eqn:Ey; [|discriminate].
    injection E as <-. rewrite Forall_forall in Hs.
    specialize (Hs y (nth_error_In _ _ Ey)).
    destruct y as [|[|]|q]; simpl in *; tauto.
  - rewrite (nth_overflow _ _ (proj1 (nth_error_None _ _) E)). exact I.
Qed.

Lemma rolling_mean_nonneg (s : list num) (i : nat) (x : num) :
  Forall nonneg s ->
  nth_error (roll_mean 14 s) i = Some x ->
  x = NaN \/ nonneg x.
Proof.
  intros Hs Hx.
  assert (Hall : Forall (fun x => x = NaN \/ nonneg x) (roll_mean 14 s)).
  { unfold roll_mean. cbv zeta.
    pose proof (fun j => prep_values_clean j Hs) as Hv.
    destruct (List.length s) as [|n]; [constructor|].
    cbn [seq roll_mean_rows Nat.eqb orb].
    change (0 + 1 - 14) with 0. change (0 + 1 - 0) with 1.
    set (st0 := fold_left _ _ _).
    assert (Ht0 : tracks st0 (total (prep_values s) (seq 0 1))).
    { subst st0.
      apply (tracks_eq (t := (0 + total (prep_values s) (seq 0 1))%Q));
        [lra|].
      apply fold_add_tracks; [exact Hv|].
      unfold tracks, setup. cbn. repeat split;
        try (eexists; split; [reflexivity|unfold inject_Z; lra]).
      now left. }
    constructor.
    - apply (calc_mean_nonneg 14 Ht0), total_nonneg, Hv.
    - apply roll_mean_rows_nonneg; [lia|lia|exact Hv|exact Ht0]. }
  rewrite Forall_forall in Hall. exact (Hall x (nth_error_In _ _ Hx)).
Qed.

Lemma gains_nonneg (delta : list num) :
  Forall nonneg (where_ (fun d => (d >? f_of_Z 0)%fl) delta).
Proof.
  unfold where_. apply Forall_forall. intros x Hx.
  apply in_map_iff in Hx. destruct Hx as (d & <- & _).
  destruct (f_ltb (f_of_Z 0) d) eqn:E; [|simpl; unfold inject_Z; lra].
  destruct d as [|[|]|a]; simpl in E |- *; try discriminate; [exact I|].
  apply negb_true_iff in E.
  destruct (Qlt_le_dec 0 a) as [Hlt|Hle]; [lra|].
  apply Qle_bool_iff in Hle. unfold inject_Z in E. congruence.
Qed.

Lemma losses_nonneg (delta : list num) :
  Forall nonneg (map f_opp (where_ (fun d => (d <? f_of_Z 0)%fl) delta)).
Proof.
  unfold where_. rewrite map_map. apply Forall_forall. intros x Hx.
  apply in_map_iff in Hx. destruct Hx as (d & <- & _).
  destruct (f_ltb d (f_of_Z 0)) eqn:E;
    [|simpl; rewrite Qred_correct; unfold inject_Z; lra].
  destruct d as [|[|]|a]; simpl in E |- *; try discriminate; [exact I|].
  apply negb_true_iff in E. rewrite Qred_correct.
  destruct (Qlt_le_dec a 0) as [Hlt|Hle]; [lra|].
  apply Qle_bool_iff in Hle. unfold inject_Z in E. congruence.
Qed.

Lemma rsi_formula_is_nan (x : num) :
  is_nan (rsi_formula x) = is_nan x.
Proof.
  destruct x as [|s|q]; [reflexivity|destruct s; reflexivity|].
  unfold rsi_formula. simpl.
  destruct (is_zero (Qred (inject_Z 1 + q))); reflexivity.
Qed.

Lemma rsi_formula_range (x : num) :
  nonneg x ->
  leb (Fin (inject_Z 0)) (rsi_formula x) = true /\
  leb (rsi_formula x) (Fin (inject_Z 100)) = true.
Proof.
  destruct x as [|[|]|q]; cbn [nonneg]; try tauto;
    try (intros _; split; reflexivity).
  intros Hq. unfold rsi_formula. simpl.
  assert (Hpos : (0 < inject_Z 1 + q)%Q) by (unfold inject_Z; lra).
  assert (Hz : is_zero (Qred (inject_Z 1 + q)) = false).
  { unfold is_zero. destruct (Qeq_bool _ 0) eqn:E; [|reflexivity].
    apply Qeq_bool_iff in E. rewrite Qred_correct in E. lra. }
  rewrite Hz. simpl.
  assert (H0 : (0 <= inject_Z 100 / (inject_Z 1 + q))%Q).
  { apply Qle_shift_div_l; [exact Hpos|]. unfold inject_Z. lra. }
  assert (H1 : (inject_Z 100 / (inject_Z 1 + q) <= inject_Z 100)%Q).
  { apply Qle_shift_div_r; [exact Hpos|]. unfold inject_Z. lra. }
  split; apply Qle_bool_iff; rewrite !Qred_correct;
    unfold inject_Z in *; lra.
Qed.

Lemma gain_nonneg (closes : list num) (i : nat) (g : num) :
  nth_error (gain_of closes) i = Some g -> g = NaN \/ nonneg g.
Proof.
  unfold gain_of. intros Hg.
  eapply rolling_mean_nonneg; [apply gains_nonneg|exact Hg].
Qed.

Lemma loss_nonneg (closes : list num) (i : nat) (l : num) :
  nth_error (loss_of closes) i = Some l -> l = NaN \/ nonneg l.
Proof.
  unfold loss_of. intros Hl.
  eapply rolling_mean_nonneg; [apply losses_nonneg|exact Hl].
Qed.

Lemma is_zero_nonneg (q : Q) : is_zero q = true -> is_neg q = false.
Proof.
  unfold is_zero. intros E. apply Qeq_bool_iff in E.
  apply is_neg_nonneg. lra.
Qed.

Lemma positive_not_zero (q : Q) :
  negb (Qle_bool q (inject_Z 0)) = true ->
  is_zero q = false /\ is_neg q = false.
Proof.
  intros E. apply negb_true_iff in E.
  assert (Hq : (0 < q)%Q).
  { destruct (Qlt_le_dec 0 q) as [Hlt|Hle]; [exact Hlt|].
    apply Qle_bool_iff in Hle. unfold inject_Z in E. congruence. }
  split.
  - unfold is_zero. destruct (Qeq_bool q 0) eqn:Ez; [|reflexivity].
    apply Qeq_bool_iff in Ez. lra.
  - apply is_neg_nonneg. lra.
Qed.

(** The RSI column in exact arithmetic: its range, its missing rows, the
    division by a zero loss and the rows that have a value. *)
Lemma exact_rsi (df : list (Candle num)) :
  let rows := snd (detect_elliot_waves df) in
  let closes := map (@close num) df in
  (forall i r,
      nth_error rows i = Some r ->
      f_is_nan (rsi r) = false ->
      (f_of_Z 0 <=? rsi r)%fl = true /\ (rsi r <=? f_of_Z 100)%fl = true) /\
  (forall i r,
      i < 13 -> nth_error rows i = Some r -> f_is_nan (rsi r) = true) /\
  (forall i r g l,
      nth_error rows i = Some r ->
      nth_error (gain_of closes) i = Some g ->
      nth_error (loss_of closes) i = Some l ->
      (l =? f_of_Z 0)%fl = true ->
      (g >? f_of_Z 0)%fl = true ->
      rsi r = f_of_Z 100) /\
  (forall i r a b,
      nth_error rows i = Some r ->
      nth_error (gain_of closes) i = Some (Fin a) ->
      nth_error (loss_of closes) i = Some (Fin b) ->
      ~ (a == 0 /\ b == 0)%Q ->
      f_is_nan (rsi r) = false).
Proof.
  intros rows closes. subst rows closes.
  split; [|split; [|split]].
  - intros i r Hr Hnan.
    destruct (nth_error_rsi df i Hr) as (g & l & Eg & El & Ersi).
    rewrite Ersi in *. cbn [f_is_nan f_div exact] in Hnan.
    rewrite rsi_formula_is_nan in Hnan.
    destruct (gain_nonneg _ _ Eg) as [->|Hg];
      [rewrite div_nan_l in Hnan; discriminate|].
    destruct (loss_nonneg _ _ El) as [->|Hl];
      [rewrite div_nan_r in Hnan; discriminate|].
    destruct (div_nonneg g l Hg Hl) as [E|Hn];
      [rewrite E in Hnan; discriminate|].
    apply (rsi_formula_range _ Hn).
  - intros i r Hi Hr.
    destruct (nth_error_rsi df i Hr) as (g & l & Eg & El & Ersi).
    unfold gain_of in Eg. apply roll_mean_warmup in Eg; [|lia].
    rewrite Ersi, Eg. reflexivity.
  - intros i r g l Hr Eg' El' Hl0 Hg0.
    destruct (nth_error_rsi df i Hr) as (g0 & l0 & Eg & El & Ersi).
    rewrite Eg' in Eg. injection Eg as <-.
    rewrite El' in El. injection El as <-.
    rewrite Ersi. clear Ersi Eg' El' Hr.
    destruct l as [|s|b]; cbn in Hl0; try discriminate.
    assert (Hb : is_zero b = true) by exact Hl0.
    destruct g as [|[|]|a]; cbn in Hg0; try discriminate.
    + cbn [f_div exact div]. rewrite (is_zero_nonneg _ Hb). reflexivity.
    + destruct (positive_not_zero _ Hg0) as (Ha0 & Han).
      cbn [f_div exact div]. rewrite Hb, Ha0, Han. reflexivity.
  - intros i r a b Hr Eg' El' Hab.
    destruct (nth_error_rsi df i Hr) as (g0 & l0 & Eg & El & Ersi).
    rewrite Eg' in Eg. injection Eg as <-.
    rewrite El' in El. injection El as <-.
    rewrite Ersi. cbn [f_is_nan f_div exact].
    rewrite rsi_formula_is_nan. cbn [div].
    destruct (is_zero b) eqn:Eb; [|reflexivity].
    destruct (is_zero a) eqn:Ea; [|reflexivity].
    exfalso. apply Hab. unfold is_zero in Ea, Eb.
    split; now apply Qeq_bool_iff.
Qed.

End RsiFacts.

(** ** The RSI column, on binary64 *)

Module Binary64Rsi.

Lemma is_nan_of_spec (x : float) :
  Prim2SF x = S754_nan -> PrimFloat.is_nan x = true.
Proof.
  intros E. unfold PrimFloat.is_nan.
  rewrite FloatAxioms.eqb_spec, E. reflexivity.
Qed.

Lemma prim_div_nan_l (x y : float) :
  Prim2SF x = S754_nan -> Prim2SF (x / y) = S754_nan.
Proof. intros E. rewrite FloatAxioms.div_spec, E. reflexivity. Qed.

Lemma prim_div_nan_r (x y : float) :
  Prim2SF y = S754_nan -> Prim2SF (x / y) = S754_nan.
Proof.
  intros E. rewrite FloatAxioms.div_spec, E. destruct (Prim2SF x); reflexivity.
Qed.

Lemma prim_add_nan_r (x y : float) :
  Prim2SF y = S754_nan -> Prim2SF (x + y) = S754_nan.
Proof.
  intros E. rewrite FloatAxioms.add_spec, E. destruct (Prim2SF x); reflexivity.
Qed.

Lemma prim_sub_nan_r (x y : float) :
  Prim2SF y = S754_nan -> Prim2SF (x - y) = S754_nan.
Proof.
  intros E. rewrite FloatAxioms.sub_spec, E. destruct (Prim2SF x); reflexivity.
Qed.

(** A missing [rs] gives a missing RSI. *)
Lemma rsi_formula_nan (rs : float) :
  Prim2SF rs = S754_nan -> f_is_nan (rsi_formula rs) = true.
Proof.
  intros E. apply is_nan_of_spec. unfold rsi_formula.
  apply prim_sub_nan_r, prim_div_nan_r, prim_add_nan_r, E.
Qed.

(** [x == 0] holds of the two zeros only. *)
Lemma eqb_zero (x : float) :
  PrimFloat.eqb x (Binary64.of_Z 0) = true ->
  exists s, Prim2SF x = S754_zero s.
Proof.
  rewrite FloatAxioms.eqb_spec.
  change (Prim2SF (Binary64.of_Z 0)) with (S754_zero false).
  destruct (Prim2SF x) as [s|s| |s m e]; cbn.
  - intros _. now exists s.
  - destruct s; discriminate.
  - discriminate.
  - destruct s; discriminate.
Qed.

(** [x > 0] holds of [+infinity] and of the positive finite numbers. *)
Lemma gtb_zero (x : float) :
  PrimFloat.ltb (Binary64.of_Z 0) x = true ->
  Prim2SF x = S754_infinity false \/
  exists m e, Prim2SF x = S754_finite false m e.
Proof.
  rewrite FloatAxioms.ltb_spec.
  change (Prim2SF (Binary64.of_Z 0)) with (S754_zero false).
  destruct (Prim2SF x) as [s|s| |s m e]; cbn.
  - discriminate.
  - destruct s; [discriminate|]. now left.
  - discriminate.
  - destruct s; [discriminate|]. right. now exists m, e.
Qed.

(** An infinite [rs], of either sign, gives an RSI of 100. *)
Lemma rsi_formula_infinity (rs : float) (s : bool) :
  Prim2SF rs = S754_infinity s -> rsi_formula rs = 100%float.
Proof.
  intros E. apply Prim2SF_inj. unfold rsi_formula.
  change (@f_sub float binary64) with PrimFloat.sub.
  change (@f_div float binary64) with PrimFloat.div.
  change (@f_add float binary64) with PrimFloat.add.
  change (@f_of_Z float binary64) with Binary64.of_Z.
  rewrite FloatAxioms.sub_spec, FloatAxioms.div_spec, FloatAxioms.add_spec, E.
  assert (E1 : Prim2SF (Binary64.of_Z 1) =
               S754_finite false 4503599627370496 (-52))
    by (vm_compute; reflexivity).
  assert (E100 : Prim2SF (Binary64.of_Z 100) = Prim2SF 100%float)
    by (vm_compute; reflexivity).
  rewrite E1, E100.
  destruct s; vm_compute; reflexivity.
Qed.

(** Dividing a positive average gain by a zero average loss. *)
Lemma rsi_singularity (g l : float) :
  PrimFloat.eqb l (Binary64.of_Z 0) = true ->
  PrimFloat.ltb (Binary64.of_Z 0) g = true ->
  rsi_formula (g / l)%float = 100%float.
Proof.
  intros Hl Hg.
  destruct (@eqb_zero l Hl) as (s & El).
  apply (@rsi_formula_infinity _ (xorb false s)).
  rewrite FloatAxioms.div_spec, El.
  destruct (@gtb_zero g Hg) as [Eg|(m & e & Eg)]; rewrite Eg; reflexivity.
Qed.

(** The RSI column on binary64: its missing rows and the division by a
    zero loss. *)
Lemma binary64_rsi (df : list (Candle float)) :
  let rows := snd (detect_elliot_waves df) in
  let closes := map (@close float) df in
  (forall i r,
      i < 13 -> nth_error rows i = Some r -> f_is_nan (rsi r) = true) /\
  (forall i r g l,
      nth_error rows i = Some r ->
      nth_error (gain_of closes) i = Some g ->
      nth_error (loss_of closes) i = Some l ->
      (l =? f_of_Z 0)%fl = true ->
      (g >? f_of_Z 0)%fl = true ->
      rsi r = 100%float).
Proof.
  intros rows closes. subst rows closes. split.
  - intros i r Hi Hr.
    destruct (nth_error_rsi df i Hr) as (g & l & Eg & El & Ersi).
    unfold gain_of in Eg. apply roll_mean_warmup in Eg; [|lia].
    rewrite Ersi, Eg. apply rsi_formula_nan, prim_div_nan_l. reflexivity.
  - intros i r g l Hr Eg' El' Hl0 Hg0.
    destruct (nth_error_rsi df i Hr) as (g0 & l0 & Eg & El & Ersi).
    rewrite Eg' in Eg. injection Eg as <-.
    rewrite El' in El. injection El as <-.
    rewrite Ersi. apply rsi_singularity; assumption.
Qed.

End Binary64Rsi.

(** C8 (as the code has it). The RSI is missing on the first 13 indicator
    rows (rows 0 to 12) and no further: the first difference, which is
    missing, counts as a zero gain and a zero loss, so the 14th row
    completes the window of 14.  Where the rolling average loss is zero and
    the average gain positive the RSI is 100, the division by zero raising
    nothing.  Both hold on binary64 and in exact arithmetic.  The range is
    a fact of exact arithmetic only: there every defined RSI value lies in
    [0, 100], and a row whose two averages are finite and not both zero has
    a defined RSI; on binary64 the running sum of the rolling mean can
    leave an average loss below zero, and the RSI with it. *)
Theorem rsi_range_and_warmup :
  (forall df : list (Candle float),
      let rows := snd (detect_elliot_waves df) in
      let closes := map (@close float) df in
      (forall i r,
          i < 13 -> nth_error rows i = Some r -> f_is_nan (rsi r) = true) /\
      (forall i r g l,
          nth_error rows i = Some r ->
          nth_error (gain_of closes) i = Some g ->
          nth_error (loss_of closes) i = Some l ->
          (l =? f_of_Z 0)%fl = true ->
          (g >? f_of_Z 0)%fl = true ->
          rsi r = 100%float)) /\
  (forall df : list (Candle Exact.num),
      let rows := snd (detect_elliot_waves df) in
      let closes := map (@close Exact.num) df in
      (forall i r,
          nth_error rows i = Some r ->
          f_is_nan (rsi r) = false ->
          (f_of_Z 0 <=? rsi r)%fl = true /\
          (rsi r <=? f_of_Z 100)%fl = true) /\
      (forall i r,
          i < 13 -> nth_error rows i = Some r -> f_is_nan (rsi r) = true) /\
      (forall i r g l,
          nth_error rows i = Some r ->
          nth_error (gain_of closes) i = Some g ->
          nth_error (loss_of closes) i = Some l ->
          (l =? f_of_Z 0)%fl = true ->
          (g >? f_of_Z 0)%fl = true ->
          rsi r = f_of_Z 100) /\
      (forall i r a b,
          nth_error rows i = Some r ->
          nth_error (gain_of closes) i = Some (Exact.Fin a) ->
          nth_error (loss_of closes) i = Some (Exact.Fin b) ->
          ~ (a == 0 /\ b == 0)%Q ->
          f_is_nan (rsi r) = false)).
Proof.
  split.
  - exact Binary64Rsi.binary64_rsi.
  - exact RsiFacts.exact_rsi.
Qed.

(** ** The pipeline on two price points *)

Section PipelineFacts.

Context {F : Type} `{FloatOps F}.

Lemma interpret_no_waves (df : list (IndicatorRow F)) :
  df <> [] ->
  exists r, interpret_elliot_waves (waves initial) df = Some r /\
    total_waves r = 0 /\
    impulse_waves_count r = 0 /\
    corrective_waves_count r = 0 /\
    dominant_trend r = bearish /\
    recommendation r = "NEUTRAL"%string.
Proof.
  destruct df as [|row df]; [congruence|]. intros _.
  eexists. split; [reflexivity|]. cbn. repeat split.
Qed.

(** C6 (as the code has it). On exactly 2 price points the candle stage
    fails: one candle at most is left once the first row is dropped, and 2
    are required; no indicator row is computed.  The error is the
    InsufficientData error, unless a timestamp cannot be converted, when it
    is the error of the conversion, which comes first.  The stages behind
    it accept such a frame: the indicator
    stage turns one candle into one row and an empty set of waves, the
    scan of an empty or one-element sequence of changes, or of a change
    below the minor threshold, finds no wave, and no wave means counts of
    0, a bearish trend and the recommendation NEUTRAL.  With a third point
    (timestamps that can be converted and closes that are finite) the
    candle stage succeeds, with 2 candles. *)
Theorem two_points_are_insufficient (p1 p2 : Z * F) :
  (exists e,
     get_crypto_candles [p1; p2] = inl e /\
     (to_datetime [fst p1; fst p2] = Some [fst p1; fst p2] ->
      InsufficientData e) /\
     (to_datetime [fst p1; fst p2] = None ->
      e = Error_fetching_data Out_of_bounds_datetime)) /\
  List.length (dropna (with_columns [p1; p2])) <= 1 /\
  (forall p3 : Z * F,
      to_datetime [fst p1; fst p2; fst p3] =
        Some [fst p1; fst p2; fst p3] ->
      Forall (fun q => numeric q = true) [p1; p2; p3] ->
      exists df, get_crypto_candles [p1; p2; p3] = inr df /\
                 List.length df = 2) /\
  (forall c : Candle F,
      fst (detect_elliot_waves [c]) = waves initial /\
      List.length (snd (detect_elliot_waves [c])) = 1) /\
  identify_wave_pattern (F:=F) [] = waves initial /\
  (forall x : F, identify_wave_pattern [x] = waves initial) /\
  (forall x c : F, below_minor c ->
                   identify_wave_pattern [x; c] = waves initial) /\
  (forall df : list (IndicatorRow F),
      df <> [] ->
      exists r, interpret_elliot_waves (waves initial) df = Some r /\
        impulse_waves_count r = 0 /\
        corrective_waves_count r = 0 /\
        dominant_trend r = bearish /\
        recommendation r = "NEUTRAL"%string).
Proof.
  assert (Hlen : List.length (dropna (with_columns [p1; p2])) <= 1).
  { rewrite dropna_first_row.
    eapply Nat.le_trans; [apply filter_length_le|].
    rewrite length_later_rows. reflexivity. }
  split.
  { rewrite get_crypto_candles_stage by (cbn [List.length]; lia).
    cbn [map].
    destruct (to_datetime [fst p1; fst p2]) as [ts|].
    - cbv zeta. rewrite (proj2 (Nat.ltb_lt _ 2)) by lia.
      eexists. split; [reflexivity|]. split; [|discriminate].
      intros _. now right.
    - eexists. split; [reflexivity|]. split; [discriminate|reflexivity]. }
  split; [exact Hlen|].
  split.
  { intros p3 Hts Hnum.
    assert (Hdf : dropna (with_columns [p1; p2; p3]) =
                  later_rows p1 [p2; p3]).
    { rewrite dropna_first_row. apply filter_all. intros r Hr.
      now rewrite (later_rows_no_nan Hnum r Hr). }
    exists (later_rows p1 [p2; p3]).
    split; [|apply length_later_rows].
    rewrite get_crypto_candles_stage by (cbn [List.length]; lia).
    cbn [map]. rewrite Hts. cbv zeta.
    rewrite Hdf, length_later_rows. reflexivity. }
  split; [intros c; split; reflexivity|].
  split; [reflexivity|].
  split; [reflexivity|].
  split.
  { intros x c Hc. unfold identify_wave_pattern. cbn [tl scan].
    now rewrite (loop_body_skips _ _ _ (below_minor_skips Hc)). }
  intros df Hdf.
  destruct (interpret_no_waves Hdf) as (r & Hr & _ & Hi & Hc & Ht & Hrec).
  exists r. auto.
Qed.

End PipelineFacts.

(** * Runs on binary64 data *)

(** The thresholds are the floats Python reads the literals as. *)
Example thresholds_binary64 :
  thresholds minor = 0.02%float /\
  thresholds significant = 0.05%float /\
  thresholds major = 0.10%float.
Proof. repeat split; vm_compute; reflexivity. Qed.

(** The closes 100, 102, 108, 99, 95 through the whole pipeline: three
    waves, labelled in scan order, a bullish trend and HOLD/CAUTION. *)
Example five_prices_pipeline :
  match get_crypto_candles five_prices with
  | inr df =>
      let result := detect_elliot_waves df in
      (wave_labels (fst result),
       option_map (fun r => (dominant_trend r, recommendation r))
                  (interpret_elliot_waves (fst result) (snd result)))
  | inl _ => ([], None)
  end =
  (["Impulse 1"; "Correction A"; "Correction B"]%string,
   Some (bullish, "HOLD/CAUTION"%string)).
Proof. vm_compute. reflexivity. Qed.



(** C1, at the two ties and above the last threshold: a change of exactly
    0.05 is Minor, a change of exactly 0.10 is Significant, a change of
    -0.12 is Major. *)
Lemma magnitude_at_ties :
  magnitude (segment (F:=float) initial 1 0.05%float) = minor /\
  magnitude (segment (F:=float) initial 1 0.10%float) = significant /\
  magnitude (segment (F:=float) initial 1 (-0.12)%float) = major.
Proof.
  split; [|split].
  - apply (proj2 magnitude_is_highest_tier_exceeded initial 1%Z 0.05%float).
    vm_compute; reflexivity.
  - apply (proj2 magnitude_is_highest_tier_exceeded initial 1%Z 0.10%float).
    vm_compute; reflexivity.
  - assert (Hc : (f_abs (-0.12)%float >? thresholds minor)%fl = true)
      by (vm_compute; reflexivity).
    destruct (proj1 magnitude_is_highest_tier_exceeded float _
                initial 1%Z _ Hc) as (_ & _ & Hhi & _).
    assert (Hr : tier_rank major <=
                 tier_rank (magnitude
                              (segment (F:=float) initial 1 (-0.12)%float)))
      by (apply Hhi; vm_compute; reflexivity).
    destruct (magnitude (segment initial 1 (-0.12)%float));
      cbn in Hr; try lia; reflexivity.
Defined.

(** C5, on a change of exactly 0.02 followed by changes of 0.01 and -0.02:
    the state reached after an impulse wave is kept, and the next impulse
    wave is the second of its run. *)
Lemma skipped_points_example :
  let st := loop_body (F:=float) initial 1 0.03%float in
  loop_body st 2 0.02%float = st /\
  scan st 2 [0.02; 0.01; -0.02]%float = st /\
  wave_count (scan st 2 ([0.02; 0.01; -0.02] ++ [0.04])%float) = 2%Z.
Proof.
  intros st.
  assert (Hc : below_minor 0.02%float) by (vm_compute; reflexivity).
  destruct (@skipped_point_keeps_state float _ st 2%Z _ Hc)
    as (H1 & H2 & H3 & _).
  split; [exact H1|]. split.
  - apply H2. repeat constructor; vm_compute; reflexivity.
  - destruct (H3 [0.02; 0.01; -0.02]%float 2%Z 0.04%float) as (_ & Hs & _).
    + repeat constructor; vm_compute; reflexivity.
    + vm_compute; reflexivity.
    + rewrite Hs; vm_compute; reflexivity.
Defined.

(** C4, on seven impulse waves with a skipped point in their midst. *)
Lemma run_labels_example :
  wave_labels
    (waves (scan (loop_body (F:=float) initial 1 0.12%float) 2
                 [0.12; 0.01; 0.12; 0.12; 0.12; 0.12; 0.12]%float)) =
    ["Impulse 1"; "Impulse 2"; "Impulse 3"; "Impulse 4"; "Impulse 5";
     "Impulse Ext"; "Impulse Ext"]%string /\
  wave_count
    (scan (loop_body (F:=float) initial 1 0.12%float) 2
          [0.12; 0.01; 0.12; 0.12; 0.12; 0.12; 0.12]%float) = 7%Z.
Proof.
  destruct (@run_labels float _ initial 1%Z 0.12%float
              [0.12; 0.01; 0.12; 0.12; 0.12; 0.12; 0.12]%float impulse)
    as (_ & _ & _ & Hl & Hk & _).
  - vm_compute; reflexivity.
  - vm_compute; reflexivity.
  - discriminate.
  - repeat constructor; intros _; vm_compute; reflexivity.
  - split; [etransitivity; [exact Hl|]|etransitivity; [exact Hk|]];
      vm_compute; reflexivity.
Defined.

(** C9, on the first corrective wave of a scan: the run counter is 1 and
    the label is "Correction A". *)
Lemma corrective_label_example :
  label (segment (F:=float) initial 1 (-0.0833)%float) =
    "Correction A"%string.
Proof.
  destruct (@corrective_label_has_prefix float _ initial 1%Z
              (-0.0833)%float)
    as (_ & _ & _ & _ & HA & _).
  - vm_compute; reflexivity.
  - vm_compute; reflexivity.
  - vm_compute. discriminate.
  - apply HA. reflexivity.
Defined.

(** C9 as stated fails: the label of a corrective wave with run counter 1
    is "Correction A", not the single letter [chr(64 + 1)]. *)
Lemma corrective_label_is_not_a_letter :
  map (fun d => (type d, label d))
      (wave_details (identify_wave_pattern (F:=float) [nan; -0.0833]%float)) =
    [(corrective, "Correction A"%string)] /\
  next_count (F:=float) initial corrective = 1%Z /\
  chr (64 + 1) = "A"%string /\
  "Correction A"%string <> chr (64 + 1).
Proof.
  split; [vm_compute; reflexivity|]. split; [reflexivity|].
  split; [reflexivity|]. discriminate.
Qed.

(** C7, on [five_prices]: four candles are returned. *)
Lemma five_prices_candles :
  get_crypto_candles five_prices = inr five_candles /\
  List.length five_candles = 4.
Proof.
  destruct (@candles_or_insufficient_data float _ five_prices)
    as (_ & _ & _ & Hok & _ & Hnum).
  - discriminate.
  - split.
    + apply Hok; [reflexivity|]. vm_compute. lia.
    + apply Hnum. repeat constructor; vm_compute; reflexivity.
Defined.

(** C7 as stated fails: of six price points, the third without a close,
    three candles are returned and not five: the missing close takes its
    own row and the next, whose open it is. *)
Lemma missing_close_drops_rows :
  List.length gapped_prices = 6 /\
  option_map (map (fun r => (timestamp r, open r, close r)))
    (match get_crypto_candles gapped_prices with
     | inr df => Some df
     | inl _ => None
     end) =
    Some [(86400000%Z, 100%float, 102%float);
          (345600000%Z, 99%float, 95%float);
          (432000000%Z, 95%float, 97%float)].
Proof. split; vm_compute; reflexivity. Qed.

(** C6 as stated fails: on two price points the candle stage raises, and no
    candle is returned. *)
Lemma two_prices_raise :
  get_crypto_candles [(0%Z, 50%float); (86400000%Z, 50.5%float)] =
    inl (Error_fetching_data Insufficient_processed_data_points) /\
  ~ (exists df : list (Candle float),
        get_crypto_candles [(0%Z, 50%float); (86400000%Z, 50.5%float)] = inr df /\
        List.length df = 1).
Proof.
  split; [vm_compute; reflexivity|]. intros (df & Hdf & _).
  vm_compute in Hdf. discriminate Hdf.
Qed.

(** C2 and the scenario of the specification: one impulse wave followed by
    two corrective waves still gives a bullish trend. *)
Lemma trend_example :
  exists r,
    interpret_elliot_waves
      (identify_wave_pattern three_waves)
      (snd (detect_elliot_waves five_candles)) = Some r /\
    map (fun d => type d)
        (wave_details (identify_wave_pattern three_waves)) =
      [impulse; corrective; corrective] /\
    dominant_trend r = bullish.
Proof.
  destruct (@trend_bullish_iff_impulse_detected float _
              three_waves (snd (detect_elliot_waves five_candles)))
    as (r & Hr & Hb & _).
  - vm_compute. discriminate.
  - exists r. split; [exact Hr|]. split; [vm_compute; reflexivity|].
    apply Hb. vm_compute. discriminate.
Defined.

(** C10, on the same scenario: the recommendation is HOLD/CAUTION. *)
Lemma recommendation_example :
  exists r,
    interpret_elliot_waves
      (identify_wave_pattern three_waves)
      (snd (detect_elliot_waves five_candles)) = Some r /\
    recommendation r <> "MODERATE BUY"%string.
Proof.
  destruct (@moderate_buy_unreachable float _
              three_waves (snd (detect_elliot_waves five_candles)))
    as (r & Hr & Hne & _).
  - vm_compute. discriminate.
  - exists r. split; [exact Hr|exact Hne].
Defined.

(** C8 as stated fails twice.  On [rising_prices] the RSI is missing on 13
    rows only, and the 14th indicator row has the value 100.  On
    [wide_prices] the running sum of the rolling mean is left negative once
    the three large losses have gone from the window: on the 18th indicator
    row the average loss is below zero, and so is the RSI. *)
Lemma rsi_defined_on_row_14 :
  match get_crypto_candles rising_prices with
  | inr df =>
      map (fun r => (f_is_nan (rsi r), f_eqb (rsi r) 100%float))
          (firstn 14 (snd (detect_elliot_waves df)))
  | inl _ => []
  end
  = repeat (true, false) 13 ++ [(false, true)] /\
  match get_crypto_candles wide_prices with
  | inr df =>
      (option_map (fun l => (l <? f_of_Z 0)%fl)
                  (nth_error (loss_of (map (@close float) df)) 17),
       option_map (fun r => (f_is_nan (rsi r), (rsi r <? f_of_Z 0)%fl))
                  (nth_error (snd (detect_elliot_waves df)) 17))
  | inl _ => (None, None)
  end
  = (Some true, Some (false, true)).
Proof. split; vm_compute; reflexivity. Qed.


(** C8, on [rising_prices]: the first indicator row has no RSI. *)
Lemma rsi_warmup_example :
  match nth_error (snd (detect_elliot_waves rising_candles)) 0 with
  | Some r => f_is_nan (rsi r) = true
  | None => False
  end.
Proof.
  destruct (nth_error (snd (detect_elliot_waves rising_candles)) 0)
    as [r|] eqn:E.
  - apply (proj1 (proj1 rsi_range_and_warmup rising_candles) 0 r);
      [lia|exact E].
  - vm_compute in E. discriminate E.
Defined.

(** C6, on two price points of binary64 data. *)
Lemma two_points_example :
  exists e,
    get_crypto_candles [(0%Z, 50%float); (86400000%Z, 50.5%float)] = inl e /\
    InsufficientData e.
Proof.
  destruct (proj1 (@two_points_are_insufficient float _
                     (0%Z, 50%float) (86400000%Z, 50.5%float)))
    as (e & He & Hok & _).
  exists e. split; [exact He|]. apply Hok. reflexivity.
Defined.

(** C3, on one impulse wave against two corrective waves. *)
Lemma recommendation_table_example :
  fst (get_investment_recommendation
         (impulse_waves (identify_wave_pattern three_waves))
         (corrective_waves (identify_wave_pattern three_waves))
         bullish) = "HOLD/CAUTION"%string.
Proof.
  destruct (@recommendation_table float
              (impulse_waves (identify_wave_pattern three_waves))
              (corrective_waves (identify_wave_pattern three_waves))
              bullish) as (_ & _ & Hhold & _).
  apply Hhold. vm_compute. lia.
Defined.

(** * Further properties *)

(** ** Whole scans *)

Section WholeScans.

Context {F : Type} `{FloatOps F}.

Lemma scan_count_nonneg (l : list F) (st : Scan F) (i : Z) :
  (0 <= wave_count st)%Z -> (0 <= wave_count (scan st i l))%Z.
Proof.
  revert st i. induction l as [|c l IH]; intros st i Hst; [exact Hst|].
  cbn [scan]. apply IH. destruct (emits c) eqn:Ec.
  - rewrite (loop_body_emits _ _ _ Ec). cbn [wave_count].
    unfold next_count. destruct (differs _ _); lia.
  - now rewrite (loop_body_skips _ _ _ Ec).
Qed.

(** What a scan adds to the four lists: the waves [ext], in scan order. *)
Lemma scan_extension (l : list F) (st : Scan F) (i : Z) (k : nat) :
  wave_count st = Z.of_nat k ->
  exists ext,
    wave_details (waves (scan st i l)) = wave_details (waves st) ++ ext /\
    wave_labels (waves (scan st i l)) =
      wave_labels (waves st) ++ map (fun d => label d) ext /\
    impulse_waves (waves (scan st i l)) =
      impulse_waves (waves st) ++ filter (has_type impulse) ext /\
    corrective_waves (waves (scan st i l)) =
      corrective_waves (waves st) ++ filter (has_type corrective) ext /\
    map unlabelled ext =
      map wave_at (filter (fun p => emits (snd p)) (indexed i l)) /\
    map (fun d => label d) ext =
      map (fun p => run_label (fst p) (snd p))
          (run_positions (current_wave_type st) k
                         (map (fun d => type d) ext)).
Proof.
  revert st i k. induction l as [|c l IH]; intros st i k Hk.
  - exists []. cbn. now rewrite !app_nil_r.
  - cbn [scan indexed filter snd]. destruct (emits c) eqn:Ec.
    + rewrite (loop_body_emits _ _ _ Ec).
      set (t := wave_type_of c).
      set (k' := if differs (current_wave_type st) t then 1 else S k).
      assert (Hk' : next_count st t = Z.of_nat k').
      { unfold next_count, k'. destruct (differs _ _); lia. }
      destruct (IH {| waves := record_wave (waves st) (segment st i c);
                      current_wave_type := Some t;
                      wave_count := next_count st t |} (i + 1)%Z k' Hk')
        as (ext & Hd & Hl & Hi & Hc & Hu & Hr).
      cbn [waves current_wave_type] in Hd, Hl, Hi, Hc, Hr.
      exists (segment st i c :: ext).
      rewrite Hd, Hl, Hi, Hc. unfold record_wave.
      cbn [wave_details wave_labels impulse_waves corrective_waves].
      assert (Ht : type (segment st i c) = t) by reflexivity.
      assert (Hlab : label (segment st i c) = run_label t k').
      { cbn [segment label]. fold t. rewrite Hk'.
        apply wave_label_of_run. unfold k'. destruct (differs _ _); lia. }
      repeat split.
      * now rewrite <- app_assoc.
      * now rewrite <- app_assoc.
      * cbn [filter]. unfold has_type at 2. rewrite Ht.
        destruct t; cbn [WaveType_eqb]; [now rewrite <- app_assoc|reflexivity].
      * cbn [filter]. unfold has_type at 2. rewrite Ht.
        destruct t; cbn [WaveType_eqb]; [reflexivity|now rewrite <- app_assoc].
      * cbn [map]. now rewrite Hu.
      * cbn [map run_positions fst snd]. rewrite Ht. fold k'.
        now rewrite Hlab, Hr.
    + rewrite (loop_body_skips _ _ _ Ec). apply IH, Hk.
Qed.

Lemma identify_wave_pattern_extension (series : list F) :
  exists ext,
    wave_details (identify_wave_pattern series) = ext /\
    wave_labels (identify_wave_pattern series) = map (fun d => label d) ext /\
    impulse_waves (identify_wave_pattern series) =
      filter (has_type impulse) ext /\
    corrective_waves (identify_wave_pattern series) =
      filter (has_type corrective) ext /\
    map unlabelled ext =
      map wave_at (filter (fun p => emits (snd p)) (indexed 1 (tl series))) /\
    map (fun d => label d) ext =
      map (fun p => run_label (fst p) (snd p))
          (run_positions None 0 (map (fun d => type d) ext)).
Proof.
  destruct (@scan_extension (tl series) initial 1%Z 0 eq_refl)
    as (ext & Hd & Hl & Hi & Hc & Hu & Hr).
  cbn [initial waves wave_details wave_labels impulse_waves
       corrective_waves app current_wave_type] in Hd, Hl, Hi, Hc, Hr.
  exists ext. unfold identify_wave_pattern.
  rewrite Hd, Hl, Hi, Hc. repeat split; assumption.
Qed.

Lemma length_by_type (l : list (WaveDetails F)) :
  List.length l =
    List.length (filter (has_type impulse) l) +
    List.length (filter (has_type corrective) l).
Proof.
  induction l as [|d l IH]; [reflexivity|].
  cbn [filter].
  destruct (has_type impulse d) eqn:E1, (has_type corrective d) eqn:E2;
    cbn [List.length]; try lia;
    unfold has_type in E1, E2; destruct (type d); discriminate.
Qed.

(** X1. The four lists of the result agree: the impulse list and the
    corrective list are the impulse waves and the corrective waves of
    [wave_details], in the same order, the labels are the labels of
    [wave_details], and the two counts add up to the number of waves. *)
Theorem sublists_are_filters (series : list F) :
  let w := identify_wave_pattern series in
  impulse_waves w = filter (has_type impulse) (wave_details w) /\
  corrective_waves w = filter (has_type corrective) (wave_details w) /\
  wave_labels w = map (fun d => label d) (wave_details w) /\
  List.length (wave_details w) =
    List.length (impulse_waves w) + List.length (corrective_waves w).
Proof.
  intros w. subst w.
  destruct (identify_wave_pattern_extension series)
    as (ext & Hd & Hl & Hi & Hc & _).
  rewrite Hd, Hl, Hi, Hc. repeat split. apply length_by_type.
Qed.

(** X2. Apart from its label, a wave depends on its own point alone: the
    waves are, in order, exactly the positions [i >= 1] of the column whose
    change exceeds the minor threshold in absolute value, each with
    [start_index = i - 1], [end_index = i], the change times 100 as
    percentage, its type by the sign of the change and its magnitude by the
    thresholds. *)
Theorem waves_are_the_emitting_points (series : list F) :
  map unlabelled (wave_details (identify_wave_pattern series)) =
    map wave_at
        (filter (fun p => emits (snd p)) (indexed 1 (tl series))).
Proof.
  destruct (identify_wave_pattern_extension series)
    as (ext & Hd & _ & _ & _ & Hu & _).
  now rewrite Hd.
Qed.

Lemma run_label_in (t : WaveType) (k : nat) :
  1 <= k -> In (run_label t k) (labels_of t).
Proof.
  intros Hk. destruct t.
  - do 6 (destruct k as [|k]; [try lia; cbn; tauto|]). cbn. tauto.
  - do 4 (destruct k as [|k]; [try lia; cbn; tauto|]). cbn. tauto.
Qed.

Lemma labels_in_set (l : list (WaveDetails F)) (prev : option WaveType)
    (k : nat) :
  map (fun d => label d) l =
    map (fun p => run_label (fst p) (snd p))
        (run_positions prev k (map (fun d => type d) l)) ->
  Forall (fun d => In (label d) (labels_of (type d))) l.
Proof.
  revert prev k. induction l as [|d l IH]; intros prev k E; [constructor|].
  cbn [map run_positions fst snd] in E. injection E as Ed El.
  constructor; [|exact (IH _ _ El)].
  rewrite Ed. apply run_label_in. destruct (differs prev (type d)); lia.
Qed.

(** X3. The labels are a function of the sequence of wave types alone:
    each wave is labelled by its type and its position in its run of
    same-type waves, counted from 1 over the whole scan; so an impulse wave
    is labelled "Impulse 1" to "Impulse 5" or "Impulse Ext", a corrective
    wave "Correction A" to "Correction C" or "Correction Ext", and nothing
    else. *)
Theorem labels_follow_run_positions (series : list F) :
  let w := identify_wave_pattern series in
  wave_labels w =
    map (fun p => run_label (fst p) (snd p))
        (run_positions None 0 (map (fun d => type d) (wave_details w))) /\
  Forall (fun d => In (label d) (labels_of (type d))) (wave_details w).
Proof.
  intros w. subst w.
  destruct (identify_wave_pattern_extension series)
    as (ext & Hd & Hl & _ & _ & _ & Hr).
  rewrite Hd, Hl. split; [exact Hr|]. exact (labels_in_set _ _ _ Hr).
Qed.

(** X4. Later points only append: the waves found in a column are found,
    with the same labels, at the head of the waves found in any
    continuation of the column. *)
Theorem later_points_only_append (series more : list F) :
  let w := identify_wave_pattern series in
  let w' := identify_wave_pattern (series ++ more) in
  exists ext,
    wave_details w' = wave_details w ++ ext /\
    wave_labels w' = wave_labels w ++ map (fun d => label d) ext /\
    impulse_waves w' = impulse_waves w ++ filter (has_type impulse) ext /\
    corrective_waves w' =
      corrective_waves w ++ filter (has_type corrective) ext.
Proof.
  intros w w'. subst w w'. destruct series as [|x series].
  - destruct (identify_wave_pattern_extension ([] ++ more))
      as (ext & Hd & Hl & Hi & Hc & _).
    exists ext. rewrite Hd, Hl, Hi, Hc. repeat split.
  - unfold identify_wave_pattern. cbn [app tl]. rewrite scan_app.
    pose proof (@scan_count_nonneg series initial 1%Z (Z.le_refl 0)) as Hn.
    destruct (@scan_extension more (scan initial 1 series)
                (1 + Z.of_nat (List.length series))%Z
                (Z.to_nat (wave_count (scan initial 1 series))))
      as (ext & Hd & Hl & Hi & Hc & _); [lia|].
    exists ext. auto.
Qed.

End WholeScans.

(** ** The order of the two float instances *)

Module Binary64Order.

Lemma SFcompare_refl (x : spec_float) :
  SFcompare x x = None \/ SFcompare x x = Some Eq.
Proof.
  destruct x as [s|s| |s m e]; cbn; auto; right.
  - destruct s; reflexivity.
  - rewrite Z.compare_refl, Pos.compare_cont_refl. destruct s; reflexivity.
Qed.

Lemma SFcompare_lt_trans (x y z : spec_float) :
  SFcompare x y = Some Lt -> SFcompare y z = Some Lt ->
  SFcompare x z = Some Lt.
Proof.
  destruct x as [sx|sx| |sx mx ex], y as [sy|sy| |sy my ey],
           z as [sz|sz| |sz mz ez]; cbn;
    try discriminate;
    try (destruct sx; try discriminate);
    try (destruct sy; try discriminate);
    try (destruct sz; try discriminate);
    try reflexivity; try discriminate; try (intros; discriminate).
  all: try (intros _ E; exact E).
  all: fold (Pos.compare mx my); fold (Pos.compare my mz);
    fold (Pos.compare mx mz).
  all: destruct (Z.compare_spec ex ey), (Z.compare_spec ey ez),
         (Z.compare_spec ex ez);
       destruct (Pos.compare_spec mx my), (Pos.compare_spec my mz),
         (Pos.compare_spec mx mz);
       cbn; try discriminate; try reflexivity; try lia.
Qed.

Lemma not_nan_spec (x : float) :
  PrimFloat.is_nan x = false -> Prim2SF x <> S754_nan.
Proof.
  intros E Ex. unfold PrimFloat.is_nan in E.
  rewrite FloatAxioms.eqb_spec, Ex in E. discriminate.
Qed.

Lemma ltb_irrefl (x : float) : PrimFloat.ltb x x = false.
Proof.
  rewrite FloatAxioms.ltb_spec. unfold SFltb.
  destruct (SFcompare_refl (Prim2SF x)) as [-> | ->]; reflexivity.
Qed.

Lemma ltb_trans (x y z : float) :
  PrimFloat.ltb x y = true -> PrimFloat.ltb y z = true ->
  PrimFloat.ltb x z = true.
Proof.
  rewrite !FloatAxioms.ltb_spec. unfold SFltb.
  destruct (SFcompare (Prim2SF x) (Prim2SF y)) as [[ | | ]|] eqn:Exy;
    try discriminate.
  destruct (SFcompare (Prim2SF y) (Prim2SF z)) as [[ | | ]|] eqn:Eyz;
    try discriminate.
  now rewrite (SFcompare_lt_trans _ _ _ Exy Eyz).
Qed.

Lemma leb_total (x y : float) :
  PrimFloat.is_nan x = false -> PrimFloat.is_nan y = false ->
  PrimFloat.ltb y x = false -> PrimFloat.leb x y = true.
Proof.
  intros Hx Hy. apply not_nan_spec in Hx, Hy.
  rewrite FloatAxioms.ltb_spec, FloatAxioms.leb_spec. unfold SFltb, SFleb.
  rewrite (Binary64.SFcompare_antisym (Prim2SF x) (Prim2SF y)).
  destruct (Prim2SF x) as [sx|sx| |sx mx ex], (Prim2SF y) as [sy|sy| |sy my ey];
    try congruence;
    destruct (SFcompare _ _) as [[ | | ]|] eqn:E; cbn;
    try congruence; cbn in E; discriminate.
Qed.

Lemma SFleb_trans (x y z : spec_float) :
  SFleb x y = true -> SFleb y z = true -> SFleb x z = true.
Proof.
  unfold SFleb.
  destruct x as [sx|sx| |sx mx ex], y as [sy|sy| |sy my ey],
           z as [sz|sz| |sz mz ez]; cbn;
    try discriminate;
    try (destruct sx; try discriminate);
    try (destruct sy; try discriminate);
    try (destruct sz; try discriminate);
    try reflexivity; try discriminate; try (intros; discriminate).
  all: try (intros _ E; exact E).
  all: try (intros E _; exact E).
  all: fold (Pos.compare mx my); fold (Pos.compare my mz);
    fold (Pos.compare mx mz).
  all: destruct (Z.compare_spec ex ey), (Z.compare_spec ey ez),
         (Z.compare_spec ex ez);
       destruct (Pos.compare_spec mx my), (Pos.compare_spec my mz),
         (Pos.compare_spec mx mz);
       cbn; try discriminate; try reflexivity; try lia.
Qed.

Lemma leb_trans (x y z : float) :
  PrimFloat.leb x y = true -> PrimFloat.leb y z = true ->
  PrimFloat.leb x z = true.
Proof. rewrite !FloatAxioms.leb_spec. apply SFleb_trans. Qed.

End Binary64Order.

#[export] Instance binary64_order : @FloatOrder float binary64.
Proof.
  constructor.
  - exact Binary64Order.ltb_irrefl.
  - exact Binary64Order.ltb_trans.
  - exact Binary64Order.leb_total.
  - exact Binary64Order.leb_trans.
Qed.

Module ExactOrder.

Lemma exact_ltb_irrefl (x : Exact.num) : Exact.ltb x x = false.
Proof.
  destruct x as [|s|a]; cbn; [reflexivity|destruct s; reflexivity|].
  assert (E : Qle_bool a a = true) by (apply Qle_bool_iff; lra).
  now rewrite E.
Qed.

Lemma ltb_fin (a b : Q) :
  Exact.ltb (Exact.Fin a) (Exact.Fin b) = true <-> (a < b)%Q.
Proof.
  cbn. rewrite negb_true_iff. split.
  - intros E. destruct (Qlt_le_dec a b) as [Hlt|Hle]; [exact Hlt|].
    apply Qle_bool_iff in Hle. congruence.
  - intros Hlt. destruct (Qle_bool b a) eqn:E; [|reflexivity].
    apply Qle_bool_iff in E. lra.
Qed.

Lemma exact_ltb_trans (x y z : Exact.num) :
  Exact.ltb x y = true -> Exact.ltb y z = true -> Exact.ltb x z = true.
Proof.
  destruct x as [|sx|a], y as [|sy|b], z as [|sz|c];
    try (cbn; discriminate);
    try (destruct sx, sy, sz; cbn; congruence);
    try (destruct sx, sy; cbn; congruence);
    try (destruct sy, sz; cbn; congruence);
    try (destruct sx, sz; cbn; congruence);
    try (destruct sy; cbn; congruence).
  - cbn. intros E _. exact E.
  - cbn. intros _ E. exact E.
  - rewrite !ltb_fin. lra.
Qed.

Lemma exact_leb_total (x y : Exact.num) :
  Exact.is_nan x = false -> Exact.is_nan y = false ->
  Exact.ltb y x = false -> Exact.leb x y = true.
Proof.
  destruct x as [|sx|a], y as [|sy|b]; cbn; try discriminate;
    intros _ _.
  - destruct sx, sy; cbn; congruence.
  - destruct sx; cbn; congruence.
  - destruct sy; cbn; congruence.
  - now rewrite negb_false_iff.
Qed.

Lemma exact_leb_trans (x y z : Exact.num) :
  Exact.leb x y = true -> Exact.leb y z = true -> Exact.leb x z = true.
Proof.
  destruct x as [|sx|a], y as [|sy|b], z as [|sz|c];
    try (cbn; discriminate);
    try (destruct sx, sy, sz; cbn; congruence);
    try (destruct sx, sy; cbn; congruence);
    try (destruct sy, sz; cbn; congruence);
    try (destruct sx, sz; cbn; congruence);
    try (destruct sy; cbn; congruence).
  - cbn. intros E _. exact E.
  - cbn. intros _ E. exact E.
  - cbn. intros E1 E2. apply Qle_bool_iff in E1, E2. apply Qle_bool_iff.
    lra.
Qed.

End ExactOrder.

#[export] Instance exact_order : @FloatOrder Exact.num exact.
Proof.
  constructor.
  - exact ExactOrder.exact_ltb_irrefl.
  - exact ExactOrder.exact_ltb_trans.
  - exact ExactOrder.exact_leb_total.
  - exact ExactOrder.exact_leb_trans.
Qed.

Unset Implicit Arguments.

(** ** The rows of the candle frame *)

Section CandleRows.

Context {F : Type} `{FloatOps F}.

Lemma map_fst_combine (A B : Type) (l : list A) (l' : list B) :
  List.length l <= List.length l' -> map fst (combine l l') = l.
Proof.
  revert l'. induction l as [|a l IH]; intros [|b l'] E;
    try reflexivity; cbn in E; [lia|].
  cbn. f_equal. apply IH. lia.
Qed.

Lemma nth_error_tl (A : Type) (l : list A) (j : nat) :
  nth_error (tl l) j = nth_error l (S j).
Proof. destruct l; [destruct j|]; reflexivity. Qed.

Lemma nth_error_removelast (A : Type) (l : list A) (j : nat) (x : A) :
  nth_error (removelast l) j = Some x -> nth_error l j = Some x.
Proof.
  rewrite removelast_firstn_len, nth_error_firstn.
  destruct (j <? Nat.pred (List.length l)); [auto|discriminate].
Qed.

(** A position of the column lies in the windows that end at it or at one
    of the [w - 1] positions after it. *)
Lemma nth_error_window_at (w i j : nat) (s : list F) (x : F) :
  nth_error s j = Some x -> i + 1 - w <= j <= i ->
  In x (window_at w i s).
Proof.
  intros Hx Hj. unfold window_at.
  apply (nth_error_In _ (j - (i + 1 - w))).
  rewrite nth_error_firstn, nth_error_skipn.
  destruct (Nat.ltb_spec (j - (i + 1 - w)) (i + 1 - (i + 1 - w))); [|lia].
  rewrite <- Hx. f_equal. lia.
Qed.

(** A row below the first: its point, the close before it, and the rolling
    maximum and minimum at its position. *)
Lemma later_rows_nth (p : Z * F) (ps : list (Z * F)) (j : nat)
    (r : Candle F) :
  nth_error (later_rows p ps) j = Some r ->
  exists q,
    nth_error ps j = Some q /\
    timestamp r = fst q /\
    close r = snd q /\
    nth_error (map snd (p :: ps)) (S j) = Some (close r) /\
    nth_error (map snd (p :: ps)) j = Some (open r) /\
    nth_error (rolling 4 1 agg_max (map snd (p :: ps))) (S j) =
      Some (high r) /\
    nth_error (rolling 4 1 agg_min (map snd (p :: ps))) (S j) =
      Some (low r).
Proof.
  unfold later_rows. rewrite nth_error_map.
  destruct (nth_error _ j) as [[[[q o] h] l]|] eqn:E; [|discriminate].
  cbn [option_map]. intros Er. injection Er as <-.
  apply nth_error_combine in E. destruct E as (E & El).
  apply nth_error_combine in E. destruct E as (E & Eh).
  apply nth_error_combine in E. destruct E as (Eq & Eo).
  rewrite nth_error_tl in Eh, El. apply nth_error_removelast in Eo.
  exists q. cbn [timestamp close open high low].
  repeat split; try assumption.
  cbn [map nth_error]. now rewrite nth_error_map, Eq.
Qed.

(** A value of a window stands at one of its positions. *)
Lemma In_window_at_nth (w i : nat) (s : list F) (x : F) :
  In x (window_at w i s) ->
  exists k, i + 1 - w <= k <= i /\ nth_error s k = Some x.
Proof.
  unfold window_at. intros Hx. apply In_nth_error in Hx.
  destruct Hx as (n & Hn). rewrite nth_error_firstn in Hn.
  destruct (Nat.ltb_spec n (i + 1 - (i + 1 - w))) as [Hlt|_];
    [|discriminate].
  rewrite nth_error_skipn in Hn. exists (i + 1 - w + n).
  split; [lia|exact Hn].
Qed.

(** The value of a rolling maximum or minimum with one required
    observation, on a column without infinite values, at a position whose
    own value is a number. *)
Lemma rolling_select_at (agg : list F -> F) (s : list F) (i : nat)
    (c h : F) :
  (forall x, In x s -> f_is_inf x = false) ->
  (forall obs, obs <> [] -> In (agg obs) obs) ->
  nth_error s i = Some c ->
  f_is_nan c = false ->
  nth_error (rolling 4 1 agg s) i = Some h ->
  let obs := filter (fun x => negb (f_is_nan x)) (window_at 4 i s) in
  h = agg obs /\ In c obs /\ In h obs /\ f_is_nan h = false.
Proof.
  intros Hinf Hagg Hc Hnum Hh obs.
  assert (Hin : In c obs).
  { apply filter_In. split.
    - apply (nth_error_window_at 4 i i s c Hc). lia.
    - now rewrite Hnum. }
  apply nth_error_rolling in Hh. cbn zeta in Hh.
  rewrite (prep_values_plain s Hinf) in Hh. fold obs in Hh.
  assert (Hne : obs <> []) by (intros E; rewrite E in Hin; exact Hin).
  destruct (Nat.ltb_spec (List.length obs) 1) as [Hlt|_].
  { destruct obs; [congruence|cbn in Hlt; lia]. }
  assert (Hho : In h obs) by (rewrite Hh; apply Hagg, Hne).
  repeat split; try assumption.
  apply filter_In in Hho. destruct Hho as (_ & E).
  now apply negb_true_iff in E.
Qed.

Lemma plain_spec (q : Z * F) :
  plain q = true -> (fst q =? NaT)%Z = false /\ f_is_inf (snd q) = false.
Proof.
  unfold plain. intros E. apply andb_true_iff in E.
  destruct E as (Et & Ei). apply negb_true_iff in Et, Ei. auto.
Qed.

Lemma closes_not_infinite (prices : list (Z * F)) :
  Forall (fun q => f_is_inf (snd q) = false) prices ->
  forall x, In x (map snd prices) -> f_is_inf x = false.
Proof.
  intros Hp x Hx. apply in_map_iff in Hx. destruct Hx as (q & <- & Hq).
  rewrite Forall_forall in Hp. exact (Hp q Hq).
Qed.

(** Among points that have a datetime and no infinite close, a row below
    the first is dropped exactly when its close or the close before it is
    missing. *)
Lemma later_rows_has_nan (p : Z * F) (ps : list (Z * F)) (r : Candle F) :
  Forall (fun q => plain q = true) (p :: ps) ->
  In r (later_rows p ps) ->
  has_nan r = f_is_nan (close r) || f_is_nan (open r).
Proof.
  intros Hp Hr. apply In_nth_error in Hr. destruct Hr as (j & Hr).
  destruct (later_rows_nth p ps j r Hr)
    as (q & Eq & Et & _ & Ec & _ & Eh & El).
  assert (Hinf : forall x, In x (map snd (p :: ps)) -> f_is_inf x = false).
  { apply closes_not_infinite. rewrite Forall_forall in Hp |- *.
    intros q' Hq'. exact (proj2 (plain_spec q' (Hp q' Hq'))). }
  assert (Ent : (timestamp r =? NaT)%Z = false).
  { rewrite Et. rewrite Forall_forall in Hp.
    apply (plain_spec q), Hp. right. exact (nth_error_In _ _ Eq). }
  unfold has_nan. rewrite Ent. cbn [orb].
  destruct (f_is_nan (close r)) eqn:Nc; [reflexivity|].
  destruct (rolling_select_at agg_max _ _ _ _ Hinf agg_max_In Ec Nc Eh)
    as (_ & _ & _ & Nh).
  destruct (rolling_select_at agg_min _ _ _ _ Hinf agg_min_In Ec Nc El)
    as (_ & _ & _ & Nl).
  rewrite Nh, Nl. cbn. now rewrite !orb_false_r.
Qed.

(** What a successful call returns. *)
Lemma get_crypto_candles_inr (prices : list (Z * F)) (df : list (Candle F)) :
  get_crypto_candles prices = inr df ->
  df = dropna (with_columns prices) /\
  2 <= List.length df /\ 2 <= List.length prices /\
  to_datetime (map fst prices) = Some (map fst prices).
Proof.
  intros Hget.
  assert (Hn : 2 <= List.length prices).
  { unfold get_crypto_candles in Hget.
    destruct (Nat.eqb_spec (List.length prices) 0); [discriminate|].
    destruct (Nat.ltb_spec (List.length prices) 2); [discriminate|lia]. }
  rewrite (get_crypto_candles_stage prices Hn) in Hget.
  unfold to_datetime in *.
  destruct (forallb in_bounds (map fst prices)); [|discriminate].
  cbv zeta in Hget.
  destruct (Nat.ltb_spec (List.length (dropna (with_columns prices))) 2);
    [discriminate|].
  injection Hget as <-. auto.
Qed.

Lemma combine_swap_snd (ps : list (Z * F)) (os : list F) :
  map (fun a : (Z * F) * F => (snd a, snd (fst a))) (combine ps os) =
    combine (firstn (List.length ps) os) (firstn (List.length os) (map snd ps)).
Proof.
  revert os. induction ps as [|q ps IH]; intros [|o os]; try reflexivity.
  cbn. f_equal. apply IH.
Qed.

(** The pairs (open, close) of the rows below the first are the pairs of
    consecutive closes. *)
Lemma later_rows_pairs (p : Z * F) (ps : list (Z * F)) :
  map (fun r => (open r, close r)) (later_rows p ps) =
    combine (map snd (p :: ps)) (tl (map snd (p :: ps))).
Proof.
  unfold later_rows. rewrite map_map.
  set (closes := map snd (p :: ps)).
  set (hs := tl (rolling 4 1 agg_max closes)).
  set (ls := tl (rolling 4 1 agg_min closes)).
  assert (Lo : List.length (removelast closes) = List.length ps).
  { rewrite removelast_firstn_len, length_firstn. unfold closes.
    cbn [map List.length Nat.pred]. rewrite length_map. lia. }
  assert (Lh : List.length hs = List.length ps).
  { unfold hs. rewrite length_tl, length_rolling. unfold closes.
    cbn [map List.length]. rewrite length_map. lia. }
  assert (Ll : List.length ls = List.length ps).
  { unfold ls. rewrite length_tl, length_rolling. unfold closes.
    cbn [map List.length]. rewrite length_map. lia. }
  transitivity
    (map (fun a : (Z * F) * F => (snd a, snd (fst a)))
         (map fst (map fst (combine (combine (combine ps (removelast closes))
                                             hs) ls)))).
  { rewrite !map_map. apply map_ext. now intros [[[q o] h] l]. }
  rewrite !map_fst_combine
    by (rewrite ?length_combine, ?Lo, ?Lh, ?Ll; lia).
  rewrite combine_swap_snd, Lo.
  rewrite (firstn_all2 (removelast closes)) by lia.
  rewrite (firstn_all2 (map snd ps)) by (rewrite length_map; lia).
  change (tl closes) with (map snd ps).
  rewrite (combine_firstn_r closes (map snd ps)), length_map.
  f_equal. rewrite removelast_firstn_len. f_equal.
  unfold closes. cbn [map List.length Nat.pred]. now rewrite length_map.
Qed.

(** The candles of a history whose points have a datetime and no infinite
    close. *)
Lemma plain_candles (p : Z * F) (ps : list (Z * F)) :
  Forall (fun q => plain q = true) (p :: ps) ->
  map (fun r => (open r, close r)) (dropna (with_columns (p :: ps))) =
    filter both_numbers
           (combine (map snd (p :: ps)) (tl (map snd (p :: ps)))).
Proof.
  intros Hp. rewrite dropna_first_row, <- later_rows_pairs. unfold dropna.
  rewrite (filter_ext_in _
             (fun r => both_numbers (open r, close r)) (later_rows p ps)).
  - now rewrite <- (filter_map_swap both_numbers).
  - intros r Hr. rewrite (later_rows_has_nan p ps r Hp Hr).
    unfold both_numbers, not_nan. cbn [fst snd].
    now rewrite negb_orb, andb_comm.
Qed.

(** X5. For a history whose points have a datetime and no infinite close,
    the candles returned are, in order, the pairs of consecutive price
    points whose two closes are numbers: the open of a candle is the close
    of the point before it.  When no close is missing either, the candles
    are the history without its first point: the timestamps and the closes
    of the points after the first, the opens the closes of the points
    before the last. *)
Theorem candles_are_consecutive_closes (prices : list (Z * F))
    (df : list (Candle F)) :
  Forall (fun q => plain q = true) prices ->
  get_crypto_candles prices = inr df ->
  let closes := map snd prices in
  map (fun r => (open r, close r)) df =
    filter both_numbers (combine closes (tl closes)) /\
  (Forall (fun q => f_is_nan (snd q) = false) prices ->
   map (fun r => timestamp r) df = map fst (tl prices) /\
   map (fun r => close r) df = tl closes /\
   map (fun r => open r) df = removelast closes).
Proof.
  intros Hplain Hdf closes. apply get_crypto_candles_inr in Hdf.
  destruct Hdf as (Hdf & _ & Hn & _).
  destruct prices as [|p ps]; [cbn in Hn; lia|].
  split.
  - subst closes. rewrite Hdf. exact (plain_candles p ps Hplain).
  - intros Hnan.
    assert (Hnum : Forall (fun q => numeric q = true) (p :: ps)).
    { rewrite Forall_forall in Hplain, Hnan |- *. intros q Hq.
      unfold numeric. now rewrite (Hplain q Hq), (Hnan q Hq). }
    rewrite dropna_first_row in Hdf.
    assert (Hall : df = later_rows p ps).
    { rewrite Hdf. apply filter_all. intros r Hr.
      now rewrite (later_rows_no_nan Hnum r Hr). }
    pose proof (later_rows_pairs p ps) as Hp.
    assert (Ho : map fst (map (fun r => (open r, close r)) (later_rows p ps))
                 = removelast (map snd (p :: ps))).
    { rewrite Hp. cbn [map tl].
      rewrite (combine_firstn_r (snd p :: map snd ps) (map snd ps)).
      rewrite map_fst_combine by (rewrite length_firstn; cbn; lia).
      now rewrite removelast_firstn_len. }
    assert (Hc : map snd (map (fun r => (open r, close r)) (later_rows p ps))
                 = map snd ps).
    { rewrite Hp. cbn [map tl].
      rewrite (combine_firstn_r (snd p :: map snd ps) (map snd ps)).
      apply map_snd_combine. rewrite length_firstn. cbn. lia. }
    rewrite !map_map in Ho, Hc. cbn [fst snd] in Ho, Hc.
    rewrite Hall. subst closes. cbn [map tl]. repeat split.
    + apply (nth_ext _ _ 0%Z 0%Z).
      * now rewrite !length_map, length_later_rows.
      * rewrite length_map, length_later_rows. intros j Hj.
        destruct (nth_error (later_rows p ps) j) as [r|] eqn:Er.
        -- destruct (later_rows_nth p ps j r Er) as (q & Eq & Et & _).
           rewrite (nth_error_nth _ _ _ (map_nth_error _ _ _ Er)).
           rewrite (nth_error_nth _ _ _ (map_nth_error fst _ _ Eq)).
           exact Et.
        -- apply nth_error_None in Er. rewrite length_later_rows in Er. lia.
    + exact Hc.
    + exact Ho.
Qed.

(** X7. Which histories the candle stage accepts.  The number of points is
    checked before the timestamps are converted, and the candles are
    counted after: one point fails with "Insufficient data points" whatever
    its timestamp, two points or more with a timestamp that cannot be
    converted fail with the error of the conversion whatever their closes.
    When the timestamps can be converted (and no point lacks a datetime or
    has an infinite close), the frame has one candle for each pair of
    consecutive closes that are both numbers: the stage fails with
    "Insufficient processed data points" exactly when there are fewer than
    two such pairs, however many closes are numbers. *)
Theorem candle_stage_errors (prices : list (Z * F)) :
  let closes := map snd prices in
  let pairs := filter both_numbers (combine closes (tl closes)) in
  (List.length prices = 1 ->
   get_crypto_candles prices =
     inl (Error_fetching_data Insufficient_data_points)) /\
  (2 <= List.length prices ->
   to_datetime (map fst prices) = None ->
   get_crypto_candles prices =
     inl (Error_fetching_data Out_of_bounds_datetime)) /\
  (2 <= List.length prices ->
   to_datetime (map fst prices) = Some (map fst prices) ->
   Forall (fun q => plain q = true) prices ->
   (List.length pairs < 2 ->
    get_crypto_candles prices =
      inl (Error_fetching_data Insufficient_processed_data_points)) /\
   (2 <= List.length pairs ->
    exists df,
      get_crypto_candles prices = inr df /\
      List.length df = List.length pairs /\
      List.length df <= List.length prices - 1 /\
      Forall (fun r => has_nan r = false) df)).
Proof.
  intros closes pairs. split.
  { intros E. destruct prices as [|p [|p' ps]]; try discriminate.
    reflexivity. }
  split.
  { intros Hn Hts. rewrite (get_crypto_candles_stage prices Hn).
    now rewrite Hts. }
  intros Hn Hts Hplain.
  rewrite (get_crypto_candles_stage prices Hn), Hts. cbv zeta.
  destruct prices as [|p ps]; [cbn in Hn; lia|].
  assert (Hlen : List.length (dropna (with_columns (p :: ps))) =
                 List.length pairs).
  { subst pairs closes. rewrite <- (plain_candles p ps Hplain).
    now rewrite length_map. }
  split.
  - intros Hlt. rewrite Hlen.
    now rewrite (proj2 (Nat.ltb_lt _ _) Hlt).
  - intros Hge. rewrite Hlen.
    rewrite (proj2 (Nat.ltb_ge _ _) Hge).
    exists (dropna (with_columns (p :: ps))).
    split; [reflexivity|]. split; [exact Hlen|]. split.
    + rewrite dropna_first_row. unfold dropna.
      pose proof (filter_length_le (fun r => negb (has_nan r))
                    (later_rows p ps)) as Hle.
      rewrite length_later_rows in Hle. cbn [List.length]. lia.
    + apply Forall_forall. intros r Hr. unfold dropna in Hr.
      apply filter_In in Hr. destruct Hr as (_ & Hr).
      now apply negb_true_iff in Hr.
Qed.

End CandleRows.

(** ** The order of open, high, low and close *)

Section CandleOrder.

Context {F : Type} `{FloatOps F} {order : FloatOrder F}.

Lemma f_leb_refl (x : F) : f_is_nan x = false -> f_leb x x = true.
Proof.
  intros Hx. apply f_leb_total; [exact Hx|exact Hx|apply f_ltb_irrefl].
Qed.

(** Of two numbers, the one the other is not at most is at most the
    other. *)
Lemma f_leb_false (x y : F) :
  f_is_nan x = false -> f_is_nan y = false ->
  f_leb x y = false -> f_leb y x = true.
Proof.
  intros Hx Hy E. apply f_leb_total; [exact Hy|exact Hx|].
  destruct (f_ltb x y) eqn:Exy; [|reflexivity].
  destruct (f_ltb y x) eqn:Eyx.
  - pose proof (f_ltb_trans x y x Exy Eyx) as Hxx.
    rewrite f_ltb_irrefl in Hxx. discriminate.
  - rewrite (f_leb_total x y Hx Hy Eyx) in E. discriminate.
Qed.

Lemma fold_fmax_upper (rest : list F) :
  forall (acc : F) (seen : list F),
    f_is_nan acc = false ->
    Forall (fun x => f_is_nan x = false) rest ->
    (forall x, In x seen -> f_leb x acc = true) ->
    forall x, In x (seen ++ rest) ->
              f_leb x (fold_left fmax rest acc) = true.
Proof.
  induction rest as [|y rest IH]; intros acc seen Hacc Hrest Hseen x Hx.
  - rewrite app_nil_r in Hx. now apply Hseen.
  - inversion Hrest as [|y' rest' Hy Hrest']; subst.
    cbn [fold_left]. apply (IH (fmax acc y) (seen ++ [y])).
    + unfold fmax. destruct (f_leb acc y); assumption.
    + exact Hrest'.
    + intros z Hz. apply in_app_or in Hz. unfold fmax.
      destruct (f_leb acc y) eqn:Ea.
      * destruct Hz as [Hz|[<-|[]]]; [|now apply f_leb_refl].
        exact (f_leb_trans z acc y (Hseen z Hz) Ea).
      * destruct Hz as [Hz|[<-|[]]]; [now apply Hseen|].
        now apply f_leb_false.
    + now rewrite <- app_assoc.
Qed.

Lemma fold_fmin_lower (rest : list F) :
  forall (acc : F) (seen : list F),
    f_is_nan acc = false ->
    Forall (fun x => f_is_nan x = false) rest ->
    (forall x, In x seen -> f_leb acc x = true) ->
    forall x, In x (seen ++ rest) ->
              f_leb (fold_left fmin rest acc) x = true.
Proof.
  induction rest as [|y rest IH]; intros acc seen Hacc Hrest Hseen x Hx.
  - rewrite app_nil_r in Hx. now apply Hseen.
  - inversion Hrest as [|y' rest' Hy Hrest']; subst.
    cbn [fold_left]. apply (IH (fmin acc y) (seen ++ [y])).
    + unfold fmin. destruct (f_leb y acc); assumption.
    + exact Hrest'.
    + intros z Hz. apply in_app_or in Hz. unfold fmin.
      destruct (f_leb y acc) eqn:Ea.
      * destruct Hz as [Hz|[<-|[]]]; [|now apply f_leb_refl].
        exact (f_leb_trans y acc z Ea (Hseen z Hz)).
      * destruct Hz as [Hz|[<-|[]]]; [now apply Hseen|].
        now apply f_leb_false.
    + now rewrite <- app_assoc.
Qed.

Lemma agg_max_upper (obs : list F) (x : F) :
  Forall (fun x => f_is_nan x = false) obs ->
  In x obs -> f_leb x (agg_max obs) = true.
Proof.
  destruct obs as [|a rest]; [intros _ []|]. intros Hobs Hx.
  inversion Hobs as [|a' rest' Ha Hrest]; subst. cbn [agg_max].
  apply (fold_fmax_upper rest a [a] Ha Hrest); [|exact Hx].
  intros z [<-|[]]. now apply f_leb_refl.
Qed.

Lemma agg_min_lower (obs : list F) (x : F) :
  Forall (fun x => f_is_nan x = false) obs ->
  In x obs -> f_leb (agg_min obs) x = true.
Proof.
  destruct obs as [|a rest]; [intros _ []|]. intros Hobs Hx.
  inversion Hobs as [|a' rest' Ha Hrest]; subst. cbn [agg_min].
  apply (fold_fmin_lower rest a [a] Ha Hrest); [|exact Hx].
  intros z [<-|[]]. now apply f_leb_refl.
Qed.

(** X6. In a history without infinite closes, every candle returned stands
    at a position [j >= 1] of the history, with the timestamp and the close
    of that point and, as its open, the close of the point before.  Its
    high and its low are closes at the positions [j - 3] to [j] (the point
    itself and up to three points before it), and every close at these
    positions that is a number lies between the low and the high; so the
    low is at most the open and the close, and these are at most the
    high. *)
Theorem candles_are_ordered (prices : list (Z * F)) (df : list (Candle F)) :
  Forall (fun q => f_is_inf (snd q) = false) prices ->
  get_crypto_candles prices = inr df ->
  let closes := map snd prices in
  Forall (fun r =>
            exists j,
              1 <= j /\
              nth_error prices j = Some (timestamp r, close r) /\
              nth_error closes (j - 1) = Some (open r) /\
              (exists k, j - 3 <= k <= j /\
                         nth_error closes k = Some (high r)) /\
              (exists k, j - 3 <= k <= j /\
                         nth_error closes k = Some (low r)) /\
              (forall k c,
                  j - 3 <= k <= j -> nth_error closes k = Some c ->
                  f_is_nan c = false ->
                  f_leb (low r) c = true /\ f_leb c (high r) = true) /\
              f_leb (low r) (open r) = true /\
              f_leb (open r) (high r) = true /\
              f_leb (low r) (close r) = true /\
              f_leb (close r) (high r) = true)
         df.
Proof.
  intros Hfin Hdf closes. apply get_crypto_candles_inr in Hdf.
  destruct Hdf as (Hdf & _ & Hn & _).
  destruct prices as [|p ps]; [cbn in Hn; lia|].
  pose proof (closes_not_infinite (p :: ps) Hfin) as Hinf.
  rewrite dropna_first_row in Hdf. rewrite Hdf.
  apply Forall_forall. intros r Hr. unfold dropna in Hr.
  apply filter_In in Hr. destruct Hr as (Hr & Hnan).
  apply negb_true_iff in Hnan. unfold has_nan in Hnan.
  apply orb_false_iff in Hnan. destruct Hnan as (Hnan & Nl).
  apply orb_false_iff in Hnan. destruct Hnan as (Hnan & Nh).
  apply orb_false_iff in Hnan. destruct Hnan as (Hnan & No).
  apply orb_false_iff in Hnan. destruct Hnan as (_ & Nc).
  apply In_nth_error in Hr. destruct Hr as (j & Hr).
  destruct (later_rows_nth p ps j r Hr)
    as (q & Eq & Et & Eq' & Ec & Eo & Eh & El).
  destruct (rolling_select_at agg_max _ _ _ _ Hinf agg_max_In Ec Nc Eh)
    as (Hh & Hch & Hhh & _).
  destruct (rolling_select_at agg_min _ _ _ _ Hinf agg_min_In Ec Nc El)
    as (Hl & Hcl & Hll & _).
  cbn zeta in Hh, Hch, Hhh, Hl, Hcl, Hll.
  set (obs := filter (fun x => negb (f_is_nan x))
                     (window_at 4 (S j) (map snd (p :: ps)))) in *.
  assert (Hobs : Forall (fun x => f_is_nan x = false) obs).
  { apply Forall_forall. intros x Hx. apply filter_In in Hx.
    destruct Hx as (_ & Hx). now apply negb_true_iff in Hx. }
  assert (Hpos : forall x, In x obs ->
            exists k, S j - 3 <= k <= S j /\
                      nth_error (map snd (p :: ps)) k = Some x).
  { intros x Hx. apply filter_In in Hx. destruct Hx as (Hx & _).
    destruct (In_window_at_nth 4 (S j) _ x Hx) as (k & Hk & Ek).
    exists k. split; [lia|exact Ek]. }
  assert (Hin : forall k c, S j - 3 <= k <= S j ->
            nth_error (map snd (p :: ps)) k = Some c ->
            f_is_nan c = false -> In c obs).
  { intros k c Hk Ek Nk. apply filter_In. split.
    - apply (nth_error_window_at 4 (S j) k _ c Ek). lia.
    - now rewrite Nk. }
  assert (Hbetween : forall c, In c obs ->
            f_leb (low r) c = true /\ f_leb c (high r) = true).
  { intros c Hc. split.
    - rewrite Hl. now apply agg_min_lower.
    - rewrite Hh. now apply agg_max_upper. }
  assert (Hoo : In (open r) obs) by (apply (Hin j); [lia|exact Eo|exact No]).
  exists (S j). subst closes.
  split; [lia|]. split.
  { cbn [nth_error]. rewrite Eq, Et, Eq'. now destruct q. }
  split; [replace (S j - 1) with j by lia; exact Eo|].
  split; [exact (Hpos _ Hhh)|]. split; [exact (Hpos _ Hll)|].
  split.
  { intros k c Hk Ek Nk. exact (Hbetween c (Hin k c Hk Ek Nk)). }
  destruct (Hbetween _ Hoo) as (H1 & H2).
  destruct (Hbetween _ Hch) as (H3 & H4). auto.
Qed.

End CandleOrder.

(** ** The waves of a frame *)

Section FrameWaves.

Context {F : Type} `{FloatOps F}.

Lemma indexed_In (l : list F) (k i : Z) (c : F) :
  In (i, c) (indexed k l) ->
  (k <= i < k + Z.of_nat (List.length l))%Z /\
  nth_error l (Z.to_nat (i - k)) = Some c.
Proof.
  revert k. induction l as [|x l IH]; intros k Hin; [destruct Hin|].
  cbn [indexed] in Hin. destruct Hin as [E|Hin].
  - injection E as <- <-. split; [cbn [List.length]; lia|].
    now rewrite Z.sub_diag.
  - destruct (IH (k + 1)%Z Hin) as (Hi & Hc). split.
    + cbn [List.length]. lia.
    + replace (Z.to_nat (i - k)) with (S (Z.to_nat (i - (k + 1)))) by lia.
      exact Hc.
Qed.

(** A wave of a column is the wave of one of its points after the
    first. *)
Lemma wave_details_In (series : list F) (d : WaveDetails F) :
  In d (wave_details (identify_wave_pattern series)) ->
  exists (i : nat) (c : F),
    1 <= i /\ nth_error series i = Some c /\ emits c = true /\
    unlabelled d = wave_at (Z.of_nat i, c).
Proof.
  intros Hd. apply (in_map unlabelled) in Hd.
  destruct (identify_wave_pattern_extension series)
    as (ext & Hext & _ & _ & _ & Hu & _).
  rewrite Hext, Hu in Hd.
  apply in_map_iff in Hd. destruct Hd as ([i c] & Hw & Hin).
  apply filter_In in Hin. destruct Hin as (Hin & Hc). cbn [snd] in Hc.
  apply indexed_In in Hin. destruct Hin as (Hi & Hn).
  exists (Z.to_nat i), c. rewrite Z2Nat.id by lia.
  repeat split; try lia; [|exact Hc|now symmetry].
  rewrite nth_error_tl in Hn.
  replace (Z.to_nat i) with (S (Z.to_nat (i - 1))) by lia. exact Hn.
Qed.

(** The [pct_change] column of the frame is [pct_change_of] its closes,
    and the candle columns are kept. *)
Lemma pct_change_column (df : list (Candle F)) :
  map (fun r => pct_change r) (indicator_rows df) =
    pct_change_of (map (@close F) df).
Proof.
  unfold indicator_rows. rewrite map_map.
  set (closes := map (@close F) df).
  transitivity
    (map snd (map fst (combine (combine (combine df (diff closes))
                                        (pct_change_of closes))
                               (rsi_of closes)))).
  { rewrite !map_map. apply map_ext. now intros [[[c d] p] x]. }
  rewrite map_fst_combine, map_snd_combine; [reflexivity| |].
  - rewrite length_combine, length_diff, length_pct_change_of.
    unfold closes. rewrite length_map. lia.
  - rewrite !length_combine, length_diff, length_pct_change_of,
      length_rsi_of. lia.
Qed.

Lemma candle_column (df : list (Candle F)) :
  map (fun r => candle r) (indicator_rows df) = df.
Proof.
  unfold indicator_rows. rewrite map_map.
  set (closes := map (@close F) df).
  transitivity
    (map fst (map fst (map fst (combine (combine (combine df (diff closes))
                                                 (pct_change_of closes))
                                        (rsi_of closes))))).
  { rewrite !map_map. apply map_ext. now intros [[[c d] p] x]. }
  rewrite !map_fst_combine; [reflexivity| | |];
    rewrite ?length_combine, ?length_diff, ?length_pct_change_of,
      ?length_rsi_of; unfold closes; rewrite ?length_map; lia.
Qed.

Lemma length_indicator_rows (df : list (Candle F)) :
  List.length (indicator_rows df) = List.length df.
Proof. now rewrite <- (candle_column df) at 2; rewrite length_map. Qed.

(** [pct_change] at a row below the first: the close over the close of the
    row before, minus 1. *)
Lemma nth_error_pct_change_of (s : list F) (j : nat) (c0 c1 : F) :
  nth_error s j = Some c0 -> nth_error s (S j) = Some c1 ->
  nth_error (pct_change_of s) (S j) = Some (c1 / c0 - f_of_Z 1)%fl.
Proof.
  intros E0 E1. unfold pct_change_of. rewrite nth_error_map.
  destruct s as [|x s]; [discriminate|]. cbn [shift1 combine nth_error].
  cbn [nth_error] in E1.
  assert (E0' : nth_error (removelast (x :: s)) j = Some c0).
  { rewrite removelast_firstn_len, nth_error_firstn. cbn [List.length Nat.pred].
    assert (Hj : j < List.length s) by (apply nth_error_Some; congruence).
    now rewrite (proj2 (Nat.ltb_lt _ _) Hj). }
  revert E0' E1. generalize (removelast (x :: s)). clear E0.
  revert j. induction s as [|y s IH]; intros j l E0 E1;
    [destruct j; discriminate|].
  destruct l as [|z l]; [destruct j; discriminate|].
  destruct j as [|j]; cbn in E0, E1 |- *.
  - now injection E0 as ->; injection E1 as ->.
  - exact (IH j l E0 E1).
Qed.

Lemma iloc_nat (A : Type) (l : list A) (i : nat) :
  iloc l (Z.of_nat i) = nth_error l i.
Proof.
  unfold iloc. destruct (Z.leb_spec 0 (Z.of_nat i)); [|lia].
  now rewrite Nat2Z.id.
Qed.

(** A wave of a frame joins two neighbouring rows of the frame, and its
    highlight is drawn on them. *)
Lemma highlight_of_a_wave (df : list (Candle F)) (wave : WaveDetails F) :
  In wave (wave_details (fst (detect_elliot_waves df))) ->
     exists (i : nat) (r0 r1 : Candle F) (h : Highlight F),
       start_index wave = Z.of_nat i /\
       end_index wave = Z.of_nat (S i) /\
       nth_error df i = Some r0 /\
       nth_error df (S i) = Some r1 /\
       percentage_change wave =
         ((close r1 / close r0 - f_of_Z 1) * f_of_Z 100)%fl /\
       highlight (snd (detect_elliot_waves df)) wave = Some h /\
       span_from h = timestamp r0 /\
       span_to h = timestamp r1 /\
       text_x h = timestamp r0 /\
       text_y h = close r0 /\
       text h = label wave.
Proof.
  intros Hw. cbn [detect_elliot_waves fst snd] in *.
  destruct (wave_details_In _ _ Hw) as (i & c & Hi & Hc & _ & Hu).
  destruct i as [|i]; [lia|]. clear Hi.
  remember (Z.of_nat (S i)) as zi eqn:Hzi.
  unfold unlabelled, wave_at in Hu. cbn [fst snd] in Hu.
  injection Hu as _ _ Hs He Hp.
  assert (Hc' : nth_error (pct_change_of (map (@close F) df)) (S i)
                = Some c).
  { rewrite <- pct_change_column. exact Hc. }
  assert (Hlen : S i < List.length df).
  { rewrite <- (length_map (@close F)), <- length_pct_change_of.
    apply nth_error_Some. rewrite Hc'. discriminate. }
  destruct (nth_error df i) as [r0|] eqn:E0;
    [|apply nth_error_None in E0; lia].
  destruct (nth_error df (S i)) as [r1|] eqn:E1;
    [|apply nth_error_None in E1; lia].
  assert (Hrow : forall j r, nth_error df j = Some r ->
            exists row, nth_error (indicator_rows df) j = Some row /\
                        candle row = r).
  { intros j r Er. rewrite <- (candle_column df) in Er.
    rewrite nth_error_map in Er.
    destruct (nth_error (indicator_rows df) j) as [row|]; [|discriminate].
    exists row. split; [reflexivity|]. now injection Er. }
  destruct (Hrow _ _ E0) as (row0 & R0 & C0).
  destruct (Hrow _ _ E1) as (row1 & R1 & C1).
  assert (Hpct : c = (close r1 / close r0 - f_of_Z 1)%fl).
  { rewrite (nth_error_pct_change_of _ i (close r0) (close r1)) in Hc'.
    - now injection Hc'.
    - now rewrite nth_error_map, E0.
    - now rewrite nth_error_map, E1. }
  assert (Hstart : Z.max 0 (Z.min (start_index wave)
                    (Z.of_nat (List.length (indicator_rows df)) - 1))
                   = Z.of_nat i).
  { rewrite Hs, length_indicator_rows. lia. }
  assert (Hend : Z.max 0 (Z.min (end_index wave)
                    (Z.of_nat (List.length (indicator_rows df)) - 1))
                   = Z.of_nat (S i)).
  { rewrite He, length_indicator_rows. lia. }
  assert (Hmid : ((Z.of_nat i + Z.of_nat (S i)) / 2)%Z = Z.of_nat i).
  { symmetry. apply (Z.div_unique _ 2 _ 1); lia. }
  eexists i, r0, r1, _.
  split; [rewrite Hs; lia|]. split; [rewrite He; lia|].
  split; [exact E0|]. split; [exact E1|].
  split; [now rewrite Hp, Hpct|].
  unfold highlight. rewrite Hstart, Hend, Hmid, !iloc_nat, R0, R1.
  rewrite C0, C1. repeat split.
Qed.

(** The highlights of the waves of a frame are all drawn. *)
Lemma highlights_total (df : list (Candle F)) :
  exists drawn,
    highlights (snd (detect_elliot_waves df))
               (wave_details (fst (detect_elliot_waves df))) = Some drawn.
Proof.
  pose proof (highlight_of_a_wave df) as Hall.
  induction (wave_details (fst (detect_elliot_waves df))) as [|wave rest IH].
  - now exists [].
  - destruct (Hall wave (or_introl eq_refl))
      as (_ & _ & _ & h & _ & _ & _ & _ & _ & Hh & _).
    destruct IH as (hs & Hhs). { intros w Hw. apply Hall. now right. }
    exists (h :: hs). cbn [highlights]. now rewrite Hh, Hhs.
Qed.

(** X8. The loop that highlights the waves of a frame never leaves the
    frame: for every wave of the frame the two clamps change nothing, the
    span runs from the row [start_index] to the next row, [end_index], the
    label is written at the row [start_index] with its close, and the
    percentage of the wave is 100 times the change of the close between the
    two rows; so the loop raises no [IndexError]. *)
Theorem highlights_stay_in_the_frame (df : list (Candle F)) :
  let waves := fst (detect_elliot_waves df) in
  let rows := snd (detect_elliot_waves df) in
  (forall wave, In wave (wave_details waves) ->
     exists (i : nat) (r0 r1 : Candle F) (h : Highlight F),
       start_index wave = Z.of_nat i /\
       end_index wave = Z.of_nat (S i) /\
       nth_error df i = Some r0 /\
       nth_error df (S i) = Some r1 /\
       percentage_change wave =
         ((close r1 / close r0 - f_of_Z 1) * f_of_Z 100)%fl /\
       highlight rows wave = Some h /\
       span_from h = timestamp r0 /\
       span_to h = timestamp r1 /\
       text_x h = timestamp r0 /\
       text_y h = close r0 /\
       text h = label wave) /\
  (exists hs, highlights rows (wave_details waves) = Some hs /\
              List.length hs = List.length (wave_details waves)).
Proof.
  intros waves rows.
  pose proof (highlight_of_a_wave df) as Hall. fold waves rows in Hall.
  split; [exact Hall|].
  induction (wave_details waves) as [|wave rest IH].
  - exists []. split; reflexivity.
  - destruct (Hall wave (or_introl eq_refl))
      as (_ & _ & _ & h & _ & _ & _ & _ & _ & Hh & _).
    destruct IH as (hs & Hhs & Hl).
    { intros w Hw. apply Hall. now right. }
    exists (h :: hs). cbn [highlights]. rewrite Hh, Hhs.
    split; [reflexivity|]. cbn [List.length]. now rewrite Hl.
Qed.

End FrameWaves.

(** ** From a price history to the interpretation *)

Section AnalysisFacts.

Context {F : Type} `{FloatOps F}.

Lemma last_map (A B : Type) (f : A -> B) (l : list A) (d : A) :
  last (map f l) (f d) = f (last l d).
Proof.
  induction l as [|a l IH]; [reflexivity|].
  destruct l as [|b l]; [reflexivity|]. exact IH.
Qed.

Lemma last_indep (A : Type) (l : list A) (d d' : A) :
  l <> [] -> last l d = last l d'.
Proof.
  induction l as [|a l IH]; [congruence|]. intros _.
  destruct l as [|b l]; [reflexivity|]. apply IH. discriminate.
Qed.

Lemma last_in_list (A : Type) (l : list A) (d : A) :
  l <> [] -> In (last l d) l.
Proof.
  induction l as [|a l IH]; [congruence|]. intros _.
  destruct l as [|b l]; [now left|]. right. apply IH. discriminate.
Qed.

Lemma length_indexed (l : list F) (k : Z) :
  List.length (indexed k l) = List.length l.
Proof.
  revert k. induction l as [|x l IH]; intros k; [reflexivity|].
  cbn [indexed List.length]. now rewrite IH.
Qed.

(** A column of [n] changes has at most [n - 1] waves. *)
Lemma wave_details_bound (series : list F) :
  List.length (wave_details (identify_wave_pattern series)) <=
    List.length series - 1.
Proof.
  destruct (identify_wave_pattern_extension series)
    as (ext & Hd & _ & _ & _ & Hu & _).
  rewrite Hd, <- (length_map unlabelled), Hu, length_map.
  etransitivity; [apply filter_length_le|].
  rewrite length_indexed. destruct series; cbn; lia.
Qed.

(** The candles of a history whose points have a datetime and a finite
    close are the rows below the first. *)
Lemma numeric_candles (p : Z * F) (ps : list (Z * F)) (df : list (Candle F)) :
  Forall (fun q => numeric q = true) (p :: ps) ->
  get_crypto_candles (p :: ps) = inr df ->
  map (fun r => close r) df = map snd ps.
Proof.
  intros Hnum Hdf. apply get_crypto_candles_inr in Hdf.
  destruct Hdf as (Hdf & _ & _).
  rewrite dropna_first_row in Hdf.
  assert (Hall : df = later_rows p ps).
  { rewrite Hdf. apply filter_all. intros r Hr.
    now rewrite (later_rows_no_nan Hnum r Hr). }
  rewrite Hall. apply (nth_ext _ _ (f_of_Z 0) (f_of_Z 0)).
  - now rewrite !length_map, length_later_rows.
  - rewrite length_map, length_later_rows. intros j Hj.
    destruct (nth_error (later_rows p ps) j) as [r|] eqn:Er.
    + destruct (later_rows_nth p ps j r Er) as (q & Eq & _ & Ec & _).
      rewrite (nth_error_nth _ _ _ (map_nth_error _ _ _ Er)).
      rewrite (nth_error_nth _ _ _ (map_nth_error snd _ _ Eq)).
      exact Ec.
    + apply nth_error_None in Er. rewrite length_later_rows in Er. lia.
Qed.

(** X9. One pass of the loop of [main] on a price history, whatever the
    canvas.  It prints "Error: ..." exactly when the candle stage fails,
    with that stage's error; it prints "Unexpected error occurred: ..."
    exactly when the candle stage succeeds and the drawing of the figure
    raises, with the exception of the drawing: the [.iloc] of the highlight
    loop and of [interpret_elliot_waves] never raise an [IndexError];
    otherwise it prints the analysis.  In the analysis the total is the sum
    of the two counts and is at most the number of prices less 2 (the first
    price opens the first candle, the first candle has no change); the
    current price is the close of the last candle, a number, and, when
    every point has a datetime and a finite close, the last price of the
    history. *)
Theorem analysis_of_a_history (canvas : Canvas F) (prices : list (Z * F)) :
  match analyse canvas prices with
  | Error e => get_crypto_candles prices = inl e
  | Unexpected_error IndexError => False
  | Unexpected_error (Drawing e) =>
      exists df drawn,
        get_crypto_candles prices = inr df /\
        highlights (snd (detect_elliot_waves df))
                   (wave_details (fst (detect_elliot_waves df)))
          = Some drawn /\
        canvas (snd (detect_elliot_waves df)) drawn = Some e
  | Analysis a =>
      exists df drawn first,
        get_crypto_candles prices = inr df /\
        highlights (snd (detect_elliot_waves df))
                   (wave_details (fst (detect_elliot_waves df)))
          = Some drawn /\
        canvas (snd (detect_elliot_waves df)) drawn = None /\
        total_waves a = impulse_waves_count a + corrective_waves_count a /\
        total_waves a + 2 <= List.length prices /\
        In (last df first) df /\
        current_price a = close (last df first) /\
        f_is_nan (current_price a) = false /\
        (Forall (fun q => numeric q = true) prices ->
         forall q, current_price a = snd (last prices q))
  end.
Proof.
  unfold analyse.
  destruct (get_crypto_candles prices) as [e|df] eqn:Hget; [reflexivity|].
  destruct (get_crypto_candles_inr prices df Hget)
    as (Hdrop & Hlen & Hn & _).
  cbv zeta.
  destruct (highlights_total df) as (drawn & Hdrawn). rewrite Hdrawn.
  destruct (canvas (snd (detect_elliot_waves df)) drawn) as [e|] eqn:Hcanvas.
  { exists df, drawn. auto. }
  set (result := detect_elliot_waves df) in Hdrawn, Hcanvas.
  cbn [detect_elliot_waves fst snd].
  pose proof (length_indicator_rows df) as Hrows.
  pose proof (candle_column df) as Hcol.
  destruct (indicator_rows df) as [|row rows] eqn:Erows;
    [cbn in Hrows; lia|].
  cbn [interpret_elliot_waves].
  destruct df as [|first rest] eqn:Edf; [cbn in Hlen; lia|].
  rewrite <- Edf in *.
  exists df, drawn, first. cbn [total_waves impulse_waves_count
    corrective_waves_count current_price].
  assert (Hne : df <> []) by (rewrite Edf; discriminate).
  assert (Hlast : close (candle (last (row :: rows) row)) =
                  close (last df first)).
  { rewrite <- Hcol.
    rewrite (last_indep _ (map (fun r => candle r) (row :: rows))
               first (candle row)) by discriminate.
    now rewrite last_map. }
  assert (Hin : In (last df first) df) by (apply last_in_list; exact Hne).
  split; [reflexivity|].
  split; [subst result; rewrite Edf; exact Hdrawn|].
  split; [subst result; rewrite Edf; exact Hcanvas|].
  clear Hdrawn Hcanvas result.
  split.
  { destruct (identify_wave_pattern_extension
                (map (fun r => pct_change r) (row :: rows)))
      as (ext & Hd & _ & Hi & Hc & _).
    change (map (fun r => pct_change r) (row :: rows))
      with (map (@pct_change F) (row :: rows)) in Hd, Hi, Hc.
    rewrite Hd, Hi, Hc. apply length_by_type. }
  split.
  { pose proof (wave_details_bound
                  (map (fun r => pct_change r) (row :: rows))) as Hb.
    change (map (fun r => pct_change r) (row :: rows))
      with (map (@pct_change F) (row :: rows)) in Hb.
    rewrite length_map, Hrows in Hb.
    assert (Hdf : List.length df <= List.length prices - 1).
    { rewrite Hdrop. destruct prices as [|p ps]; [cbn in Hn; lia|].
      rewrite dropna_first_row. unfold dropna.
      etransitivity; [apply filter_length_le|].
      rewrite length_later_rows. cbn. lia. }
    lia. }
  split; [exact Hin|]. split; [exact Hlast|]. split.
  { rewrite Hlast.
    assert (Hin' : In (last df first) (dropna (with_columns prices)))
      by (rewrite <- Hdrop; exact Hin).
    unfold dropna in Hin'.
    apply filter_In in Hin'. destruct Hin' as (_ & Hnan).
    unfold has_nan in Hnan. apply negb_true_iff in Hnan.
    destruct (f_is_nan (close (last df first)));
      [now rewrite !orb_true_r in Hnan|reflexivity]. }
  intros Hnum q. rewrite Hlast.
  destruct prices as [|p ps]; [cbn in Hn; lia|].
  pose proof (numeric_candles p ps df Hnum Hget) as Hcl.
  assert (Hps : ps <> []) by (destruct ps; [cbn in Hn; lia|discriminate]).
  rewrite <- (last_map _ _ (fun r => close r) df first).
  rewrite Hcl.
  rewrite (last_indep _ (map snd ps) (close first) (snd q))
    by (destruct ps; [congruence|discriminate]).
  rewrite last_map.
  destruct ps as [|p' ps']; [congruence|]. reflexivity.
Qed.

End AnalysisFacts.

(** ** The RSI of a window without gains *)

Module Binary64Flat.

(** A zero [rs], of either sign, gives an RSI of 0. *)
Lemma rsi_formula_zero (rs : float) (s : bool) :
  Prim2SF rs = S754_zero s -> rsi_formula rs = 0%float.
Proof.
  intros E. rewrite <- (SF2Prim_Prim2SF rs), E.
  destruct s; vm_compute; reflexivity.
Qed.

(** Dividing a zero average gain by a positive average loss. *)
Lemma zero_gain_ratio (g l : float) :
  PrimFloat.eqb g (Binary64.of_Z 0) = true ->
  PrimFloat.ltb (Binary64.of_Z 0) l = true ->
  exists s, Prim2SF (g / l)%float = S754_zero s.
Proof.
  intros Hg Hl.
  destruct (@Binary64Rsi.eqb_zero g Hg) as (s & Eg).
  rewrite FloatAxioms.div_spec, Eg.
  destruct (@Binary64Rsi.gtb_zero l Hl) as [El|(m & e & El)]; rewrite El.
  - exists (xorb s false). reflexivity.
  - exists (xorb s false). reflexivity.
Qed.

(** Dividing a zero average gain by a zero average loss. *)
Lemma zero_by_zero (g l : float) :
  PrimFloat.eqb g (Binary64.of_Z 0) = true ->
  PrimFloat.eqb l (Binary64.of_Z 0) = true ->
  Prim2SF (g / l)%float = S754_nan.
Proof.
  intros Hg Hl.
  destruct (@Binary64Rsi.eqb_zero g Hg) as (s & Eg).
  destruct (@Binary64Rsi.eqb_zero l Hl) as (s' & El).
  rewrite FloatAxioms.div_spec, Eg, El. reflexivity.
Qed.

End Binary64Flat.

(** X10. On binary64, at a row whose rolling average gain is zero: a
    positive average loss gives an RSI of exactly 0, and a zero average loss
    (a flat window: 0 / 0) gives a missing RSI; neither division raises an
    error. *)
Theorem rsi_without_gains (df : list (Candle float)) (i : nat)
    (r : IndicatorRow float) (g l : float) :
  nth_error (snd (detect_elliot_waves df)) i = Some r ->
  nth_error (gain_of (map (@close float) df)) i = Some g ->
  nth_error (loss_of (map (@close float) df)) i = Some l ->
  (g =? f_of_Z 0)%fl = true ->
  ((l >? f_of_Z 0)%fl = true -> rsi r = 0%float) /\
  ((l =? f_of_Z 0)%fl = true -> f_is_nan (rsi r) = true).
Proof.
  intros Hr Eg' El' Hg.
  destruct (@nth_error_rsi float _ df i r Hr) as (g0 & l0 & Eg & El & Ersi).
  rewrite Eg' in Eg. injection Eg as <-.
  rewrite El' in El. injection El as <-.
  rewrite Ersi. split; intros Hl.
  - destruct (Binary64Flat.zero_gain_ratio g l Hg Hl) as (s & E).
    exact (Binary64Flat.rsi_formula_zero _ s E).
  - apply (@Binary64Rsi.rsi_formula_nan (g / l)%float).
    exact (Binary64Flat.zero_by_zero g l Hg Hl).
Qed.

(** X10, on [falling_prices]: once the window of 14 is complete the RSI
    is 0. *)
Lemma rsi_of_a_falling_market :
  match nth_error (snd (detect_elliot_waves falling_candles)) 13 with
  | Some r => rsi r = 0%float
  | None => False
  end.
Proof.
  destruct (nth_error (snd (detect_elliot_waves falling_candles)) 13)
    as [r|] eqn:E; [|vm_compute in E; discriminate E].
  destruct (nth_error (gain_of (map (@close float) falling_candles)) 13)
    as [g|] eqn:Eg; [|vm_compute in Eg; discriminate Eg].
  destruct (nth_error (loss_of (map (@close float) falling_candles)) 13)
    as [l|] eqn:El; [|vm_compute in El; discriminate El].
  apply (proj1 (rsi_without_gains falling_candles 13 r g l E Eg El
                  ltac:(vm_compute in Eg; injection Eg as <-;
                        vm_compute; reflexivity))).
  vm_compute in El. injection El as <-. vm_compute. reflexivity.
Defined.

(** ** The requests of a retrieval *)

Section RetrievalFacts.

Context {F : Type} `{FloatOps F}.

(** The text of pandas' [OutOfBoundsDatetime], whatever it is. *)
Variable out_of_bounds_text : string.

Lemma get_crypto_candles_wraps (prices : list (Z * F))
    (e : CryptoAnalysisError) :
  get_crypto_candles prices = inl e ->
  exists e',
    e = Error_fetching_data e' /\
    (e' = Unable_to_fetch_data \/ e' = Insufficient_data_points \/
     e' = Insufficient_processed_data_points \/
     e' = Out_of_bounds_datetime).
Proof.
  unfold get_crypto_candles.
  destruct (List.length prices =? 0)%nat;
    [intros E; injection E as <-; eexists; split; [reflexivity|tauto]|].
  destruct (List.length prices <? 2)%nat;
    [intros E; injection E as <-; eexists; split; [reflexivity|tauto]|].
  destruct (to_datetime (map fst prices)) as [timestamps|];
    [|intros E; injection E as <-; eexists; split; [reflexivity|tauto]].
  cbv zeta.
  destruct (List.length _ <? 2)%nat;
    [intros E; injection E as <-; eexists; split; [reflexivity|tauto]
    |discriminate].
Qed.

(** A reply without prices fails in the candle stage, as "Unable to
    fetch data". *)
Lemma no_prices_fail (data : Data F) :
  no_prices data = true ->
  get_crypto_candles (prices_of data) =
    inl (Error_fetching_data Unable_to_fetch_data).
Proof.
  unfold no_prices, prices_of. destruct (data_prices data) as [[|p l]|].
  - reflexivity.
  - discriminate.
  - reflexivity.
Qed.

(** A frame comes from a reply that has prices. *)
Lemma frame_has_prices (data : Data F) (df : list (Candle F)) :
  get_crypto_candles (prices_of data) = inr df ->
  data_prices data = Some (prices_of data).
Proof.
  unfold prices_of. destruct (data_prices data) as [l|]; [reflexivity|].
  discriminate.
Qed.

Lemma dict_get_cons (k v : string) (d : list (string * string))
    (key default : string) :
  dict_get ((k, v) :: d) key default =
    if String.eqb k key then v else dict_get d key default.
Proof. reflexivity. Qed.

Lemma dict_get_coin_mapping (coin : string) :
  (In coin ["velodrome"; "velo"; "velero"]%string ->
   dict_get coin_mapping coin coin = "velodrome-finance"%string) /\
  (~ In coin ["velodrome"; "velo"; "velero"]%string ->
   dict_get coin_mapping coin coin = coin).
Proof.
  split.
  - intros [<-|[<-|[<-|[]]]]; reflexivity.
  - intros Hn. unfold coin_mapping. rewrite !dict_get_cons.
    change (dict_get [] coin coin) with coin.
    destruct (String.eqb_spec "velodrome" coin) as [E|_];
      [exfalso; apply Hn; rewrite <- E; cbn; tauto|].
    destruct (String.eqb_spec "velo" coin) as [E|_];
      [exfalso; apply Hn; rewrite <- E; cbn; tauto|].
    destruct (String.eqb_spec "velero" coin) as [E|_];
      [exfalso; apply Hn; rewrite <- E; cbn; tauto|].
    reflexivity.
Qed.

(** X11. The requests of [get_crypto_candles]: the market chart of the
    coin first, under the id "velodrome-finance" for the names "velodrome",
    "velo" and "velero" and under the name given for any other; nothing
    more when that reply has prices (or the request raises); otherwise a
    search, for the name as given and not for the mapped id, and then, only
    when the search finds coins, the market chart of the first coin found.
    At most three requests are made. *)
Theorem requests_of_a_retrieval (network : Network F)
    (coin base_currency : string) (days : Z) :
  let requests :=
    snd (get_crypto_candles_from out_of_bounds_text network coin
                                 base_currency days) in
  let id := dict_get coin_mapping coin coin in
  let url := market_chart_url id base_currency days in
  (In coin ["velodrome"; "velo"; "velero"]%string ->
   id = "velodrome-finance"%string) /\
  (~ In coin ["velodrome"; "velo"; "velero"]%string -> id = coin) /\
  match network [] url with
  | raises _ => requests = [url]
  | json data =>
      if no_prices data then
        match network [url] (search_url coin) with
        | raises _ => requests = [url; search_url coin]
        | json search_data =>
            match data_coins search_data with
            | Some (found :: _) =>
                requests =
                  [url; search_url coin;
                   market_chart_url found base_currency days]
            | _ => requests = [url; search_url coin]
            end
        end
      else requests = [url]
  end.
Proof.
  intros requests id url. subst requests id url.
  split; [apply dict_get_coin_mapping|].
  split; [apply dict_get_coin_mapping|].
  unfold get_crypto_candles_from.
  destruct (network [] _) as [e|data]; [reflexivity|].
  destruct (no_prices data).
  - destruct (network [_] _) as [e|search_data]; [reflexivity|].
    destruct (data_coins search_data) as [[|found others]|].
    + destruct (get_crypto_candles _); reflexivity.
    + destruct (network [_; _] _) as [e|data'];
        [reflexivity|destruct (get_crypto_candles _); reflexivity].
    + destruct (get_crypto_candles _); reflexivity.
  - destruct (get_crypto_candles _); reflexivity.
Qed.

(** X12. The outcome of [get_crypto_candles].  A frame is the candle
    frame of the prices in the reply to the last request.  A failure is a
    [CryptoAnalysisError] whose text is "Error fetching data for ", the
    name as the caller gave it, ": " and the first message, which is either
    the text of the exception that the last request raised, or the message
    of the candle stage on the prices of the market chart last received
    (the reply to the last request, or to the first when the search found
    no coin): "Unable to fetch data for ...", "Insufficient data points
    for ...", "Insufficient processed data points for ..." with the name as
    given, or pandas' text for a timestamp out of bounds. *)
Theorem outcome_of_a_retrieval (network : Network F)
    (coin base_currency : string) (days : Z) :
  let run :=
    get_crypto_candles_from out_of_bounds_text network coin
                            base_currency days in
  let requests := snd run in
  match fst run with
  | inr df =>
      exists data prices,
        network (removelast requests) (last requests coin) = json data /\
        data_prices data = Some prices /\
        get_crypto_candles prices = inr df
  | inl text =>
      (exists e,
          network (removelast requests) (last requests coin) = raises e /\
          text = ("Error fetching data for " ++ coin ++ ": " ++ e)%string) \/
      (exists data e before request after,
          requests = before ++ request :: after /\
          (after = [] \/ after = [search_url coin]) /\
          network before request = json data /\
          get_crypto_candles (prices_of data) =
            inl (Error_fetching_data e) /\
          (e = Unable_to_fetch_data \/ e = Insufficient_data_points \/
           e = Insufficient_processed_data_points \/
           e = Out_of_bounds_datetime) /\
          text = ("Error fetching data for " ++ coin ++ ": " ++
                  message out_of_bounds_text coin e)%string)
  end.
Proof.
  assert (Hrest : forall data before request after,
    network before request = json data ->
    (after = [] \/ after = [search_url coin]) ->
    (after = [] \/ no_prices data = true) ->
    let run := match get_crypto_candles (prices_of data) with
               | inl e => (inl (message out_of_bounds_text coin e),
                           before ++ request :: after)
               | inr df => (inr df, before ++ request :: after)
               end in
    match fst run with
    | inr df =>
        exists data0 prices,
          network (removelast (snd run)) (last (snd run) coin)
            = json data0 /\
          data_prices data0 = Some prices /\
          get_crypto_candles prices = inr df
    | inl text =>
        (exists e,
            network (removelast (snd run)) (last (snd run) coin)
              = raises e /\
            text = ("Error fetching data for " ++ coin ++ ": " ++ e)%string) \/
        (exists data0 e before0 request0 after0,
            snd run = before0 ++ request0 :: after0 /\
            (after0 = [] \/ after0 = [search_url coin]) /\
            network before0 request0 = json data0 /\
            get_crypto_candles (prices_of data0) =
              inl (Error_fetching_data e) /\
            (e = Unable_to_fetch_data \/ e = Insufficient_data_points \/
             e = Insufficient_processed_data_points \/
             e = Out_of_bounds_datetime) /\
            text = ("Error fetching data for " ++ coin ++ ": " ++
                    message out_of_bounds_text coin e)%string)
    end).
  { intros data before request after Hnet Hafter Hlast. cbv zeta.
    destruct (get_crypto_candles (prices_of data)) as [e0|df] eqn:Hget;
      cbn [fst snd].
    - right. destruct (get_crypto_candles_wraps _ e0 Hget) as (e & -> & He).
      exists data, e, before, request, after. repeat split; assumption.
    - destruct Hlast as [->|Hno];
        [|rewrite (no_prices_fail data Hno) in Hget; discriminate].
      exists data, (prices_of data).
      rewrite removelast_last, last_last.
      split; [exact Hnet|]. split; [exact (frame_has_prices data df Hget)|].
      exact Hget. }
  cbv zeta. unfold get_crypto_candles_from.
  destruct (network [] _) as [e|data] eqn:N1.
  { cbn [fst snd removelast last]. left. exists e. split; [exact N1|].
    reflexivity. }
  destruct (no_prices data) eqn:Hno.
  - destruct (network [_] _) as [e|search_data] eqn:N2.
    { cbn [fst snd removelast last]. left. exists e. split; [exact N2|].
      reflexivity. }
    destruct (data_coins search_data) as [[|found others]|].
    + exact (Hrest data [] _ [search_url coin] N1
               (or_intror eq_refl) (or_intror Hno)).
    + destruct (network [_; _] _) as [e|data'] eqn:N3.
      { cbn [fst snd removelast last]. left. exists e. split; [exact N3|].
        reflexivity. }
      exact (Hrest data' [_; _] _ [] N3 (or_introl eq_refl)
               (or_introl eq_refl)).
    + exact (Hrest data [] _ [search_url coin] N1
               (or_intror eq_refl) (or_intror Hno)).
  - exact (Hrest data [] _ [] N1 (or_introl eq_refl) (or_introl eq_refl)).
Qed.

End RetrievalFacts.

(** ** Runs of the further properties on binary64 data *)

(** X5, on [five_prices]: each candle opens at the close before it. *)
Lemma five_candles_open_and_close :
  map (fun r => (open r, close r)) five_candles =
    [(100, 102); (102, 108); (108, 99); (99, 95)]%float.
Proof.
  destruct (@candles_are_consecutive_closes float binary64
              five_prices five_candles
              ltac:(repeat constructor)
              ltac:(vm_compute; reflexivity))
    as [E _].
  rewrite E. vm_compute. reflexivity.
Defined.

(** X6, on [five_prices]: in each candle the low is at most the open and
    the close, and these are at most the high. *)
Lemma five_candles_are_ordered :
  Forall (fun r =>
            f_leb (low r) (open r) = true /\
            f_leb (open r) (high r) = true /\
            f_leb (low r) (close r) = true /\
            f_leb (close r) (high r) = true)
         five_candles.
Proof.
  apply (Forall_impl _
           (P := fun r : Candle float =>
                   exists j,
                     1 <= j /\
                     nth_error five_prices j = Some (timestamp r, close r) /\
                     nth_error (map snd five_prices) (j - 1)
                       = Some (open r) /\
                     (exists k, j - 3 <= k <= j /\
                        nth_error (map snd five_prices) k
                          = Some (high r)) /\
                     (exists k, j - 3 <= k <= j /\
                        nth_error (map snd five_prices) k
                          = Some (low r)) /\
                     (forall k c,
                         j - 3 <= k <= j ->
                         nth_error (map snd five_prices) k = Some c ->
                         f_is_nan c = false ->
                         f_leb (low r) c = true /\
                         f_leb c (high r) = true) /\
                     f_leb (low r) (open r) = true /\
                     f_leb (open r) (high r) = true /\
                     f_leb (low r) (close r) = true /\
                     f_leb (close r) (high r) = true)).
  - intros r (j & _ & _ & _ & _ & _ & _ & H1 & H2 & H3 & H4). auto.
  - exact (@candles_are_ordered float binary64 binary64_order
             five_prices five_candles
             ltac:(repeat constructor)
             ltac:(vm_compute; reflexivity)).
Defined.

(** ** A close of zero *)

Section EmittingPoints.

Context {F : Type} `{FloatOps F}.

Lemma In_indexed (l : list F) (k : Z) (j : nat) (c : F) :
  nth_error l j = Some c -> In ((k + Z.of_nat j)%Z, c) (indexed k l).
Proof.
  revert k j. induction l as [|x l IH]; intros k j Hc;
    [destruct j; discriminate|].
  destruct j as [|j]; cbn [nth_error] in Hc; cbn [indexed].
  - injection Hc as ->. left. f_equal. lia.
  - right. replace (k + Z.of_nat (S j))%Z with (k + 1 + Z.of_nat j)%Z by lia.
    now apply IH.
Qed.

(** A point after the first whose change exceeds the minor threshold has
    its wave. *)
Lemma wave_of_a_point (series : list F) (i : nat) (c : F) :
  nth_error series (S i) = Some c -> emits c = true ->
  exists d,
    In d (wave_details (identify_wave_pattern series)) /\
    unlabelled d = wave_at (Z.of_nat (S i), c).
Proof.
  intros Hc He.
  destruct (identify_wave_pattern_extension series)
    as (ext & Hext & _ & _ & _ & Hu & _).
  rewrite Hext.
  assert (Hin : In (wave_at (Z.of_nat (S i), c)) (map unlabelled ext)).
  { rewrite Hu. apply in_map. apply filter_In. split; [|exact He].
    replace (Z.of_nat (S i)) with (1 + Z.of_nat i)%Z by lia.
    apply In_indexed. now rewrite nth_error_tl. }
  apply in_map_iff in Hin. destruct Hin as (d & Hd & Hin).
  exists d. split; [exact Hin|exact Hd].
Qed.

(** The change of a row of the frame. *)
Lemma change_of_a_row (df : list (Candle F)) (i : nat) (r0 r1 : Candle F) :
  nth_error df i = Some r0 -> nth_error df (S i) = Some r1 ->
  nth_error (map (fun r => pct_change r) (snd (detect_elliot_waves df)))
            (S i) = Some (close r1 / close r0 - f_of_Z 1)%fl.
Proof.
  intros E0 E1. cbn [detect_elliot_waves snd]. rewrite pct_change_column.
  apply nth_error_pct_change_of.
  - now rewrite nth_error_map, E0.
  - now rewrite nth_error_map, E1.
Qed.

End EmittingPoints.

Module Binary64Zero.

(** A positive close over a close of zero: the change is infinite. *)
Lemma infinite_change (c1 c0 : float) :
  PrimFloat.eqb c0 (Binary64.of_Z 0) = true ->
  PrimFloat.ltb (Binary64.of_Z 0) c1 = true ->
  (c1 / c0 - Binary64.of_Z 1 = infinity \/
   c1 / c0 - Binary64.of_Z 1 = neg_infinity)%float.
Proof.
  intros H0 H1.
  destruct (@Binary64Rsi.eqb_zero c0 H0) as (s & E0).
  assert (E : exists s', Prim2SF (c1 / c0 - Binary64.of_Z 1)%float =
                         S754_infinity s').
  { rewrite FloatAxioms.sub_spec, FloatAxioms.div_spec, E0.
    destruct (@Binary64Rsi.gtb_zero c1 H1) as [E1|(m & e & E1)]; rewrite E1;
      exists (xorb false s); destruct s; vm_compute; reflexivity. }
  destruct E as (s' & E).
  rewrite <- (SF2Prim_Prim2SF (c1 / c0 - Binary64.of_Z 1)%float), E.
  destruct s'; [right|left]; vm_compute; reflexivity.
Qed.

(** A close of zero over a close of zero: the change is missing. *)
Lemma missing_change (c1 c0 : float) :
  PrimFloat.eqb c0 (Binary64.of_Z 0) = true ->
  PrimFloat.eqb c1 (Binary64.of_Z 0) = true ->
  (c1 / c0 - Binary64.of_Z 1)%float = nan.
Proof.
  intros H0 H1.
  rewrite <- (SF2Prim_Prim2SF (c1 / c0 - Binary64.of_Z 1)%float).
  rewrite FloatAxioms.sub_spec, (Binary64Flat.zero_by_zero c1 c0 H1 H0).
  vm_compute. reflexivity.
Qed.

End Binary64Zero.

(** X13. On binary64, a close of zero raises no division error in the
    change of the next row.  When the next close is positive the change is
    infinite and the row is a wave of magnitude major with an infinite
    percentage, an impulse wave when the change is +infinity; when the next
    close is zero too the change is missing and no wave ends at that
    row. *)
Theorem close_of_zero (df : list (Candle float)) (i : nat)
    (r0 r1 : Candle float) :
  nth_error df i = Some r0 ->
  nth_error df (S i) = Some r1 ->
  (close r0 =? f_of_Z 0)%fl = true ->
  let waves := wave_details (fst (detect_elliot_waves df)) in
  ((close r1 >? f_of_Z 0)%fl = true ->
   exists d,
     In d waves /\
     start_index d = Z.of_nat i /\ end_index d = Z.of_nat (S i) /\
     magnitude d = major /\
     f_abs (percentage_change d) = infinity /\
     (type d = impulse <-> percentage_change d = infinity)) /\
  ((close r1 =? f_of_Z 0)%fl = true ->
   forall d, In d waves -> end_index d <> Z.of_nat (S i)).
Proof.
  intros E0 E1 Z0 waves. subst waves.
  pose proof (change_of_a_row df i r0 r1 E0 E1) as Hc.
  cbn [detect_elliot_waves fst snd] in *.
  change (map (fun r => pct_change r) (indicator_rows df))
    with (map (@pct_change float) (indicator_rows df)) in Hc.
  split.
  - intros Z1.
    assert (Hinf : ((close r1 / close r0 - f_of_Z 1)%fl = infinity \/
                    (close r1 / close r0 - f_of_Z 1)%fl = neg_infinity)%float)
      by exact (Binary64Zero.infinite_change _ _ Z0 Z1).
    remember (close r1 / close r0 - f_of_Z 1)%fl as c eqn:Ec. clear Ec.
    assert (He : emits c = true)
      by (destruct Hinf as [-> | ->]; vm_compute; reflexivity).
    destruct (wave_of_a_point _ i c Hc He) as (d & Hin & Hu).
    exists d. split; [exact Hin|].
    remember (Z.of_nat (S i)) as zi eqn:Hzi.
    unfold unlabelled, wave_at in Hu. cbn [fst snd] in Hu.
    injection Hu as Ht Hm Hs He' Hp.
    split; [lia|]. split; [exact He'|].
    rewrite Ht, Hm, Hp.
    destruct Hinf as [-> | ->]; vm_compute; repeat split;
      try reflexivity; try discriminate; intros E; discriminate E.
  - intros Z1 d Hin Hend.
    assert (Hnan : (close r1 / close r0 - f_of_Z 1)%fl = nan)
      by exact (Binary64Zero.missing_change _ _ Z0 Z1).
    rewrite Hnan in Hc.
    destruct (wave_details_In _ d Hin) as (j & c & _ & Hj & He & Hu).
    unfold unlabelled, wave_at in Hu. cbn [fst snd] in Hu.
    injection Hu as _ _ _ He' _.
    assert (j = S i) by lia. subst j.
    rewrite Hc in Hj. injection Hj as <-.
    vm_compute in He. discriminate He.
Qed.

(** X13, on [zero_prices]: the candle after the close of zero is a major
    wave. *)
Lemma wave_after_a_close_of_zero :
  exists d,
    In d (wave_details (fst (detect_elliot_waves zero_candles))) /\
    start_index d = 0%Z /\ end_index d = 1%Z /\
    magnitude d = major /\
    f_abs (percentage_change d) = infinity /\
    (type d = impulse <-> percentage_change d = infinity).
Proof.
  destruct (nth_error zero_candles 0) as [r0|] eqn:E0;
    [|vm_compute in E0; discriminate E0].
  destruct (nth_error zero_candles 1) as [r1|] eqn:E1;
    [|vm_compute in E1; discriminate E1].
  apply (proj1 (close_of_zero zero_candles 0 r0 r1 E0 E1
                  ltac:(vm_compute in E0; injection E0 as <-;
                        vm_compute; reflexivity))).
  vm_compute in E1. injection E1 as <-. vm_compute. reflexivity.
Defined.
